(** * Markdown Document Converter (src/js/app.js): a shallow embedding

    The browser application reads one markdown file, extracts its YAML
    front matter, renders the body to HTML, materialises Mermaid diagrams
    and finally writes either a paginated PDF or a DOCX document.

    JavaScript strings are sequences of UTF-16 code units, numbers are
    rationals (rounded to the nearest double where the page prints a
    file size), module-level [let] variables are fields of an explicit
    application state, and the
    libraries the program calls (markdown-it, js-yaml, mermaid,
    html2canvas, jsPDF, docx, the DOM parser) are parameters of the
    development. *)

From Stdlib Require Import String Ascii DecimalString DecimalZ.
From Stdlib Require Import List NArith ZArith QArith Qround Qpower Lqa Bool Arith Lia.
Import ListNotations.

Set Implicit Arguments.
Set Warnings "-register-all".
Close Scope Q_scope.

(* ===================================================================== *)
(** ** JavaScript strings *)
(* ===================================================================== *)

Module JS.
Local Open Scope N_scope.

(** A UTF-16 code unit. *)
Definition cu := N.

(** A JavaScript string: its code units in order. *)
Definition jsstring := list cu.

(** The code units of an ASCII literal. *)
Definition lit (s : string) : jsstring :=
  map (fun a => N_of_ascii a) (list_ascii_of_string s).

Definition LF : cu := 10%N.
Definition HYPHEN : cu := 45%N.
Definition DOT : cu := 46%N.
Definition UNDERSCORE : cu := 95%N.

Definition cu_eqb (a b : cu) : bool := N.eqb a b.

Fixpoint jsstring_eqb (a b : jsstring) : bool :=
  match a, b with
  | [], [] => true
  | x :: a', y :: b' => cu_eqb x y && jsstring_eqb a' b'
  | _, _ => false
  end.

Definition in_range (lo hi c : cu) : bool := (N.leb lo c && N.leb c hi)%bool.

Definition is_digit (c : cu) : bool := in_range 48 57 c.
Definition is_lower (c : cu) : bool := in_range 97 122 c.
Definition is_upper (c : cu) : bool := in_range 65 90 c.
Definition is_ascii (c : cu) : bool := N.ltb c 128.

(** [\s]: the WhiteSpace and LineTerminator code points of ECMAScript. *)
Definition is_space (c : cu) : bool :=
  (in_range 9 13 c || cu_eqb c 32 || cu_eqb c 160 || cu_eqb c 5760
   || in_range 8192 8202 c || cu_eqb c 8232 || cu_eqb c 8233
   || cu_eqb c 8239 || cu_eqb c 8287 || cu_eqb c 12288 || cu_eqb c 65279)%bool.

(** [[\s\S]]: every code unit. *)
Definition any_cu (c : cu) : bool := (is_space c || negb (is_space c))%bool.

(** Case mapping of one ASCII code unit. *)
Definition ascii_lower (c : cu) : cu :=
  if is_upper c then c + 32 else c.

Definition ascii_upper (c : cu) : cu :=
  if is_lower c then c - 32 else c.

(** [s.toLowerCase()]. On a string of ASCII code units it maps each
    letter; on any other string it is the Unicode case conversion of the
    engine, [unicode_lower]. *)
Definition toLowerCase (unicode_lower : jsstring -> jsstring) (s : jsstring) : jsstring :=
  if forallb is_ascii s then map ascii_lower s else unicode_lower s.

(** [s.substring(a, b)] for [a <= b]. *)
Definition substring (s : jsstring) (a b : nat) : jsstring :=
  firstn (b - a)%nat (skipn a s).

(** [s.startsWith(p)]. *)
Fixpoint startsWith (s p : jsstring) : bool :=
  match p, s with
  | [], _ => true
  | c :: p', d :: s' => cu_eqb c d && startsWith s' p'
  | _ :: _, [] => false
  end.

(** [s.split(sep)] for a one-code-unit separator: the pieces between
    occurrences of [sep]; never empty. *)
Fixpoint split (sep : cu) (s : jsstring) : list jsstring :=
  match s with
  | [] => [[]]
  | c :: s' =>
      if cu_eqb c sep then [] :: split sep s'
      else match split sep s' with
           | p :: ps => (c :: p) :: ps
           | [] => [[c]]
           end
  end.

(** Decimal rendering of a natural number (as in a template literal). *)
Definition of_nat (n : nat) : jsstring :=
  lit (NilEmpty.string_of_uint (Nat.to_uint n)).

(* --------------------------------------------------------------------- *)
(** *** Exceptions *)

(** What a [throw] carries; the program only ever reads [error.message]. *)
Record exn := Error { message : jsstring }.

(** How a computation ends: with a value or with an exception. *)
Inductive result (A : Type) : Type :=
| Ok (a : A)
| Throw (e : exn).

Arguments Ok {A} a.
Arguments Throw {A} e.

(* --------------------------------------------------------------------- *)
(** *** Values *)

Inductive jsnum :=
| NaN
| Inf (negative : bool)
| Fin (q : Q).

(** The values [jsyaml.load] can hand back. Arrays and dates are objects. *)
Inductive jsval :=
| VUndefined
| VNull
| VBool (b : bool)
| VNumber (x : jsnum)
| VString (s : jsstring)
| VObject (props : list (jsstring * jsval)).

(** ToBoolean. *)
Definition truthy (v : jsval) : bool :=
  match v with
  | VUndefined | VNull => false
  | VBool b => b
  | VNumber NaN => false
  | VNumber (Inf _) => true
  | VNumber (Fin q) => negb (Qeq_bool q 0)
  | VString s => match s with [] => false | _ => true end
  | VObject _ => true
  end.

(** [a || b]. *)
Definition or_else (a b : jsval) : jsval := if truthy a then a else b.

Fixpoint own_property (props : list (jsstring * jsval)) (key : jsstring) : jsval :=
  match props with
  | [] => VUndefined
  | (k, v) :: rest => if jsstring_eqb k key then v else own_property rest key
  end.

(** Whether [key] is among the own property names. *)
Definition has_own_property (props : list (jsstring * jsval)) (key : jsstring) : bool :=
  existsb (fun kv => jsstring_eqb (fst kv) key) props.

(** Evaluation in sequence: an exception ends it. *)
Definition and_then {A B : Type} (r : result A) (f : A -> result B) : result B :=
  match r with
  | Ok a => f a
  | Throw e => Throw e
  end.

(** [v.key] for a key that no built-in prototype defines ([title],
    [author], [date]): a TypeError on [undefined] and [null], the own
    property of an object, [undefined] on the other primitives. *)
Definition get (v : jsval) (key : jsstring) : result jsval :=
  match v with
  | VUndefined | VNull => Throw (Error (lit "Cannot read properties of undefined"))
  | VObject props => Ok (own_property props key)
  | _ => Ok VUndefined
  end.

End JS.

(* ===================================================================== *)
(** ** Regular expressions *)
(* ===================================================================== *)

(** The backtracking matcher of ECMAScript, for the constructs the
    program's regular expressions use. Quantifiers only ever apply to a
    single character class there, which keeps the matcher structurally
    recursive. *)
Module Regex.
Import JS.

Inductive regex :=
| Chr (c : cu)                       (* a literal code unit *)
| Cls (p : cu -> bool)               (* a character class *)
| Seq (r1 r2 : regex)
| Alt (r1 r2 : regex)                (* r1|r2, left first *)
| Star (p : cu -> bool)              (* [p]*  greedy *)
| StarLazy (p : cu -> bool)          (* [p]*? lazy *)
| Group (n : nat) (r : regex)        (* the n-th capturing group *)
| Bol                                (* ^ without the m flag *)
| Eol                                (* $ without the m flag *)
| Empty.

(** The literal [s]. *)
Fixpoint Lit (s : jsstring) : regex :=
  match s with
  | [] => Empty
  | c :: s' => Seq (Chr c) (Lit s')
  end.

(** A matcher state: the index reached, the input from there on and the
    spans captured so far (latest first). *)
Record mstate := MState {
  pos : nat;
  rest : jsstring;
  caps : list (nat * (nat * nat))
}.

Definition cont := mstate -> option mstate.

(** Greedy star: take a code unit while the class allows and the rest of
    the pattern then succeeds, else stop here. *)
Fixpoint star_greedy (p : cu -> bool) (k : nat -> jsstring -> option mstate)
    (i : nat) (s : jsstring) : option mstate :=
  match s with
  | c :: s' =>
      if p c then
        match star_greedy p k (S i) s' with
        | Some m => Some m
        | None => k i s
        end
      else k i s
  | [] => k i []
  end.

(** Lazy star: stop here if the rest of the pattern succeeds, else take
    one more code unit. *)
Fixpoint star_lazy (p : cu -> bool) (k : nat -> jsstring -> option mstate)
    (i : nat) (s : jsstring) : option mstate :=
  match k i s with
  | Some m => Some m
  | None =>
      match s with
      | c :: s' => if p c then star_lazy p k (S i) s' else None
      | [] => None
      end
  end.

Fixpoint run (r : regex) (k : cont) (st : mstate) : option mstate :=
  match r with
  | Chr c =>
      match rest st with
      | d :: s' => if cu_eqb c d then k (MState (S (pos st)) s' (caps st)) else None
      | [] => None
      end
  | Cls p =>
      match rest st with
      | d :: s' => if p d then k (MState (S (pos st)) s' (caps st)) else None
      | [] => None
      end
  | Seq r1 r2 => run r1 (run r2 k) st
  | Alt r1 r2 =>
      match run r1 k st with
      | Some m => Some m
      | None => run r2 k st
      end
  | Star p => star_greedy p (fun i s => k (MState i s (caps st))) (pos st) (rest st)
  | StarLazy p => star_lazy p (fun i s => k (MState i s (caps st))) (pos st) (rest st)
  | Group n r1 =>
      run r1 (fun st' => k (MState (pos st') (rest st')
                              ((n, (pos st, pos st')) :: caps st'))) st
  | Bol => if Nat.eqb (pos st) 0 then k st else None
  | Eol => match rest st with [] => k st | _ :: _ => None end
  | Empty => k st
  end.

(** A successful match: where it starts, and the final matcher state
    (where it ends, what was captured). *)
Record found := Found {
  index : nat;
  final : mstate
}.

(** [RegExp.prototype.exec] of a regular expression without the [g] and
    [y] flags: the leftmost start index at which the pattern matches. *)
Fixpoint exec_from (r : regex) (i : nat) (s : jsstring) : option found :=
  match run r Some (MState i s []) with
  | Some m => Some (Found i m)
  | None =>
      match s with
      | [] => None
      | _ :: s' => exec_from r (S i) s'
      end
  end.

Definition exec (r : regex) (input : jsstring) : option found :=
  exec_from r 0 input.

Fixpoint capture (n : nat) (cs : list (nat * (nat * nat))) : option (nat * nat) :=
  match cs with
  | [] => None
  | (m, span) :: cs' => if Nat.eqb m n then Some span else capture n cs'
  end.

(** The array [input.match(r)] returns: entry 0 is the matched text,
    entry [n] the text of group [n]. [None] is [null]. *)
Record match_array := MatchArray {
  whole : jsstring;
  group : nat -> option jsstring
}.

Definition String_match (input : jsstring) (r : regex) : option match_array :=
  match exec r input with
  | Some f =>
      Some (MatchArray
              (substring input (index f) (pos (final f)))
              (fun n => match capture n (caps (final f)) with
                        | Some (a, b) => Some (substring input a b)
                        | None => None
                        end))
  | None => None
  end.

(** [r.test(input)]. *)
Definition test (r : regex) (input : jsstring) : bool :=
  match exec r input with
  | Some _ => true
  | None => false
  end.

(** [input.replace(r, replacement)] for [r] without the [g] flag and a
    replacement without [$] patterns: the first match is replaced. *)
Definition String_replace (input : jsstring) (r : regex) (replacement : jsstring)
  : jsstring :=
  match exec r input with
  | Some f => firstn (index f) input ++ replacement ++ skipn (pos (final f)) input
  | None => input
  end.

End Regex.

(* ===================================================================== *)
(** ** The document object model *)
(* ===================================================================== *)

Module Dom.
Import JS.

(** A DOM tree whose elements carry an identity of type [I]. What the
    HTML parser describes has no identities yet ([node unit]); the nodes a
    document owns have one ([node nid]). Of an element's attributes the
    program reads and writes only [class]. *)
Inductive node (I : Type) : Type :=
| Text (data : jsstring)
| Comment (data : jsstring)
| Elem (id : I) (localName : jsstring) (className : jsstring)
       (children : list (node I)).

Arguments Text {I} data.
Arguments Comment {I} data.
Arguments Elem {I} id localName className children.

(** The first [Some] that [f] gives along [l]. *)
Definition find_map {A B : Type} (f : A -> option B) : list A -> option B :=
  fix go (l : list A) : option B :=
    match l with
    | [] => None
    | x :: l' => match f x with Some y => Some y | None => go l' end
    end.

Section Reading.
Variable I : Type.

(** [n.textContent]: the data of the text nodes below [n], in order. *)
Fixpoint textContent (n : node I) : jsstring :=
  match n with
  | Text d => d
  | Comment _ => []
  | Elem _ _ _ ch => flat_map textContent ch
  end.

(** [n] and everything below it, in document order. *)
Fixpoint subtree (n : node I) : list (node I) :=
  n :: match n with
       | Elem _ _ _ ch => flat_map subtree ch
       | _ => []
       end.

Definition children (n : node I) : list (node I) :=
  match n with
  | Elem _ _ _ ch => ch
  | _ => []
  end.

(** [root.querySelectorAll(sel)]: the descendants of [root] that match,
    in document order; [root] itself is not among them. *)
Definition querySelectorAll (sel : node I -> bool) (root : node I) : list (node I) :=
  filter sel (flat_map subtree (children root)).

(** [el.tagName]: the local name in upper case, for the HTML elements
    the program meets. *)
Definition tagName (n : node I) : jsstring :=
  match n with
  | Elem _ name _ _ => map ascii_upper name
  | _ => []
  end.

Definition is_ascii_whitespace (c : cu) : bool :=
  (cu_eqb c 9%N || cu_eqb c 10%N || cu_eqb c 12%N || cu_eqb c 13%N
   || cu_eqb c 32%N)%bool.

(** The tokens of a [class] attribute; [cur] is the token being read,
    latest code unit first. *)
Fixpoint class_tokens (cur : jsstring) (s : jsstring) : list jsstring :=
  match s with
  | [] => match cur with [] => [] | _ => [rev cur] end
  | c :: s' =>
      if is_ascii_whitespace c
      then match cur with
           | [] => class_tokens [] s'
           | _ => rev cur :: class_tokens [] s'
           end
      else class_tokens (c :: cur) s'
  end.

(** A type selector out of a selector list such as [h1, h2, p]. *)
Definition matches_any_type (names : list jsstring) (n : node I) : bool :=
  match n with
  | Elem _ name _ _ => existsb (jsstring_eqb name) names
  | _ => false
  end.

(** The compound selector [name.cls], in a document that is not in
    quirks mode: the class is compared as it is written. *)
Definition matches_type_class (name cls : jsstring) (n : node I) : bool :=
  match n with
  | Elem _ nm cn _ =>
      (jsstring_eqb nm name && existsb (jsstring_eqb cls) (class_tokens [] cn))%bool
  | _ => false
  end.

End Reading.

(* --------------------------------------------------------------------- *)
(** *** Node identity *)

(** Which call of the parser built a node: the one for the fragment, or
    the one for the markup of the [i]-th diagram. *)
Inductive origin :=
| Fragment
| Diagram (i : nat).

(** A node is named by the parse that built it and by its place there:
    the child indices from the node up to the parse's root. *)
Definition nid : Type := origin * list nat.

Definition origin_eqb (a b : origin) : bool :=
  match a, b with
  | Fragment, Fragment => true
  | Diagram i, Diagram j => Nat.eqb i j
  | _, _ => false
  end.

Fixpoint path_eqb (p q : list nat) : bool :=
  match p, q with
  | [], [] => true
  | a :: p', b :: q' => (Nat.eqb a b && path_eqb p' q')%bool
  | _, _ => false
  end.

Definition nid_eqb (a b : nid) : bool :=
  (origin_eqb (fst a) (fst b) && path_eqb (snd a) (snd b))%bool.

(** The nodes the document creates for a parsed tree placed at [p]. *)
Fixpoint alloc (o : origin) (p : list nat) (h : node unit) : node nid :=
  match h with
  | Text d => Text d
  | Comment d => Comment d
  | Elem _ name cn ch =>
      Elem (o, p) name cn
        ((fix go (j : nat) (l : list (node unit)) : list (node nid) :=
            match l with
            | [] => []
            | x :: l' => alloc o (j :: p) x :: go (S j) l'
            end) 0 ch)
  end.

(** The children of the node at [p], numbered from [j]. *)
Fixpoint alloc_children (o : origin) (p : list nat) (j : nat)
    (l : list (node unit)) : list (node nid) :=
  match l with
  | [] => []
  | x :: l' => alloc o (j :: p) x :: alloc_children o p (S j) l'
  end.

(** Forgetting identities: what serialisation sees. *)
Fixpoint erase (n : node nid) : node unit :=
  match n with
  | Text d => Text d
  | Comment d => Comment d
  | Elem _ name cn ch => Elem tt name cn (map erase ch)
  end.

Definition has_id (x : nid) (n : node nid) : bool :=
  match n with
  | Elem i _ _ _ => nid_eqb i x
  | _ => false
  end.

Definition node_id (n : node nid) : option nid :=
  match n with
  | Elem i _ _ _ => Some i
  | _ => None
  end.

(** The element named [x] in the tree [n], if it is there. *)
Fixpoint lookup (x : nid) (n : node nid) : option (node nid) :=
  match n with
  | Elem i _ _ ch => if nid_eqb i x then Some n else find_map (lookup x) ch
  | _ => None
  end.

(** The element of the tree [n] that has [x] as a child. *)
Fixpoint parent_in (x : nid) (n : node nid) : option nid :=
  match n with
  | Elem i _ _ ch =>
      if existsb (has_id x) ch then Some i else find_map (parent_in x) ch
  | _ => None
  end.

(** The tree [n] with [new] in the place of the child named [x]. *)
Fixpoint subst (x : nid) (new : node nid) (n : node nid) : node nid :=
  match n with
  | Elem i name cn ch =>
      Elem i name cn (map (fun c => if has_id x c then new else subst x new c) ch)
  | _ => n
  end.

(** The nodes a script can reach: the tree under the container it
    created, and the subtrees that were taken out of a tree while the
    script still holds references into them. *)
Record dom := Dom {
  container : node nid;
  detached : list (node nid)
}.

Definition trees (d : dom) : list (node nid) := container d :: detached d.

(** [x.textContent] for the element named [x]. *)
Definition textContent_of (d : dom) (x : nid) : jsstring :=
  match find_map (lookup x) (trees d) with
  | Some n => textContent n
  | None => []
  end.

(** [x.parentElement]; [None] is [null]: [x] is the root of its tree. *)
Definition parentElement (d : dom) (x : nid) : option nid :=
  find_map (parent_in x) (trees d).

(** Within the first tree of [ts] that holds [x] below its root, put
    [new] in the place of [x]; the subtree taken out becomes a tree of
    its own. Where [x] is a root, or nowhere, nothing changes. *)
Fixpoint replace_in_trees (x : nid) (new : node nid) (ts : list (node nid))
  : list (node nid) :=
  match ts with
  | [] => []
  | t :: ts' =>
      match parent_in x t, lookup x t with
      | Some _, Some old => subst x new t :: ts' ++ [old]
      | _, _ => t :: replace_in_trees x new ts'
      end
  end.

(** [x.replaceWith(new)], for a node [new] that is in no tree yet. *)
Definition replaceWith (d : dom) (x : nid) (new : node nid) : dom :=
  match replace_in_trees x new (trees d) with
  | t :: ts => Dom t ts
  | [] => d
  end.

End Dom.

(* ===================================================================== *)
(** ** The application *)
(* ===================================================================== *)

Module App.
Import JS Regex Dom.

(** ['Документ'] *)
Definition PLACEHOLDER_TITLE : jsstring :=
  [1044; 1086; 1082; 1091; 1084; 1077; 1085; 1090]%N.

(** ['Автор: '] *)
Definition AUTHOR_PREFIX : jsstring :=
  [1040; 1074; 1090; 1086; 1088; 58; 32]%N.

(** ['Неподдерживаемый формат файла. Используйте .md, .markdown или .txt'] *)
Definition MSG_UNSUPPORTED_FORMAT : jsstring :=
  [1053; 1077; 1087; 1086; 1076; 1076; 1077; 1088; 1078; 1080; 1074;
   1072; 1077; 1084; 1099; 1081; 32; 1092; 1086; 1088; 1084; 1072;
   1090; 32; 1092; 1072; 1081; 1083; 1072; 46; 32; 1048; 1089; 1087;
   1086; 1083; 1100; 1079; 1091; 1081; 1090; 1077; 32; 46; 109; 100;
   44; 32; 46; 109; 97; 114; 107; 100; 111; 119; 110; 32; 1080; 1083;
   1080; 32; 46; 116; 120; 116]%N.

(** ['Файл слишком большой. Максимальный размер: 10MB'] *)
Definition MSG_FILE_TOO_LARGE : jsstring :=
  [1060; 1072; 1081; 1083; 32; 1089; 1083; 1080; 1096; 1082; 1086;
   1084; 32; 1073; 1086; 1083; 1100; 1096; 1086; 1081; 46; 32; 1052;
   1072; 1082; 1089; 1080; 1084; 1072; 1083; 1100; 1085; 1099; 1081;
   32; 1088; 1072; 1079; 1084; 1077; 1088; 58; 32; 49; 48; 77; 66]%N.

(** ['Ошибка при чтении файла: '] *)
Definition MSG_READ_ERROR_PREFIX : jsstring :=
  [1054; 1096; 1080; 1073; 1082; 1072; 32; 1087; 1088; 1080; 32; 1095;
   1090; 1077; 1085; 1080; 1080; 32; 1092; 1072; 1081; 1083; 1072; 58;
   32]%N.

(** ['Не удалось прочитать файл'] *)
Definition MSG_CANNOT_READ : jsstring :=
  [1053; 1077; 32; 1091; 1076; 1072; 1083; 1086; 1089; 1100; 32; 1087;
   1088; 1086; 1095; 1080; 1090; 1072; 1090; 1100; 32; 1092; 1072;
   1081; 1083]%N.

(* --------------------------------------------------------------------- *)
(** *** Data *)

(** A browser [File]: the program reads its name and its size in bytes,
    and hands it to a [FileReader]. *)
Record File := MkFile {
  name : jsstring;
  size : N
}.

(** The object [extractMetadata] returns. Its fields hold whatever the
    YAML gave, so they are values, not only strings. *)
Record Metadata := MkMetadata {
  title : jsval;
  author : jsval;
  date : jsval
}.

(** [{}]: every field reads as [undefined]. *)
Definition empty_metadata : Metadata := MkMetadata VUndefined VUndefined VUndefined.

(** The styled [div] that [generatePDF] builds: the style properties the
    program sets and the parts its markup template is filled with. *)
Record Container := MkContainer {
  width : jsstring;
  padding : jsstring;
  backgroundColor : jsstring;
  fontFamily : jsstring;
  color : option jsstring;
  headingColor : option jsstring;       (* set on every h1, h2, h3 *)
  titleText : jsstring;
  authorLine : option jsstring;
  dateLine : option jsstring;
  content : jsstring
}.

(** What [html2canvas] returns: pixel dimensions. The container is 800px
    wide plus padding, so the canvas is never of width zero. *)
Record Canvas := MkCanvas {
  canvas_width : positive;
  canvas_height : N
}.

(** One [addImage] call: where the image is put on the page (mm). *)
Record Placement := MkPlacement {
  img_x : Q;
  img_y : Q;
  img_w : Q;
  img_h : Q
}.

(** A jsPDF document: its pages, the current one last; each page with
    the images placed on it. *)
Record jsPDF := MkPdf {
  pages : list (list Placement)
}.

(** [new jsPDF(...)]: one empty page. *)
Definition new_jsPDF : jsPDF := MkPdf [[]].

Definition addPage (pdf : jsPDF) : jsPDF := MkPdf (pages pdf ++ [[]]).

(** [addImage] draws on the current page. *)
Definition addImage (pdf : jsPDF) (pl : Placement) : jsPDF :=
  match rev (pages pdf) with
  | cur :: before => MkPdf (rev before ++ [cur ++ [pl]])
  | [] => pdf
  end.

Definition getNumberOfPages (pdf : jsPDF) : nat := length (pages pdf).

(** Modelled from the spec: the docx library's [HeadingLevel] table is
    not under src/; the spec has heading levels 1 to 6 and a title. *)
Inductive HeadingLevel :=
| HEADING_1 | HEADING_2 | HEADING_3 | HEADING_4 | HEADING_5 | HEADING_6
| TITLE.

Record TextRun := MkTextRun {
  run_text : jsstring;
  italics : bool;
  font : option jsstring
}.

(** The options object given to [new Paragraph]. *)
Record Paragraph := MkParagraph {
  text : option jsval;
  heading : option HeadingLevel;
  runs : list TextRun
}.

Record Document := MkDocument {
  sections : list (list Paragraph)
}.

Definition Blob := list N.

Inductive artifact :=
| PdfFile (pdf : jsPDF)
| BlobFile (blob : Blob).

(** What the user is shown. *)
Inductive ui_event :=
| ShowError (msg : jsstring)
| DisplayFileInfo (f : File)
| DisplayPreview (html : jsstring).

(** Entries into the steps of the pipeline and into the libraries. *)
Inductive call :=
| CallReadFileAsText (f : File)
| CallExtractMetadata (content : jsstring)
| CallRemoveFrontMatter (content : jsstring)
| CallJsyamlLoad (src : jsstring)
| CallMdRender (src : jsstring)
| CallProcessMermaidDiagrams
| CallMermaidRender (id : jsstring) (code : jsstring)
| CallHtml2canvas (c : Container)
| CallPackerToBlob (doc : Document).

(** The libraries and the browser, as far as the program uses them. *)
Record Platform := MkPlatform {
  unicode_lower : jsstring -> jsstring;
  today : jsstring;                          (* new Date().toLocaleDateString('ru-RU') *)
  describe_number : jsnum -> jsstring;       (* Number::toString *)
  describe_object : list (jsstring * jsval) -> result jsstring;
                                             (* the toString method of the prototype *)
  readAsText : File -> option jsstring;      (* FileReader; None is onerror *)
  jsyaml_load : jsstring -> result jsval;
  md_render : jsstring -> result jsstring;
  mermaid_render : jsstring -> jsstring -> result jsstring;
  parse_html : jsstring -> list (node unit); (* assigning to innerHTML *)
  serialize_html : list (node unit) -> jsstring;  (* reading innerHTML *)
  html2canvas : Container -> result Canvas;
  Packer_toBlob : Document -> result Blob
}.

(** The module-level variables, and what the program has done to the
    world: console lines, the screen, saved files, [document.body]. *)
Record state := MkState {
  selectedFile : option File;
  markdownContent : jsstring;
  parsedHtml : jsstring;
  metadata : Metadata;
  console : list exn;
  screen : list ui_event;
  saved : list (jsstring * artifact);
  body : list Container;
  calls : list call
}.

Definition initial_state : state :=
  MkState None [] [] empty_metadata [] [] [] [] [].

(* --------------------------------------------------------------------- *)
(** *** Computations *)

(** A step of the program: it reads and writes the state and ends with a
    value or an exception. *)
Definition M (A : Type) : Type := state -> result A * state.

Definition ret {A : Type} (a : A) : M A := fun s => (Ok a, s).

Definition bind {A B : Type} (m : M A) (f : A -> M B) : M B :=
  fun s =>
    match m s with
    | (Ok a, s') => f a s'
    | (Throw e, s') => (Throw e, s')
    end.

Notation "x <- m ;; k" := (bind m (fun x => k))
  (at level 61, m at next level, right associativity).
Notation "m ;;; k" := (bind m (fun _ => k))
  (at level 61, right associativity).

Definition throw {A : Type} (e : exn) : M A := fun s => (Throw e, s).

(** A library call's outcome as a step. *)
Definition lift {A : Type} (r : result A) : M A := fun s => (r, s).

(** [try { m } catch (e) { h e }]. *)
Definition try_catch {A : Type} (m : M A) (h : exn -> M A) : M A :=
  fun s =>
    match m s with
    | (Throw e, s') => h e s'
    | other => other
    end.

(** [try { m } finally { f }]. *)
Definition try_finally {A : Type} (m : M A) (f : M unit) : M A :=
  fun s =>
    match m s with
    | (r, s') =>
        match f s' with
        | (Ok _, s'') => (r, s'')
        | (Throw e, s'') => (Throw e, s'')
        end
    end.

Definition modify (f : state -> state) : M unit := fun s => (Ok tt, f s).

Definition read {A : Type} (f : state -> A) : M A := fun s => (Ok (f s), s).

Definition set_selectedFile (v : option File) (s : state) : state :=
  MkState v (markdownContent s) (parsedHtml s) (metadata s) (console s)
          (screen s) (saved s) (body s) (calls s).

Definition set_markdownContent (v : jsstring) (s : state) : state :=
  MkState (selectedFile s) v (parsedHtml s) (metadata s) (console s)
          (screen s) (saved s) (body s) (calls s).

Definition set_parsedHtml (v : jsstring) (s : state) : state :=
  MkState (selectedFile s) (markdownContent s) v (metadata s) (console s)
          (screen s) (saved s) (body s) (calls s).

Definition set_metadata (v : Metadata) (s : state) : state :=
  MkState (selectedFile s) (markdownContent s) (parsedHtml s) v (console s)
          (screen s) (saved s) (body s) (calls s).

(** [console.warn] and [console.error]. *)
Definition log (e : exn) (s : state) : state :=
  MkState (selectedFile s) (markdownContent s) (parsedHtml s) (metadata s)
          (console s ++ [e]) (screen s) (saved s) (body s) (calls s).

Definition show (u : ui_event) (s : state) : state :=
  MkState (selectedFile s) (markdownContent s) (parsedHtml s) (metadata s)
          (console s) (screen s ++ [u]) (saved s) (body s) (calls s).

Definition save (filename : jsstring) (a : artifact) (s : state) : state :=
  MkState (selectedFile s) (markdownContent s) (parsedHtml s) (metadata s)
          (console s) (screen s) (saved s ++ [(filename, a)]) (body s) (calls s).

Definition set_body (v : list Container) (s : state) : state :=
  MkState (selectedFile s) (markdownContent s) (parsedHtml s) (metadata s)
          (console s) (screen s) (saved s) v (calls s).

Definition record (c : call) (s : state) : state :=
  MkState (selectedFile s) (markdownContent s) (parsedHtml s) (metadata s)
          (console s) (screen s) (saved s) (body s) (calls s ++ [c]).

(* --------------------------------------------------------------------- *)
(** *** Front matter *)

Definition seq_all (rs : list regex) : regex := fold_right Seq Empty rs.

(** [/^---\s*\n([\s\S]*?)\n---\s*\n/], the expression of [extractMetadata]. *)
Definition frontMatterRegex_extract : regex :=
  seq_all [Bol; Lit (lit "---"); Star is_space; Chr LF;
           Group 1 (StarLazy any_cu);
           Chr LF; Lit (lit "---"); Star is_space; Chr LF].

(** [/^---\s*\n[\s\S]*?\n---\s*\n/], the expression of [removeFrontMatter]. *)
Definition frontMatterRegex_remove : regex :=
  seq_all [Bol; Lit (lit "---"); Star is_space; Chr LF;
           StarLazy any_cu;
           Chr LF; Lit (lit "---"); Star is_space; Chr LF].

(** [/\.(md|markdown|txt)$/]. *)
Definition extensionRegex : regex :=
  seq_all [Chr DOT;
           Group 1 (Alt (Lit (lit "md")) (Alt (Lit (lit "markdown")) (Lit (lit "txt"))));
           Eol].

(** Remove YAML front matter. *)
Definition removeFrontMatter (content : jsstring) : jsstring :=
  String_replace content frontMatterRegex_remove [].

Section Program.
Variable env : Platform.

(** The object of the last [return] of [extractMetadata]. *)
Definition default_metadata (file : option File) : Metadata :=
  MkMetadata
    (VString match file with
             | Some f => String_replace (name f) extensionRegex []
             | None => PLACEHOLDER_TITLE
             end)
    (VString [])
    (VString (today env)).

(** The body of the [try] block of [extractMetadata]. *)
Definition metadata_of_yaml (src : jsstring) : M Metadata :=
  modify (record (CallJsyamlLoad src)) ;;;
  yamlData <- lift (jsyaml_load env src) ;;
  t <- lift (get yamlData (lit "title")) ;;
  a <- lift (get yamlData (lit "author")) ;;
  d <- lift (get yamlData (lit "date")) ;;
  ret (MkMetadata (or_else t (VString PLACEHOLDER_TITLE))
                  (or_else a (VString []))
                  (or_else d (VString (today env)))).

(** Extract YAML front matter. [Some] is the [return] inside the [try];
    after the [catch], and when nothing matched, control reaches the
    [return] at the end. *)
Definition extractMetadata (content : jsstring) : M Metadata :=
  modify (record (CallExtractMetadata content)) ;;;
  early <- match String_match content frontMatterRegex_extract with
           | Some m =>
               try_catch
                 (md <- metadata_of_yaml
                          match group m 1 with
                          | Some interior => interior
                          | None => lit "undefined"
                          end ;;
                  ret (Some md))
                 (fun e => modify (log e) ;;; ret None)
           | None => ret None
           end ;;
  match early with
  | Some md => ret md
  | None => file <- read selectedFile ;; ret (default_metadata file)
  end.

(* --------------------------------------------------------------------- *)
(** *** Mermaid diagrams *)

(** [code.language-mermaid] *)
Definition mermaid_selector : node nid -> bool :=
  matches_type_class (lit "code") (lit "language-mermaid").

Definition node_ids (l : list (node nid)) : list nid :=
  flat_map (fun n => match node_id n with Some i => [i] | None => [] end) l.

(** The [div] built for the [i]-th diagram. *)
Definition svgDiv (i : nat) (svg : jsstring) : node nid :=
  alloc (Diagram i) []
        (Elem tt (lit "div") (lit "mermaid-diagram") (parse_html env svg)).

(** The body of the [try] block: render, build the [div], replace the
    parent of the block. *)
Definition render_block (i : nat) (block : nid) (mermaidCode : jsstring) (d : dom)
  : M dom :=
  let id := (lit "mermaid-" ++ of_nat i)%list in
  modify (record (CallMermaidRender id mermaidCode)) ;;;
  svg <- lift (mermaid_render env id mermaidCode) ;;
  match parentElement d block with
  | Some parent => ret (replaceWith d parent (svgDiv i svg))
  | None => throw (Error (lit "Cannot read properties of null"))
  end.

(** The [for] loop over the node list, from index [i] on. *)
Fixpoint mermaid_loop (i : nat) (mermaidBlocks : list nid) (d : dom) : M dom :=
  match mermaidBlocks with
  | [] => ret d
  | block :: rest =>
      let mermaidCode := textContent_of d block in
      d' <- try_catch (render_block i block mermaidCode d)
                      (fun error => modify (log error) ;;; ret d) ;;
      mermaid_loop (S i) rest d'
  end.

(** The container [div] after [tempDiv.innerHTML = html]. *)
Definition tempDiv_of (html : jsstring) : node nid :=
  alloc Fragment [] (Elem tt (lit "div") [] (parse_html env html)).

(** Process Mermaid diagrams. *)
Definition processMermaidDiagrams : M unit :=
  modify (record CallProcessMermaidDiagrams) ;;;
  html <- read parsedHtml ;;
  let tempDiv := tempDiv_of html in
  let mermaidBlocks := querySelectorAll mermaid_selector tempDiv in
  d <- mermaid_loop 0 (node_ids mermaidBlocks) (Dom tempDiv []) ;;
  modify (set_parsedHtml (serialize_html env (map erase (children (container d))))).

(* --------------------------------------------------------------------- *)
(** *** Reading a file *)

Definition showError (msg : jsstring) : M unit := modify (show (ShowError msg)).

Definition readFileAsText (file : File) : M jsstring :=
  modify (record (CallReadFileAsText file)) ;;;
  match readAsText env file with
  | Some content => ret content
  | None => throw (Error MSG_CANNOT_READ)
  end.

Definition validExtensions : list jsstring := [lit "md"; lit "markdown"; lit "txt"].

(** [10 * 1024 * 1024] *)
Definition MAX_SIZE : N := (10 * 1024 * 1024)%N.

(** Process selected file. *)
Definition processFile (file : File) : M unit :=
  let extension := toLowerCase (unicode_lower env) (last (split DOT (name file)) []) in
  if negb (existsb (jsstring_eqb extension) validExtensions) then
    showError MSG_UNSUPPORTED_FORMAT
  else if N.ltb MAX_SIZE (size file) then
    showError MSG_FILE_TOO_LARGE
  else
    modify (set_selectedFile (Some file)) ;;;
    try_catch
      (content <- readFileAsText file ;;
       modify (set_markdownContent content) ;;;
       md <- extractMetadata content ;;
       modify (set_metadata md) ;;;
       modify (record (CallRemoveFrontMatter content)) ;;;
       let contentWithoutFrontMatter := removeFrontMatter content in
       modify (record (CallMdRender contentWithoutFrontMatter)) ;;;
       html <- lift (md_render env contentWithoutFrontMatter) ;;
       modify (set_parsedHtml html) ;;;
       processMermaidDiagrams ;;;
       modify (show (DisplayFileInfo file)) ;;;
       html' <- read parsedHtml ;;
       modify (show (DisplayPreview html')))
      (fun error => showError (MSG_READ_ERROR_PREFIX ++ message error)%list).

(* --------------------------------------------------------------------- *)
(** *** Output file names *)

Definition is_alnum (c : cu) : bool := (is_lower c || is_upper c || is_digit c)%bool.

(** [s.replace(/[^a-z0-9]/gi, '_')]: with the [g] flag every match is
    replaced, and a match is one code unit outside [a-z], [A-Z], [0-9]. *)
Definition replace_non_alnum (s : jsstring) : jsstring :=
  map (fun c => if is_alnum c then c else UNDERSCORE) s.

(** [metadata.title.replace(...)]: only a string has the method. *)
Definition title_replace (v : jsval) : result jsstring :=
  match v with
  | VString s => Ok (replace_non_alnum s)
  | _ => Throw (Error (lit "metadata.title.replace is not a function"))
  end.

(** Line 331. *)
Definition pdf_filename (v : jsval) : result jsstring :=
  match title_replace v with
  | Ok s => Ok (toLowerCase (unicode_lower env) s ++ lit ".pdf")
  | Throw e => Throw e
  end.

(** Line 407. *)
Definition docx_filename (v : jsval) : result jsstring :=
  match title_replace v with
  | Ok s => Ok (toLowerCase (unicode_lower env) s ++ lit ".docx")
  | Throw e => Throw e
  end.

(** ToString, as a template literal applies it. An object is converted
    by OrdinaryToPrimitive with the hint string: its [toString] method
    is called if it is callable, and else its [valueOf] method. No
    value that YAML loads is callable. So an object with an own
    property [toString] has no method of this name to call, [valueOf]
    (of [Object.prototype], unless it is shadowed in the same way)
    hands back the object itself, and the conversion ends in a
    TypeError. Without such a property the method is the one of the
    prototype ([Object], [Array], [Date]), which the platform describes;
    the one of an array converts the elements in turn and can throw as
    well. *)
Definition ToString (v : jsval) : result jsstring :=
  match v with
  | VString s => Ok s
  | VUndefined => Ok (lit "undefined")
  | VNull => Ok (lit "null")
  | VBool true => Ok (lit "true")
  | VBool false => Ok (lit "false")
  | VNumber x => Ok (describe_number env x)
  | VObject props =>
      if has_own_property props (lit "toString")
      then Throw (Error (lit "Cannot convert object to primitive value"))
      else describe_object env props
  end.

(* --------------------------------------------------------------------- *)
(** *** PDF *)

(** Apply style to container. *)
Definition applyStyle (c : Container) (style : jsstring) : Container :=
  if jsstring_eqb style (lit "professional") then
    MkContainer (width c) (padding c) (backgroundColor c) (lit "Georgia, serif")
                (color c) (Some (lit "#2c3e50"))
                (titleText c) (authorLine c) (dateLine c) (content c)
  else if jsstring_eqb style (lit "minimal") then
    MkContainer (width c) (padding c) (backgroundColor c)
                (lit "Helvetica, Arial, sans-serif")
                (Some (lit "#000")) (headingColor c)
                (titleText c) (authorLine c) (dateLine c) (content c)
  else c.

(** The styled container before [applyStyle]. The template literal of
    [innerHTML] converts the title, then the author and the date if
    they are truthy; a conversion that throws ends [generatePDF] before
    anything is styled or appended. *)
Definition new_container (md : Metadata) (html : jsstring) : result Container :=
  and_then (ToString (title md)) (fun titleText =>
  and_then (if truthy (author md)
            then and_then (ToString (author md)) (fun a => Ok (Some a))
            else Ok None) (fun authorLine =>
  and_then (if truthy (date md)
            then and_then (ToString (date md)) (fun d => Ok (Some d))
            else Ok None) (fun dateLine =>
  Ok (MkContainer (lit "800px") (lit "40px") (lit "white") (lit "Arial, sans-serif")
                  None None titleText authorLine dateLine html)))).

(** The [while (heightLeft >= 0)] loop, run for at most [fuel] tests of
    its condition; [None] when they do not suffice. *)
Fixpoint page_loop (fuel : nat) (imgWidth imgHeight heightLeft : Q) (pdf : jsPDF)
  : option jsPDF :=
  match fuel with
  | O => None
  | S fuel' =>
      if Qle_bool 0 heightLeft then
        let position := (heightLeft - imgHeight)%Q in
        let pdf := addPage pdf in
        let pdf := addImage pdf (MkPlacement 0 position imgWidth imgHeight) in
        page_loop fuel' imgWidth imgHeight (heightLeft - 297)%Q pdf
      else Some pdf
  end.

(** Lines 310 to 329: the document with the canvas image laid over its
    pages. The heights are rationals; where [imgHeight] is a whole
    number of millimetres, as at an exact multiple of the page height,
    the doubles of the program take the same values. Every turn of the
    loop takes 297 off [heightLeft], so more tests than [imgHeight] has
    whole millimetres are never needed. *)
Definition paginate (canvas : Canvas) : option jsPDF :=
  let pdf := new_jsPDF in
  let imgWidth := 210%Q in
  let imgHeight :=
    ((inject_Z (Z.of_N (canvas_height canvas)) * imgWidth)
       / inject_Z (Zpos (canvas_width canvas)))%Q in
  let heightLeft := imgHeight in
  let position := 0%Q in
  let pdf := addImage pdf (MkPlacement 0 position imgWidth imgHeight) in
  let heightLeft := (heightLeft - 297)%Q in
  page_loop (S (Z.to_nat (Qfloor imgHeight))) imgWidth imgHeight heightLeft pdf.

(** [document.body.removeChild(container)]: the container is the child
    appended last. *)
Definition removeChild (c : Container) (s : state) : state :=
  match rev (body s) with
  | _ :: before => set_body (rev before) s
  | [] => s
  end.

(** Generate PDF using jsPDF and html2canvas. *)
Definition generatePDF (style : jsstring) : M unit :=
  md <- read metadata ;;
  html <- read parsedHtml ;;
  container <- lift (new_container md html) ;;
  let container := applyStyle container style in
  modify (fun s => set_body (body s ++ [container]) s) ;;;
  try_finally
    (modify (record (CallHtml2canvas container)) ;;;
     canvas <- lift (html2canvas env container) ;;
     match paginate canvas with
     | Some pdf =>
         filename <- lift (pdf_filename (title md)) ;;
         modify (save filename (PdfFile pdf))
     | None => throw (Error (lit "unreachable: the loop ends"))
     end)
    (modify (removeChild container)).

(* --------------------------------------------------------------------- *)
(** *** DOCX *)

Definition digit_value (radix : Z) (c : cu) : option Z :=
  if is_digit c then Some (Z.of_N c - 48)%Z
  else if Z.eqb radix 16 then
    if in_range 97%N 102%N c then Some (Z.of_N c - 87)%Z
    else if in_range 65%N 70%N c then Some (Z.of_N c - 55)%Z
    else None
  else None.

(** The value of the longest prefix of digits; [acc] is what was read. *)
Fixpoint parse_digits (radix : Z) (acc : option Z) (s : jsstring) : option Z :=
  match s with
  | c :: s' =>
      match digit_value radix c with
      | Some d =>
          parse_digits radix
            (Some (radix * match acc with Some a => a | None => 0 end + d)%Z) s'
      | None => acc
      end
  | [] => acc
  end.

Fixpoint trim_start (s : jsstring) : jsstring :=
  match s with
  | c :: s' => if is_space c then trim_start s' else s
  | [] => []
  end.

(** [parseInt(s)] with no radix given; [None] is NaN. Values are exact
    integers here, which they are in JavaScript up to 2^53. *)
Definition parseInt (s : jsstring) : option Z :=
  let s := trim_start s in
  let (sign, s) :=
    match s with
    | c :: s' =>
        if cu_eqb c 45%N then ((-1)%Z, s')
        else if cu_eqb c 43%N then (1%Z, s')
        else (1%Z, s)
    | [] => (1%Z, s)
    end in
  let (radix, s) :=
    match s with
    | c0 :: cx :: s' =>
        if (cu_eqb c0 48%N && (cu_eqb cx 120%N || cu_eqb cx 88%N))%bool
        then (16%Z, s') else (10%Z, s)
    | _ => (10%Z, s)
    end in
  match parse_digits radix None s with
  | Some n => Some (sign * n)%Z
  | None => None
  end.

(** The number in a template literal, for NaN and for integers below
    10^21 (larger ones print with an exponent). *)
Definition number_text (n : option Z) : jsstring :=
  match n with
  | None => lit "NaN"
  | Some z => lit (NilEmpty.string_of_int (Z.to_int z))
  end.

(** Modelled from the spec: the keys of the docx library's
    [HeadingLevel] table, which is not under src/. *)
Definition HeadingLevel_table : list (jsstring * HeadingLevel) :=
  [(lit "HEADING_1", HEADING_1); (lit "HEADING_2", HEADING_2);
   (lit "HEADING_3", HEADING_3); (lit "HEADING_4", HEADING_4);
   (lit "HEADING_5", HEADING_5); (lit "HEADING_6", HEADING_6);
   (lit "TITLE", TITLE)].

(** [HeadingLevel[key]]; [None] is [undefined]. *)
Fixpoint table_get (t : list (jsstring * HeadingLevel)) (key : jsstring)
  : option HeadingLevel :=
  match t with
  | [] => None
  | (k, v) :: t' => if jsstring_eqb k key then Some v else table_get t' key
  end.

(** [h1, h2, h3, h4, h5, h6, p, pre, ul, ol] *)
Definition block_selector : node unit -> bool :=
  matches_any_type [lit "h1"; lit "h2"; lit "h3"; lit "h4"; lit "h5"; lit "h6";
                    lit "p"; lit "pre"; lit "ul"; lit "ol"].

(** The body of the [forEach]: what one element pushes onto [children]. *)
Definition paragraphs_of (el : node unit) : list Paragraph :=
  let tagName := toLowerCase (unicode_lower env) (tagName el) in
  if startsWith tagName (lit "h") then
    let level := parseInt (skipn 1 tagName) in
    [MkParagraph (Some (VString (textContent el)))
                 (Some match table_get HeadingLevel_table
                               (lit "HEADING_" ++ number_text level)%list with
                       | Some h => h
                       | None => HEADING_1
                       end)
                 []]
  else if jsstring_eqb tagName (lit "p") then
    [MkParagraph (Some (VString (textContent el))) None []]
  else if jsstring_eqb tagName (lit "pre") then
    [MkParagraph None None [MkTextRun (textContent el) false (Some (lit "Courier New"))]]
  else [].

(** The [children] array when the document is built. The template
    literal of the author line converts a truthy author; if the
    conversion throws, so does [generateDOCX], and no document is built. *)
Definition docx_children (md : Metadata) (html : jsstring) : result (list Paragraph) :=
  let tempDiv := Elem tt (lit "div") [] (parse_html env html) in
  let children := [] in
  let children :=
    if truthy (title md)
    then children ++ [MkParagraph (Some (title md)) (Some TITLE) []]
    else children in
  and_then
    (if truthy (author md)
     then and_then (ToString (author md)) (fun a =>
            Ok (children ++ [MkParagraph None None
                               [MkTextRun (AUTHOR_PREFIX ++ a) true None]]))
     else Ok children)
    (fun children =>
       let children := children ++ [MkParagraph (Some (VString [])) None []] in
       let elements := querySelectorAll block_selector tempDiv in
       Ok (fold_left (fun children el => children ++ paragraphs_of el) elements children)).

(** Generate DOCX using docx library. *)
Definition generateDOCX (style : jsstring) : M unit :=
  md <- read metadata ;;
  html <- read parsedHtml ;;
  children <- lift (docx_children md html) ;;
  let doc := MkDocument [children] in
  modify (record (CallPackerToBlob doc)) ;;;
  blob <- lift (Packer_toBlob env doc) ;;
  filename <- lift (docx_filename (title md)) ;;
  modify (save filename (BlobFile blob)).

End Program.

End App.

(* ===================================================================== *)
(** ** The page and its event handlers *)
(* ===================================================================== *)

Module Page.
Import JS Dom App.

(** ['Файл не выбран'] *)
Definition MSG_NO_FILE : jsstring :=
  [1060; 1072; 1081; 1083; 32; 1085; 1077; 32; 1074; 1099; 1073; 1088;
   1072; 1085]%N.

(** ['Генерация PDF...'] *)
Definition MSG_GENERATING_PDF : jsstring :=
  [1043; 1077; 1085; 1077; 1088; 1072; 1094; 1080; 1103; 32; 80; 68; 70;
   46; 46; 46]%N.

(** ['Генерация DOCX...'] *)
Definition MSG_GENERATING_DOCX : jsstring :=
  [1043; 1077; 1085; 1077; 1088; 1072; 1094; 1080; 1103; 32; 68; 79; 67;
   88; 46; 46; 46]%N.

(** ['Ошибка при генерации документа: '] *)
Definition MSG_CONVERSION_ERROR_PREFIX : jsstring :=
  [1054; 1096; 1080; 1073; 1082; 1072; 32; 1087; 1088; 1080; 32; 1075;
   1077; 1085; 1077; 1088; 1072; 1094; 1080; 1080; 32; 1076; 1086; 1082;
   1091; 1084; 1077; 1085; 1090; 1072; 58; 32]%N.

(* --------------------------------------------------------------------- *)
(** *** The elements of the page *)

(** The elements the script looks up in its first lines, each with the
    properties the script assigns to: [style.display], [textContent],
    [innerHTML], [value], the class list of the upload area. The page is
    taken to hold all of them, together with a radio button of value
    [pdf] among the inputs named [format] and an option [default] in the
    style select. [format_checked] is the value of the checked radio
    button, [None] when none is checked. *)
Record View := MkView {
  uploadArea_display : jsstring;
  uploadArea_classList : list jsstring;
  fileInput_value : jsstring;
  fileInfo_display : jsstring;
  fileName_textContent : jsstring;
  fileSize_textContent : jsstring;
  previewSection_display : jsstring;
  previewContent_innerHTML : jsstring;
  optionsSection_display : jsstring;
  progressSection_display : jsstring;
  progressText_textContent : jsstring;
  errorSection_display : jsstring;
  errorMessage_textContent : jsstring;
  format_checked : option jsstring;
  styleSelect_value : jsstring
}.

Definition set_uploadArea_display (x : jsstring) (v : View) : View :=
  MkView x (uploadArea_classList v) (fileInput_value v) (fileInfo_display v)
        (fileName_textContent v) (fileSize_textContent v)
        (previewSection_display v) (previewContent_innerHTML v)
        (optionsSection_display v) (progressSection_display v)
        (progressText_textContent v) (errorSection_display v)
        (errorMessage_textContent v) (format_checked v) (styleSelect_value v).

Definition set_uploadArea_classList (x : list jsstring) (v : View) : View :=
  MkView (uploadArea_display v) x (fileInput_value v) (fileInfo_display v)
        (fileName_textContent v) (fileSize_textContent v)
        (previewSection_display v) (previewContent_innerHTML v)
        (optionsSection_display v) (progressSection_display v)
        (progressText_textContent v) (errorSection_display v)
        (errorMessage_textContent v) (format_checked v) (styleSelect_value v).

Definition set_fileInput_value (x : jsstring) (v : View) : View :=
  MkView (uploadArea_display v) (uploadArea_classList v) x
        (fileInfo_display v) (fileName_textContent v) (fileSize_textContent v)
        (previewSection_display v) (previewContent_innerHTML v)
        (optionsSection_display v) (progressSection_display v)
        (progressText_textContent v) (errorSection_display v)
        (errorMessage_textContent v) (format_checked v) (styleSelect_value v).

Definition set_fileInfo_display (x : jsstring) (v : View) : View :=
  MkView (uploadArea_display v) (uploadArea_classList v) (fileInput_value v) x
        (fileName_textContent v) (fileSize_textContent v)
        (previewSection_display v) (previewContent_innerHTML v)
        (optionsSection_display v) (progressSection_display v)
        (progressText_textContent v) (errorSection_display v)
        (errorMessage_textContent v) (format_checked v) (styleSelect_value v).

Definition set_fileName_textContent (x : jsstring) (v : View) : View :=
  MkView (uploadArea_display v) (uploadArea_classList v) (fileInput_value v)
        (fileInfo_display v) x (fileSize_textContent v)
        (previewSection_display v) (previewContent_innerHTML v)
        (optionsSection_display v) (progressSection_display v)
        (progressText_textContent v) (errorSection_display v)
        (errorMessage_textContent v) (format_checked v) (styleSelect_value v).

Definition set_fileSize_textContent (x : jsstring) (v : View) : View :=
  MkView (uploadArea_display v) (uploadArea_classList v) (fileInput_value v)
        (fileInfo_display v) (fileName_textContent v) x
        (previewSection_display v) (previewContent_innerHTML v)
        (optionsSection_display v) (progressSection_display v)
        (progressText_textContent v) (errorSection_display v)
        (errorMessage_textContent v) (format_checked v) (styleSelect_value v).

Definition set_previewSection_display (x : jsstring) (v : View) : View :=
  MkView (uploadArea_display v) (uploadArea_classList v) (fileInput_value v)
        (fileInfo_display v) (fileName_textContent v) (fileSize_textContent v)
        x (previewContent_innerHTML v) (optionsSection_display v)
        (progressSection_display v) (progressText_textContent v)
        (errorSection_display v) (errorMessage_textContent v)
        (format_checked v) (styleSelect_value v).

Definition set_previewContent_innerHTML (x : jsstring) (v : View) : View :=
  MkView (uploadArea_display v) (uploadArea_classList v) (fileInput_value v)
        (fileInfo_display v) (fileName_textContent v) (fileSize_textContent v)
        (previewSection_display v) x (optionsSection_display v)
        (progressSection_display v) (progressText_textContent v)
        (errorSection_display v) (errorMessage_textContent v)
        (format_checked v) (styleSelect_value v).

Definition set_optionsSection_display (x : jsstring) (v : View) : View :=
  MkView (uploadArea_display v) (uploadArea_classList v) (fileInput_value v)
        (fileInfo_display v) (fileName_textContent v) (fileSize_textContent v)
        (previewSection_display v) (previewContent_innerHTML v) x
        (progressSection_display v) (progressText_textContent v)
        (errorSection_display v) (errorMessage_textContent v)
        (format_checked v) (styleSelect_value v).

Definition set_progressSection_display (x : jsstring) (v : View) : View :=
  MkView (uploadArea_display v) (uploadArea_classList v) (fileInput_value v)
        (fileInfo_display v) (fileName_textContent v) (fileSize_textContent v)
        (previewSection_display v) (previewContent_innerHTML v)
        (optionsSection_display v) x (progressText_textContent v)
        (errorSection_display v) (errorMessage_textContent v)
        (format_checked v) (styleSelect_value v).

Definition set_progressText_textContent (x : jsstring) (v : View) : View :=
  MkView (uploadArea_display v) (uploadArea_classList v) (fileInput_value v)
        (fileInfo_display v) (fileName_textContent v) (fileSize_textContent v)
        (previewSection_display v) (previewContent_innerHTML v)
        (optionsSection_display v) (progressSection_display v) x
        (errorSection_display v) (errorMessage_textContent v)
        (format_checked v) (styleSelect_value v).

Definition set_errorSection_display (x : jsstring) (v : View) : View :=
  MkView (uploadArea_display v) (uploadArea_classList v) (fileInput_value v)
        (fileInfo_display v) (fileName_textContent v) (fileSize_textContent v)
        (previewSection_display v) (previewContent_innerHTML v)
        (optionsSection_display v) (progressSection_display v)
        (progressText_textContent v) x (errorMessage_textContent v)
        (format_checked v) (styleSelect_value v).

Definition set_errorMessage_textContent (x : jsstring) (v : View) : View :=
  MkView (uploadArea_display v) (uploadArea_classList v) (fileInput_value v)
        (fileInfo_display v) (fileName_textContent v) (fileSize_textContent v)
        (previewSection_display v) (previewContent_innerHTML v)
        (optionsSection_display v) (progressSection_display v)
        (progressText_textContent v) (errorSection_display v) x
        (format_checked v) (styleSelect_value v).

Definition set_format_checked (x : option jsstring) (v : View) : View :=
  MkView (uploadArea_display v) (uploadArea_classList v) (fileInput_value v)
        (fileInfo_display v) (fileName_textContent v) (fileSize_textContent v)
        (previewSection_display v) (previewContent_innerHTML v)
        (optionsSection_display v) (progressSection_display v)
        (progressText_textContent v) (errorSection_display v)
        (errorMessage_textContent v) x (styleSelect_value v).

Definition set_styleSelect_value (x : jsstring) (v : View) : View :=
  MkView (uploadArea_display v) (uploadArea_classList v) (fileInput_value v)
        (fileInfo_display v) (fileName_textContent v) (fileSize_textContent v)
        (previewSection_display v) (previewContent_innerHTML v)
        (optionsSection_display v) (progressSection_display v)
        (progressText_textContent v) (errorSection_display v)
        (errorMessage_textContent v) (format_checked v) x.

(** [classList.add(token)] *)
Definition classList_add (token : jsstring) (l : list jsstring) : list jsstring :=
  if existsb (jsstring_eqb token) l then l else l ++ [token].

(** [classList.remove(token)] *)
Definition classList_remove (token : jsstring) (l : list jsstring) : list jsstring :=
  filter (fun t => negb (jsstring_eqb token t)) l.

(* --------------------------------------------------------------------- *)
(** *** Numbers on the page *)

(** [Math.round]: the nearest integer, a tie going up. *)
Definition Math_round (x : Q) : Z := Qfloor (x + (1 # 2))%Q.

(** The decimal digits of a natural number. *)
Definition of_N (n : N) : jsstring :=
  lit (NilEmpty.string_of_uint (N.to_uint n)).

(** The whole part of the binary logarithm of a positive rational: the
    difference of the bit lengths of numerator and denominator, or one
    less. *)
Definition ilog2 (x : Q) : Z :=
  let e := (Z.log2 (Qnum x) - Z.log2 (Zpos (Qden x)))%Z in
  if Qle_bool (2 ^ e) x then e else (e - 1)%Z.

(** The nearest integer, a tie going to the even one. *)
Definition round_even (y : Q) : Z :=
  let f := Qfloor y in
  match (y - inject_Z f ?= 1 # 2)%Q with
  | Lt => f
  | Gt => (f + 1)%Z
  | Eq => if Z.even f then f else (f + 1)%Z
  end.

(** The double nearest to a real number, which is what an arithmetic
    operation of JavaScript returns for the exact result: a significand
    of 53 bits, a tie going to the even significand. The exponent is
    not bounded here; the numbers of this program stay far from the
    largest double and from the subnormal ones. *)
Definition binary64 (x : Q) : Q :=
  match (x ?= 0)%Q with
  | Eq => 0%Q
  | Gt => let ulp := (2 ^ (ilog2 x - 52))%Q in
          (inject_Z (round_even (x / ulp)) * ulp)%Q
  | Lt => let ulp := (2 ^ (ilog2 (- x) - 52))%Q in
          (- (inject_Z (round_even (- x / ulp)) * ulp))%Q
  end.

(** The last [d] digits of [n], zeros included. *)
Fixpoint pad (d : nat) (n : N) : jsstring :=
  match d with
  | O => []
  | S d' => (pad d' (n / 10) ++ of_N (n mod 10))%list
  end.

(** [c] units of [10^-d] in decimal notation: the whole part, and [d]
    decimals after a point if [d] is not zero. *)
Definition fixed (d : nat) (c : N) : jsstring :=
  (of_N (c / 10 ^ N.of_nat d)
   ++ match d with
      | O => []
      | S _ => DOT :: pad d (c mod 10 ^ N.of_nat d)
      end)%list.

(** Whether the decimal of [c] units of [10^-d] denotes the double [x]. *)
Definition reads_back (x : Q) (d : nat) (c : Z) : bool :=
  Qeq_bool (binary64 (inject_Z c / inject_Z (10 ^ Z.of_nat d))) x.

(** The decimal with [d] decimals that denotes the double [x], if there
    is one: of the two that enclose [x], the nearer one first. *)
Definition decimals (x : Q) (d : nat) : option jsstring :=
  let y := (x * inject_Z (10 ^ Z.of_nat d))%Q in
  let near := Qfloor (y + (1 # 2)) in
  let far := (2 * Qfloor y + 1 - near)%Z in
  if reads_back x d near then Some (fixed d (Z.to_N near))
  else if reads_back x d far then Some (fixed d (Z.to_N far))
  else None.

(** The decimal with the fewest decimals that denotes [x], from [d]
    decimals on. Seventeen significant digits denote any double, so
    the search ends before [fuel] does. *)
Fixpoint shortest (fuel d : nat) (x : Q) : jsstring :=
  match decimals x d, fuel with
  | Some s, _ => s
  | None, S fuel' => shortest fuel' (S d) x
  | None, O => fixed d (Z.to_N (Qfloor (x * inject_Z (10 ^ Z.of_nat d) + (1 # 2))))
  end.

(** Number::toString, as string concatenation applies it, for zero and
    for a double from 0.000001 to 2^53: there the notation has no
    exponent and every digit before the point is significant, so the
    decimal with the fewest significant digits that reads back as the
    double is the one with the fewest decimals. *)
Definition Number_ToString (x : Q) : jsstring := shortest 23 0 x.

(* --------------------------------------------------------------------- *)
(** *** Handlers *)

(** The page: the variables and the world of the application, the
    elements, and the delays of the timers that wait to call [reset]. *)
Record page := MkPage {
  app_state : state;
  view : View;
  timers : list N
}.

(** A handler: it reads and writes the page and ends with a value or an
    exception. Handlers run one at a time, each to its end. *)
Definition P (A : Type) : Type := page -> result A * page.

Definition retP {A : Type} (a : A) : P A := fun p => (Ok a, p).

Definition bindP {A B : Type} (m : P A) (f : A -> P B) : P B :=
  fun p =>
    match m p with
    | (Ok a, p') => f a p'
    | (Throw e, p') => (Throw e, p')
    end.

Notation "x <-- m ;; k" := (bindP m (fun x => k))
  (at level 61, m at next level, right associativity).
Notation "m >>> k" := (bindP m (fun _ => k))
  (at level 61, right associativity).

Definition throwP {A : Type} (e : exn) : P A := fun p => (Throw e, p).

Definition try_catchP {A : Type} (m : P A) (h : exn -> P A) : P A :=
  fun p =>
    match m p with
    | (Throw e, p') => h e p'
    | other => other
    end.

Definition on_view (f : View -> View) : P unit :=
  fun p => (Ok tt, MkPage (app_state p) (f (view p)) (timers p)).

Definition read_view {A : Type} (f : View -> A) : P A :=
  fun p => (Ok (f (view p)), p).

Definition on_state (f : state -> state) : P unit :=
  fun p => (Ok tt, MkPage (f (app_state p)) (view p) (timers p)).

Definition read_state {A : Type} (f : state -> A) : P A :=
  fun p => (Ok (f (app_state p)), p).

(** [setTimeout(reset, delay)] *)
Definition setTimeout_reset (delay : N) : P unit :=
  fun p => (Ok tt, MkPage (app_state p) (view p) (timers p ++ [delay])).

Section Handlers.
Variable env : Platform.

(** [Math.floor(Math.log(bytes) / Math.log(k))] as the engine computes
    it, for [bytes] from 1 on. ECMAScript leaves the precision of
    [Math.log] to the engine. *)
Variable floor_log : N -> N -> nat.

(** Format file size. The arithmetic is that of doubles: the quotient,
    the product and the last quotient are each rounded to the nearest
    double. [bytes] is the size of a [File], a whole number below 2^53,
    and [Math.pow(k, i)] is a power of two, which is exact. *)
Definition formatFileSize (bytes : N) : jsstring :=
  if N.eqb bytes 0 then lit "0 Bytes"
  else
    let k := 1024%N in
    let sizes := [lit "Bytes"; lit "KB"; lit "MB"] in
    let i := floor_log bytes k in
    let scaled :=
      binary64 (binary64 (inject_Z (Z.of_N bytes)
                          / inject_Z (Z.of_N (k ^ N.of_nat i))) * 100)%Q in
    (Number_ToString (binary64 (inject_Z (Math_round scaled) / 100)%Q)
     ++ lit " "
     ++ match nth_error sizes i with
        | Some unit => unit
        | None => lit "undefined"
        end)%list.

(** Display file information. *)
Definition displayFileInfo (file : File) (v : View) : View :=
  let v := set_fileName_textContent (name file) v in
  let v := set_fileSize_textContent (formatFileSize (size file)) v in
  let v := set_fileInfo_display (lit "block") v in
  set_uploadArea_display (lit "none") v.

(** Display preview. *)
Definition displayPreview (html : jsstring) (v : View) : View :=
  let v := set_previewContent_innerHTML html v in
  let v := set_previewSection_display (lit "block") v in
  set_optionsSection_display (lit "block") v.

(** Show error. *)
Definition showError (message : jsstring) (v : View) : View :=
  let v := set_optionsSection_display (lit "none") v in
  let v := set_previewSection_display (lit "none") v in
  let v := set_progressSection_display (lit "none") v in
  let v := set_errorSection_display (lit "block") v in
  set_errorMessage_textContent message v.

(** What a call that the application recorded does to the elements. *)
Definition paint (v : View) (u : ui_event) : View :=
  match u with
  | ShowError msg => showError msg v
  | DisplayFileInfo f => displayFileInfo f v
  | DisplayPreview html => displayPreview html v
  end.

(** A step of the application as a step on the page: the calls it adds
    to the screen are carried out on the elements, in order. *)
Definition on_app {A : Type} (m : M A) : P A :=
  fun p =>
    match m (app_state p) with
    | (r, s) =>
        (r, MkPage s
              (fold_left paint (skipn (length (screen (app_state p))) (screen s)) (view p))
              (timers p))
    end.

(** Reset to initial state. *)
Definition reset : P unit :=
  on_state (set_selectedFile None) >>>
  on_state (set_markdownContent []) >>>
  on_state (set_parsedHtml []) >>>
  on_state (set_metadata empty_metadata) >>>
  on_view (set_fileInput_value []) >>>
  on_view (set_fileInfo_display (lit "none")) >>>
  on_view (set_previewSection_display (lit "none")) >>>
  on_view (set_optionsSection_display (lit "none")) >>>
  on_view (set_progressSection_display (lit "none")) >>>
  on_view (set_errorSection_display (lit "none")) >>>
  on_view (set_uploadArea_display (lit "block")) >>>
  on_view (set_format_checked (Some (lit "pdf"))) >>>
  on_view (set_styleSelect_value (lit "default")).

(** Handle file selection: [e.target.files]. *)
Definition handleFileSelect (files : list File) : P unit :=
  match files with
  | file :: _ => on_app (processFile env file)
  | [] => retP tt
  end.

(** Handle drag over. *)
Definition handleDragOver : P unit :=
  on_view (fun v => set_uploadArea_classList
                      (classList_add (lit "drag-over") (uploadArea_classList v)) v).

(** Handle drag leave. *)
Definition handleDragLeave : P unit :=
  on_view (fun v => set_uploadArea_classList
                      (classList_remove (lit "drag-over") (uploadArea_classList v)) v).

(** Handle drop: [e.dataTransfer.files]. *)
Definition handleDrop (files : list File) : P unit :=
  on_view (fun v => set_uploadArea_classList
                      (classList_remove (lit "drag-over") (uploadArea_classList v)) v) >>>
  match files with
  | file :: _ => on_app (processFile env file)
  | [] => retP tt
  end.

(** Remove file. *)
Definition removeFile : P unit := reset.

(** Convert and download. *)
Definition convertAndDownload : P unit :=
  file <-- read_state selectedFile ;;
  match file with
  | None => on_app (App.showError MSG_NO_FILE)
  | Some _ =>
      checked <-- read_view format_checked ;;
      match checked with
      | None => throwP (Error (lit "Cannot read properties of null"))
      | Some format =>
          style <-- read_view styleSelect_value ;;
          on_view (set_optionsSection_display (lit "none")) >>>
          on_view (set_previewSection_display (lit "none")) >>>
          on_view (set_fileInfo_display (lit "none")) >>>
          on_view (set_progressSection_display (lit "block")) >>>
          try_catchP
            ((if jsstring_eqb format (lit "pdf") then
                on_view (set_progressText_textContent MSG_GENERATING_PDF) >>>
                on_app (generatePDF env style)
              else if jsstring_eqb format (lit "docx") then
                on_view (set_progressText_textContent MSG_GENERATING_DOCX) >>>
                on_app (generateDOCX env style)
              else retP tt) >>>
             setTimeout_reset 2000)
            (fun error =>
               on_state (log error) >>>
               on_app (App.showError (MSG_CONVERSION_ERROR_PREFIX ++ message error)%list))
      end
  end.

(** What the page can be told. *)
Inductive event :=
| Change (files : list File)        (* the file input changes *)
| ClickUploadArea
| DragOver
| DragLeave
| DropFiles (files : list File)
| ClickRemoveFile
| ClickConvert
| ClickRetry
| TimerFires.                          (* the timer set first expires *)

(** Event listeners, as [setupEventListeners] registers them. A click
    on the upload area opens the file dialog, which is outside the page. *)
Definition dispatch (e : event) : P unit :=
  match e with
  | Change files => handleFileSelect files
  | ClickUploadArea => retP tt
  | DragOver => handleDragOver
  | DragLeave => handleDragLeave
  | DropFiles files => handleDrop files
  | ClickRemoveFile => removeFile
  | ClickConvert => convertAndDownload
  | ClickRetry => reset
  | TimerFires =>
      fun p =>
        match timers p with
        | _ :: waiting => reset (MkPage (app_state p) (view p) waiting)
        | [] => (Ok tt, p)
        end
  end.

(** The page after a sequence of events; an exception ends the handler
    that threw it, not the page. *)
Definition after (events : list event) (p : page) : page :=
  fold_left (fun p e => snd (dispatch e p)) events p.

End Handlers.

End Page.

(* ===================================================================== *)
(** ** What the properties speak of *)
(* ===================================================================== *)

Module Vocabulary.
Import JS Regex Dom App.

(** Where a matcher state stands, whatever it has captured. *)
Definition place (m : mstate) : nat * jsstring := (pos m, rest m).

(** The states a successful match of [r] leads from and to. *)
Fixpoint step (r : regex) (a b : mstate) : Prop :=
  match r with
  | Chr c =>
      exists d, cu_eqb c d = true /\ rest a = d :: rest b
                /\ pos b = S (pos a) /\ caps b = caps a
  | Cls p =>
      exists d, p d = true /\ rest a = d :: rest b
                /\ pos b = S (pos a) /\ caps b = caps a
  | Seq r1 r2 => exists m, step r1 a m /\ step r2 m b
  | Alt r1 r2 => step r1 a b \/ step r2 a b
  | Star p | StarLazy p =>
      exists w, forallb p w = true /\ rest a = w ++ rest b
                /\ pos b = pos a + length w /\ caps b = caps a
  | Group n r1 =>
      exists m, step r1 a m
                /\ b = MState (pos m) (rest m) ((n, (pos a, pos m)) :: caps m)
  | Bol => pos a = 0 /\ b = a
  | Eol => rest a = [] /\ b = a
  | Empty => b = a
  end.

(** The same expression without its capturing groups. *)
Fixpoint strip (r : regex) : regex :=
  match r with
  | Seq r1 r2 => Seq (strip r1) (strip r2)
  | Alt r1 r2 => Alt (strip r1) (strip r2)
  | Group _ r1 => strip r1
  | other => other
  end.

(** Where [exec] found its match: the start index and the end. *)
Definition span (f : found) : nat * (nat * jsstring) := (index f, place (final f)).

(** A delimited block: [---], white space, a line feed, the interior, a
    line feed, [---], white space, a line feed. *)
Definition block (ws1 interior ws2 : jsstring) : jsstring :=
  lit "---" ++ ws1 ++ [LF] ++ interior ++ [LF] ++ lit "---" ++ ws2 ++ [LF].

(** What the two functions see in a content: nothing, or one and the
    same block. *)
Inductive front_matter (content : jsstring) : option jsstring -> Prop :=
| NoFrontMatter :
    String_match content frontMatterRegex_extract = None ->
    test frontMatterRegex_remove content = false ->
    removeFrontMatter content = content ->
    front_matter content None
| FrontMatter ws1 interior ws2 m :
    forallb is_space ws1 = true ->
    forallb is_space ws2 = true ->
    String_match content frontMatterRegex_extract = Some m ->
    whole m = block ws1 interior ws2 ->
    group m 1 = Some interior ->
    test frontMatterRegex_remove content = true ->
    content = block ws1 interior ws2 ++ removeFrontMatter content ->
    front_matter content (Some interior).

(** What the [try] block of [extractMetadata] makes of a loaded value. *)
Definition metadata_of_value (env : Platform) (v : jsval) : result Metadata :=
  match v with
  | VUndefined | VNull => Throw (Error (lit "Cannot read properties of undefined"))
  | VObject props =>
      Ok (MkMetadata
            (or_else (own_property props (lit "title")) (VString PLACEHOLDER_TITLE))
            (or_else (own_property props (lit "author")) (VString []))
            (or_else (own_property props (lit "date")) (VString (today env))))
  | _ => Ok (MkMetadata (VString PLACEHOLDER_TITLE) (VString []) (VString (today env)))
  end.

(** The file name extensions the title default removes. *)
Definition stripped_extensions : list jsstring :=
  [lit ".md"; lit ".markdown"; lit ".txt"].

(** The object of the last [return] of [extractMetadata], spelled out:
    no author, today's date, and as title the file name without a
    trailing [.md], [.markdown] or [.txt], or the placeholder when no
    file is selected. *)
Definition defaulted (env : Platform) (file : option File) (md : Metadata) : Prop :=
  author md = VString []
  /\ date md = VString (today env)
  /\ match file with
     | None => title md = VString PLACEHOLDER_TITLE
     | Some f =>
         title md = VString (String_replace (name f) extensionRegex [])
         /\ forall stem ext,
              In ext stripped_extensions -> name f = stem ++ ext ->
              title md = VString stem
     end.

(** [imgHeight]: the canvas height scaled to the page width, in mm. *)
Definition imgHeight_of (canvas : Canvas) : Q :=
  ((inject_Z (Z.of_N (canvas_height canvas)) * 210)
     / inject_Z (Zpos (canvas_width canvas)))%Q.

(** The rule as the spec words it: the characters that are not letters
    or digits removed, the rest in lower case. *)
Definition slug_by_removal (s : jsstring) : jsstring :=
  map ascii_lower (filter is_alnum s).

(** [file.name.split('.').pop().toLowerCase()] *)
Definition extension_of (env : Platform) (file : File) : jsstring :=
  toLowerCase (unicode_lower env) (last (split DOT (name file)) []).

Definition title_block (md : Metadata) : list Paragraph :=
  if truthy (title md) then [MkParagraph (Some (title md)) (Some TITLE) []] else [].

(** The author line, for an author whose string form is [a]. *)
Definition author_line (md : Metadata) (a : jsstring) : list Paragraph :=
  if truthy (author md)
  then [MkParagraph None None [MkTextRun (AUTHOR_PREFIX ++ a) true None]]
  else [].

Definition blank_paragraph : Paragraph := MkParagraph (Some (VString [])) None [].

Definition heading_block (h : HeadingLevel) (s : jsstring) : Paragraph :=
  MkParagraph (Some (VString s)) (Some h) [].

Definition plain_block (s : jsstring) : Paragraph :=
  MkParagraph (Some (VString s)) None [].

Definition monospaced_block (s : jsstring) : Paragraph :=
  MkParagraph None None [MkTextRun s false (Some (lit "Courier New"))].

(** The heading a level stands for: its own from 1 to 6, else the first. *)
Definition heading_of_level (level : option Z) : HeadingLevel :=
  match level with
  | Some z =>
      if Z.eqb z 1 then HEADING_1 else if Z.eqb z 2 then HEADING_2
      else if Z.eqb z 3 then HEADING_3 else if Z.eqb z 4 then HEADING_4
      else if Z.eqb z 5 then HEADING_5 else if Z.eqb z 6 then HEADING_6
      else HEADING_1
  | None => HEADING_1
  end.

Definition unlit (l : jsstring) : string :=
  string_of_list_ascii (map ascii_of_N l).

(** Built by the parse of the fragment. *)
Definition fragment_id (x : nid) : bool :=
  match fst x with
  | Fragment => true
  | Diagram _ => false
  end.

(** The [div] made for a diagram: the root of the parse of its markup. *)
Definition container_id (x : nid) : bool :=
  match x with
  | (Diagram _, []) => true
  | _ => false
  end.

(** The identities of the fragment's elements in a tree. *)
Fixpoint fids (n : node nid) : list nid :=
  match n with
  | Elem i _ _ ch => (if fragment_id i then [i] else []) ++ flat_map fids ch
  | _ => []
  end.

(** A diagram block of the fragment. *)
Definition is_block (n : node nid) : bool :=
  match n with
  | Elem i _ _ _ => (fragment_id i && mermaid_selector n)%bool
  | _ => false
  end.

(** What there is to see of the materialisation in a tree, in document
    order: the diagram blocks of the fragment that are still there, and
    the containers that took the place of others. What lies inside a
    container is the renderer's business. *)
Fixpoint outline (n : node nid) : list (node nid) :=
  match n with
  | Elem i _ _ ch =>
      if fragment_id i
      then (if mermaid_selector n then [n] else []) ++ flat_map outline ch
      else if container_id i then [n] else []
  | _ => []
  end.

(** Below the parent of a diagram block there is nothing else to
    materialise, at any depth. *)
Fixpoint separate (n : node nid) : bool :=
  match n with
  | Elem i _ _ ch =>
      if fragment_id i
      then if existsb is_block ch
           then Nat.eqb (length (flat_map outline ch)) 1
           else forallb separate ch
      else true
  | _ => true
  end.

(** Every diagram block has a parent below the container, and the
    parents are [separate]. *)
Definition well_nested (root : node nid) : bool :=
  (negb (existsb is_block (children root)) && separate root)%bool.

Section Replacement.
Variable new : node nid.

(** The children of an element after [subst]. *)
Definition subst_forest (h : nid) (l : list (node nid)) : list (node nid) :=
  map (fun c => if has_id h c then new else subst h new c) l.

(** The diagram block [nb], named [b], lies in the tree [c] below its
    parent [h]; with [new] in the place of [h], [c] becomes [c'], and
    [new] shows in the outline where [nb] did. *)
Record tree_step (nb : node nid) (b h : nid) (c c' : node nid)
    (m1 m2 : list (node nid)) : Prop := TreeStep {
  ts_lookup : lookup b c = Some nb;
  ts_not_root : has_id b c = false;
  ts_parent : parent_in b c = Some h;
  ts_holder : exists H, lookup h c = Some H;
  ts_attached : has_id h c = true \/ exists g, parent_in h c = Some g;
  ts_h_frag : fragment_id h = true;
  ts_h_in : In h (fids c);
  ts_new : c' = if has_id h c then new else subst h new c;
  ts_nodup : NoDup (fids c');
  ts_incl : incl (fids c') (fids c);
  ts_separate : separate c' = true;
  ts_not_block : is_block c' = false;
  ts_outline : outline c' = m1 ++ new :: m2
}.

(** The same for a list of sibling trees. *)
Record forest_step (nb : node nid) (b h : nid) (l l' : list (node nid))
    (l1 l2 : list (node nid)) : Prop := ForestStep {
  fs_lookup : find_map (lookup b) l = Some nb;
  fs_not_root : existsb (has_id b) l = false;
  fs_parent : find_map (parent_in b) l = Some h;
  fs_holder : exists H, find_map (lookup h) l = Some H;
  fs_attached : existsb (has_id h) l = true
                \/ exists g, find_map (parent_in h) l = Some g;
  fs_h_frag : fragment_id h = true;
  fs_h_in : In h (flat_map fids l);
  fs_b_in : In b (flat_map fids l);
  fs_new : l' = subst_forest h l;
  fs_nodup : NoDup (flat_map fids l');
  fs_incl : incl (flat_map fids l') (flat_map fids l);
  fs_separate : forallb separate l' = true;
  fs_no_block : existsb is_block l' = false;
  fs_outline : flat_map outline l' = l1 ++ new :: l2
}.

End Replacement.

(** A tree the loop can work on: its root is an element of the
    fragment that is no diagram block, its elements have distinct names
    and its diagram blocks are well nested. *)
Definition tree_ok (t : node nid) : Prop :=
  exists i name cn ch,
    t = Elem i name cn ch /\ fragment_id i = true
    /\ mermaid_selector t = false /\ NoDup (fids t) /\ well_nested t = true.

(** What the loop leaves in the place of the [i]-th diagram block: the
    container with the rendering, or the block itself when the
    renderer threw. *)
Definition materialised (env : Platform) (i : nat) (nb : node nid) : node nid :=
  match mermaid_render env (lit "mermaid-" ++ of_nat i) (textContent nb) with
  | Ok svg => svgDiv env i svg
  | Throw _ => nb
  end.

Fixpoint materialised_from (env : Platform) (i : nat) (l : list (node nid))
  : list (node nid) :=
  match l with
  | [] => []
  | nb :: l' => materialised env i nb :: materialised_from env (S i) l'
  end.

(** A container built by the loop. *)
Definition is_container (n : node nid) : bool :=
  match n with
  | Elem i _ _ _ => container_id i
  | _ => false
  end.

(** The identifier given to the renderer for the [i]-th block. *)
Definition diagram_id (i : nat) : jsstring := lit "mermaid-" ++ of_nat i.

(** The diagram blocks [processMermaidDiagrams] finds in the current
    [parsedHtml], in document order. *)
Definition diagram_blocks (env : Platform) (st : state) : list (node nid) :=
  querySelectorAll mermaid_selector (tempDiv_of env (parsedHtml st)).

(** The [k]-th call of the renderer, counting from 1, throws; the
    others return. *)
Definition only_fails (env : Platform) (k : nat) (blocks : list (node nid)) : Prop :=
  forall i nb,
    nth_error blocks i = Some nb ->
    if Nat.eqb (S i) k
    then exists e, mermaid_render env (diagram_id i) (textContent nb) = Throw e
    else exists svg, mermaid_render env (diagram_id i) (textContent nb) = Ok svg.

(* --------------------------------------------------------------------- *)
(** *** The pipeline *)

(** The second state differs from the first at most in the console and
    in the calls recorded. *)
Definition quiet (st st' : state) : Prop :=
  selectedFile st' = selectedFile st
  /\ markdownContent st' = markdownContent st
  /\ parsedHtml st' = parsedHtml st
  /\ metadata st' = metadata st
  /\ screen st' = screen st
  /\ saved st' = saved st
  /\ body st' = body st.

(** The calls of the renderer for blocks of the given codes, numbered
    from [i]. *)
Fixpoint render_calls (i : nat) (codes : list jsstring) : list call :=
  match codes with
  | [] => []
  | code :: codes' => CallMermaidRender (diagram_id i) code :: render_calls (S i) codes'
  end.

(** The extension passes the check of [processFile]. *)
Definition accepted (env : Platform) (file : File) : bool :=
  existsb (jsstring_eqb (extension_of env file)) validExtensions.


(** The exceptions of the renderer on the blocks [l], numbered from [i]. *)
Fixpoint warnings_from (env : Platform) (i : nat) (l : list (node nid)) : list exn :=
  match l with
  | [] => []
  | nb :: l' =>
      match mermaid_render env (diagram_id i) (textContent nb) with
      | Ok _ => []
      | Throw e => [e]
      end ++ warnings_from env (S i) l'
  end.

(* --------------------------------------------------------------------- *)
(** *** The output documents *)

(** A page that holds the image once, across the page width and moved
    up by [j] page heights. *)
Definition shows_from (imgHeight : Q) (j : nat) (page : list Placement) : Prop :=
  exists pl,
    page = [pl]
    /\ (img_x pl == 0)%Q
    /\ (img_y pl == - (297 * inject_Z (Z.of_nat j)))%Q
    /\ (img_w pl == 210)%Q
    /\ (img_h pl == imgHeight)%Q.

(** The stem of the output file names: the title with its letters in
    lower case and an underscore for whatever is no letter or digit. *)
Definition stem_of (s : jsstring) : jsstring :=
  map (fun c => if is_alnum c then ascii_lower c else UNDERSCORE) s.

(** The container [generatePDF] hands to [html2canvas], if its template
    can be filled. *)
Definition container_of (env : Platform) (st : state) (style : jsstring)
  : result Container :=
  and_then (new_container env (metadata st) (parsedHtml st))
           (fun container => Ok (applyStyle container style)).

(** The document [generateDOCX] hands to [Packer.toBlob], if its blocks
    can be built. *)
Definition document_of (env : Platform) (st : state) : result Document :=
  and_then (docx_children env (metadata st) (parsedHtml st))
           (fun children => Ok (MkDocument [children])).

(** [h1, h2, h3, h4, h5, h6, p, pre]: the elements of the selector list
    for which [generateDOCX] has a branch. *)
Definition convertible : node unit -> bool :=
  matches_any_type [lit "h1"; lit "h2"; lit "h3"; lit "h4"; lit "h5"; lit "h6";
                    lit "p"; lit "pre"].

(** The heading level a tag name stands for. *)
Definition heading_of_tag (name : jsstring) : HeadingLevel :=
  if jsstring_eqb name (lit "h2") then HEADING_2
  else if jsstring_eqb name (lit "h3") then HEADING_3
  else if jsstring_eqb name (lit "h4") then HEADING_4
  else if jsstring_eqb name (lit "h5") then HEADING_5
  else if jsstring_eqb name (lit "h6") then HEADING_6
  else HEADING_1.

(** The one block a convertible element gives. *)
Definition block_for (el : node unit) : Paragraph :=
  match el with
  | Elem _ name _ _ =>
      if jsstring_eqb name (lit "p") then plain_block (textContent el)
      else if jsstring_eqb name (lit "pre") then monospaced_block (textContent el)
      else heading_block (heading_of_tag name) (textContent el)
  | _ => blank_paragraph
  end.

(** The value is a string. *)
Definition is_text (v : jsval) : bool :=
  match v with
  | VString _ => true
  | _ => false
  end.

(* --------------------------------------------------------------------- *)
(** *** Names and front matter in their plain form *)

(** [s.includes(needle)] *)
Fixpoint includes (s needle : jsstring) : bool :=
  (startsWith s needle
   || match s with
      | [] => false
      | _ :: s' => includes s' needle
      end)%bool.

(** The string begins with a code unit that is no white space. *)
Definition begins_with_text (s : jsstring) : bool :=
  match s with
  | c :: _ => negb (is_space c)
  | [] => false
  end.

(** The string does not begin with white space; it may be empty. *)
Definition no_leading_space (s : jsstring) : bool :=
  match s with
  | c :: _ => negb (is_space c)
  | [] => true
  end.

(** No dot in the string. *)
Definition dotless (s : jsstring) : bool := forallb (fun c => negb (cu_eqb c DOT)) s.

(** [s.endsWith(suffix)] *)
Definition endsWith (s suffix : jsstring) : bool := startsWith (rev s) (rev suffix).

End Vocabulary.

(** What the properties of the page speak of. *)
Module PageVocabulary.
Import JS Dom App Page Vocabulary.

(** The whole part of the logarithm of [bytes] to the base 1024. *)
Definition log1024 (bytes : N) : nat := N.to_nat (N.log2 bytes / 10).

(** [r] hundredths in decimal: the whole part, then the decimals up to
    the last that is not zero. *)
Definition hundredths (r : N) : jsstring :=
  (of_N (r / 100)
   ++ if N.eqb (r mod 100) 0 then []
      else DOT :: of_N (r mod 100 / 10)
           ++ if N.eqb ((r mod 100) mod 10) 0 then [] else of_N ((r mod 100) mod 10))%list.

(** [sizes[i]] in a string concatenation. *)
Definition unit_name (i : nat) : jsstring :=
  match nth_error [lit "Bytes"; lit "KB"; lit "MB"] i with
  | Some unit => unit
  | None => lit "undefined"
  end.

(** The generator [convertAndDownload] runs for a format. *)
Definition generator (env : Platform) (format style : jsstring) : M unit :=
  if jsstring_eqb format (lit "pdf") then generatePDF env style
  else if jsstring_eqb format (lit "docx") then generateDOCX env style
  else ret tt.

(** The events whose handler is [reset]. *)
Definition resets (e : event) : bool :=
  match e with
  | ClickRemoveFile | ClickRetry | TimerFires => true
  | _ => false
  end.

(** The events whose handler is [convertAndDownload]. *)
Definition converts (e : event) : bool :=
  match e with
  | ClickConvert => true
  | _ => false
  end.

End PageVocabulary.

(* ===================================================================== *)
(** ** Sample inputs *)
(* ===================================================================== *)

Module Samples.
Import JS Regex Dom App.

(** Three lines that delimit nothing, twice, and then a body. *)
Definition two_blocks : jsstring :=
  lit "---" ++ [LF] ++ lit "a: 1" ++ [LF] ++ lit "---" ++ [LF]
  ++ lit "---" ++ [LF] ++ lit "b: 2" ++ [LF] ++ lit "---" ++ [LF]
  ++ lit "text".

(** A document with a title in its front matter. *)
Definition titled_document : jsstring :=
  lit "---" ++ [LF] ++ lit "title: X" ++ [LF] ++ lit "---" ++ [LF] ++ lit "# Heading".

(** A document whose front matter is a bare word. *)
Definition scalar_document : jsstring :=
  lit "---" ++ [LF] ++ lit "hello" ++ [LF] ++ lit "---" ++ [LF] ++ lit "text".

(** A document whose front matter is empty. *)
Definition empty_front_matter_document : jsstring :=
  lit "---" ++ [LF] ++ [LF] ++ lit "---" ++ [LF] ++ lit "text".

(** A platform on which YAML loads a bare word as a string, the empty
    document as [undefined], and anything else as a mapping with a title. *)
Definition sample_yaml (src : jsstring) : result jsval :=
  if jsstring_eqb src (lit "hello") then Ok (VString (lit "hello"))
  else if jsstring_eqb src [] then Ok VUndefined
  else if jsstring_eqb src (lit "a: [") then Throw (Error (lit "unexpected end of the stream"))
  else Ok (VObject [(lit "title", VString (lit "X"))]).

(** Number::toString on the samples, which hold whole numbers only. *)
Definition sample_number (x : jsnum) : jsstring :=
  match x with
  | NaN => lit "NaN"
  | Inf false => lit "Infinity"
  | Inf true => lit "-Infinity"
  | Fin q => lit (NilEmpty.string_of_int (Z.to_int (Qfloor q)))
  end.

Definition sample_platform : Platform :=
  MkPlatform
    (fun s => s)
    (lit "02.11.2026")
    sample_number
    (fun _ => Ok (lit "[object Object]"))
    (fun _ => Some titled_document)
    sample_yaml
    (fun src => Ok src)
    (fun id code => Ok (lit "<svg></svg>"))
    (fun _ => [])
    (fun _ => [])
    (fun _ => Ok (MkCanvas 1760 17424))
    (fun _ => Ok []).

Definition notes_md : File := MkFile (lit "notes.md") 120.

Definition with_file (f : File) : state := set_selectedFile (Some f) initial_state.


(** A file of one byte over the limit whose name ends in [.pdf]. *)
Definition big_pdf : File := MkFile (lit "big.pdf") 10485761.

(** A markdown file of one byte over the limit. *)
Definition big_md : File := MkFile (lit "BIG.MD") 10485761.

(** The fragment of a heading, a paragraph and a fenced code block. *)
Definition three_blocks : list (node unit) :=
  [Elem tt (lit "h1") [] [Text (lit "Title")];
   Text [LF];
   Elem tt (lit "p") [] [Text (lit "plain "); Elem tt (lit "em") [] [Text (lit "paragraph")]];
   Text [LF];
   Elem tt (lit "pre") (lit "hljs") [Elem tt (lit "code") [] [Text (lit "x = 1")]]].

(** Metadata with a title and an author. *)
Definition report_metadata : Metadata :=
  MkMetadata (VString (lit "Report")) (VString (lit "Ann")) (VString (lit "02.11.2026")).

(** Metadata whose author is a mapping with a key [toString], as the
    front matter line [author: {toString: 1}] loads. *)
Definition mapping_author_metadata : Metadata :=
  MkMetadata (VString (lit "Report"))
             (VObject [(lit "toString", VNumber (Fin 1))])
             (VString (lit "02.11.2026")).

Definition docx_platform : Platform :=
  MkPlatform (fun s => s) (lit "02.11.2026")
             sample_number (fun _ => Ok (lit "[object Object]"))
             (fun _ => None) (fun _ => Ok VUndefined) (fun src => Ok src)
             (fun _ _ => Ok []) (fun _ => three_blocks) (fun _ => [])
             (fun _ => Ok (MkCanvas 1760 17424)) (fun _ => Ok []).

Definition mermaid_block (code : string) : node unit :=
  Elem tt (lit "code") (lit "language-mermaid") [Text (lit code)].

Definition pre (l : list (node unit)) : node unit := Elem tt (lit "pre") [] l.

(** Two diagram blocks in one [pre]. *)
Definition shared_parent : list (node unit) :=
  [pre [mermaid_block "graph TD"; mermaid_block "oops"]].

(** Three fences, the second of them in a quotation, and a paragraph. *)
Definition three_fences : list (node unit) :=
  [pre [mermaid_block "graph TD"];
   Elem tt (lit "p") [] [Text (lit "text")];
   Elem tt (lit "blockquote") [] [pre [mermaid_block "oops"]];
   pre [mermaid_block "graph LR"]].

(** A serialiser for the samples: tags, the class and the text. *)
Fixpoint sample_serialize (n : node unit) : jsstring :=
  match n with
  | Text d => d
  | Comment d => lit "<!--" ++ d ++ lit "-->"
  | Elem _ name cn ch =>
      lit "<" ++ name
      ++ match cn with [] => [] | _ => lit " class=" ++ cn end
      ++ lit ">" ++ flat_map sample_serialize ch ++ lit "</" ++ name ++ lit ">"
  end.

(** A platform that parses [parsedHtml] to [fragment], whose renderer
    throws on the code [oops] and draws anything else. *)
Definition diagram_platform (fragment : list (node unit)) : Platform :=
  MkPlatform (fun s => s) (lit "02.11.2026")
             sample_number (fun _ => Ok (lit "[object Object]"))
             (fun _ => None) (fun _ => Ok VUndefined) (fun src => Ok src)
             (fun id code =>
                if jsstring_eqb code (lit "oops")
                then Throw (Error (lit "Parse error on line 1"))
                else Ok (lit "svg"))
             (fun s => if jsstring_eqb s (lit "svg") then [Elem tt (lit "svg") [] []]
                       else fragment)
             (flat_map sample_serialize)
             (fun _ => Ok (MkCanvas 1760 17424)) (fun _ => Ok []).

Definition shared_parent_platform : Platform := diagram_platform shared_parent.

Definition three_fences_platform : Platform := diagram_platform three_fences.


(** A canvas whose scaled height is 525 mm. *)
Definition two_pages : Canvas := MkCanvas 1600 4000.

(** A file written on Windows, with two lines of front matter and a
    blank line before the body. *)
Definition windows_document : jsstring :=
  Vocabulary.block [13%N] (lit "title: X" ++ [13%N; LF] ++ lit "author: Ann" ++ [13%N])
        [13%N; LF; 13%N]
  ++ lit "# Heading".

(** A markdown file named in capitals. *)
Definition NOTES_MD : File := MkFile (lit "NOTES.MD") 120.

(** A document whose title is a year. *)
Definition year_document : jsstring :=
  Vocabulary.block [] (lit "title: 2024") [] ++ lit "text".

(** A platform on which YAML loads the title of [year_document] as a
    number. *)
Definition year_platform : Platform :=
  MkPlatform (fun s => s) (lit "02.11.2026")
             sample_number (fun _ => Ok (lit "[object Object]"))
             (fun _ => Some year_document)
             (fun _ => Ok (VObject [(lit "title", VNumber (Fin 2024))]))
             (fun src => Ok src)
             (fun _ _ => Ok []) (fun _ => []) (fun _ => [])
             (fun _ => Ok (MkCanvas 1760 17424)) (fun _ => Ok []).

End Samples.

(** Sample pages. *)
Module PageSamples.
Import JS Dom App Page Vocabulary PageVocabulary Samples.

(** An engine whose logarithms are exact. *)
Definition exact_floor_log (bytes k : N) : nat := N.to_nat (N.log2 bytes / N.log2 k).

(** A page as the browser might first show it: nothing hidden by the
    script yet, the PDF format checked. *)
Definition fresh_view : View :=
  MkView [] [] [] [] [] [] [] [] [] [] [] [] [] (Some (lit "pdf")) (lit "default").

Definition fresh_page : page := MkPage initial_state fresh_view [].

(** The page on which an error is shown. *)
Definition error_page : page :=
  MkPage initial_state (showError (lit "oops") fresh_view) [].

(** The page after [notes.md] has been processed. *)
Definition loaded_page : page :=
  MkPage (set_metadata report_metadata (set_selectedFile (Some notes_md) initial_state))
         fresh_view [].

End PageSamples.

(* ===================================================================== *)
(** * Properties *)
(* ===================================================================== *)

(** ** What a match is *)

Module RegexFacts.
Import JS Regex Vocabulary Samples.

Lemma star_greedy_sound p k : forall s i m,
  star_greedy p k i s = Some m ->
  exists w s', forallb p w = true /\ s = w ++ s' /\ k (i + length w) s' = Some m.
Proof.
  induction s as [|c s IH]; intros i m H; simpl in H.
  - exists [], []. simpl. rewrite Nat.add_0_r. auto.
  - destruct (p c) eqn:Hp.
    + destruct (star_greedy p k (S i) s) as [m'|] eqn:Hrec.
      * inversion H; subst m'. destruct (IH _ _ Hrec) as (w & s' & Hw & Hs & Hk).
        exists (c :: w), s'. simpl. rewrite Hp, Hw. subst s.
        rewrite Nat.add_succ_r. auto.
      * exists [], (c :: s). simpl. rewrite Nat.add_0_r. auto.
    + exists [], (c :: s). simpl. rewrite Nat.add_0_r. auto.
Qed.

Lemma star_lazy_sound p k : forall s i m,
  star_lazy p k i s = Some m ->
  exists w s', forallb p w = true /\ s = w ++ s' /\ k (i + length w) s' = Some m.
Proof.
  induction s as [|c s IH]; intros i m H; simpl in H.
  - destruct (k i []) as [m'|] eqn:Hk; [|discriminate].
    exists [], []. simpl. rewrite Nat.add_0_r. rewrite Hk. auto.
  - destruct (k i (c :: s)) as [m'|] eqn:Hk.
    + exists [], (c :: s). simpl. rewrite Nat.add_0_r, Hk. auto.
    + destruct (p c) eqn:Hp; [|discriminate].
      destruct (IH _ _ H) as (w & s' & Hw & Hs & Hk').
      exists (c :: w), s'. simpl. rewrite Hp, Hw. subst s.
      rewrite Nat.add_succ_r. auto.
Qed.

(** The matcher only succeeds through a match. *)
Lemma run_sound : forall r k a m,
  run r k a = Some m -> exists b, step r a b /\ k b = Some m.
Proof.
  induction r as [c|p|r1 IH1 r2 IH2|r1 IH1 r2 IH2|p|p|n r1 IH1| | |];
    intros k a m H; simpl in H.
  - destruct (rest a) as [|d s] eqn:Hr; [discriminate|].
    destruct (cu_eqb c d) eqn:Hc; [|discriminate].
    eexists. split; [|exact H]. simpl. exists d. auto.
  - destruct (rest a) as [|d s] eqn:Hr; [discriminate|].
    destruct (p d) eqn:Hc; [|discriminate].
    eexists. split; [|exact H]. simpl. exists d. auto.
  - destruct (IH1 _ _ _ H) as (b1 & S1 & H1).
    destruct (IH2 _ _ _ H1) as (b2 & S2 & H2).
    exists b2. split; [|exact H2]. simpl. exists b1. auto.
  - destruct (run r1 k a) as [m'|] eqn:H1.
    + inversion H; subst m'. destruct (IH1 _ _ _ H1) as (b & S1 & Hk).
      exists b. simpl. auto.
    + destruct (IH2 _ _ _ H) as (b & S2 & Hk). exists b. simpl. auto.
  - destruct (star_greedy_sound _ _ _ _ H) as (w & s' & Hw & Hs & Hk).
    eexists. split; [|exact Hk]. simpl. exists w. auto.
  - destruct (star_lazy_sound _ _ _ _ H) as (w & s' & Hw & Hs & Hk).
    eexists. split; [|exact Hk]. simpl. exists w. auto.
  - destruct (IH1 _ _ _ H) as (b & S1 & Hk).
    eexists. split; [|exact Hk]. simpl. exists b. auto.
  - destruct (Nat.eqb (pos a) 0) eqn:Hp; [|discriminate].
    exists a. simpl. apply Nat.eqb_eq in Hp. auto.
  - destruct (rest a) eqn:Hr; [|discriminate]. exists a. simpl. auto.
  - exists a. simpl. auto.
Qed.

(** A match consumes a prefix of what was left. *)
Lemma step_consumes : forall r a b,
  step r a b -> exists w, rest a = w ++ rest b /\ pos b = pos a + length w.
Proof.
  induction r as [c|p|r1 IH1 r2 IH2|r1 IH1 r2 IH2|p|p|n r1 IH1| | |];
    intros a b H; simpl in H.
  - destruct H as (d & _ & Hr & Hp & _). exists [d]. simpl. split; [auto|lia].
  - destruct H as (d & _ & Hr & Hp & _). exists [d]. simpl. split; [auto|lia].
  - destruct H as (m & H1 & H2).
    destruct (IH1 _ _ H1) as (w1 & Hr1 & Hp1).
    destruct (IH2 _ _ H2) as (w2 & Hr2 & Hp2).
    exists (w1 ++ w2). rewrite <- app_assoc, <- Hr2, length_app. split; [auto|lia].
  - destruct H as [H|H]; eauto.
  - destruct H as (w & _ & Hr & Hp & _). eauto.
  - destruct H as (w & _ & Hr & Hp & _). eauto.
  - destruct H as (m & H1 & ->). simpl. eauto.
  - destruct H as (_ & ->). exists []. simpl. split; [auto|lia].
  - destruct H as (_ & ->). exists []. simpl. split; [auto|lia].
  - subst b. exists []. simpl. split; [auto|lia].
Qed.

Lemma star_greedy_strip p k k' :
  (forall i s, option_map place (k i s) = option_map place (k' i s)) ->
  forall s i,
    option_map place (star_greedy p k i s) = option_map place (star_greedy p k' i s).
Proof.
  intros Hk. induction s as [|c s IH]; intros i; simpl; [apply Hk|].
  destruct (p c); [|apply Hk].
  specialize (IH (S i)).
  destruct (star_greedy p k (S i) s), (star_greedy p k' (S i) s);
    simpl in IH; try discriminate; auto.
Qed.

Lemma star_lazy_strip p k k' :
  (forall i s, option_map place (k i s) = option_map place (k' i s)) ->
  forall s i,
    option_map place (star_lazy p k i s) = option_map place (star_lazy p k' i s).
Proof.
  intros Hk. induction s as [|c s IH]; intros i; simpl.
  - specialize (Hk i []). destruct (k i []), (k' i []); simpl in Hk; try discriminate; auto.
  - pose proof (Hk i (c :: s)) as H0.
    destruct (k i (c :: s)), (k' i (c :: s)); simpl in H0; try discriminate; auto.
    destruct (p c); auto.
Qed.

(** Capturing groups do not change where an expression matches. *)
Lemma run_strip : forall r k k' a a',
  place a = place a' ->
  (forall b b', place b = place b' -> option_map place (k b) = option_map place (k' b')) ->
  option_map place (run r k a) = option_map place (run (strip r) k' a').
Proof.
  induction r as [c|p|r1 IH1 r2 IH2|r1 IH1 r2 IH2|p|p|n r1 IH1| | |];
    intros k k' a a' Ha Hk; simpl;
    assert (Hpos : pos a = pos a') by (unfold place in Ha; congruence);
    assert (Hrest : rest a = rest a') by (unfold place in Ha; congruence).
  - rewrite <- Hrest. destruct (rest a) as [|d s]; auto.
    destruct (cu_eqb c d); auto. apply Hk. unfold place. simpl. congruence.
  - rewrite <- Hrest. destruct (rest a) as [|d s]; auto.
    destruct (p d); auto. apply Hk. unfold place. simpl. congruence.
  - apply IH1; [exact Ha|]. intros b b' Hb. apply IH2; auto.
  - pose proof (IH1 k k' a a' Ha Hk) as E1.
    destruct (run r1 k a), (run (strip r1) k' a'); simpl in E1; try discriminate; auto.
  - rewrite <- Hrest, <- Hpos. apply star_greedy_strip. intros i s. apply Hk. reflexivity.
  - rewrite <- Hrest, <- Hpos. apply star_lazy_strip. intros i s. apply Hk. reflexivity.
  - apply IH1; [exact Ha|]. intros b b' Hb. apply Hk.
    unfold place in *. simpl. exact Hb.
  - rewrite <- Hpos. destruct (Nat.eqb (pos a) 0); auto.
  - rewrite <- Hrest. destruct (rest a); auto.
  - auto.
Qed.

Lemma exec_from_strip r : forall s i,
  option_map span (exec_from r i s) = option_map span (exec_from (strip r) i s).
Proof.
  induction s as [|c s IH]; intros i; simpl.
  - pose proof (@run_strip r Some Some (MState i [] []) (MState i [] []) eq_refl) as E.
    simpl in E. specialize (E (fun b b' H => f_equal Some H)).
    destruct (run r Some (MState i [] [])), (run (strip r) Some (MState i [] []));
      simpl in E; try discriminate; auto.
    unfold span; simpl. congruence.
  - pose proof (@run_strip r Some Some (MState i (c :: s) []) (MState i (c :: s) []) eq_refl) as E.
    simpl in E. specialize (E (fun b b' H => f_equal Some H)).
    destruct (run r Some (MState i (c :: s) [])),
             (run (strip r) Some (MState i (c :: s) []));
      simpl in E; try discriminate; auto.
    unfold span; simpl. congruence.
Qed.

(** [exec] reports a match of the expression from the index it gives. *)
Lemma exec_from_sound r : forall s i f,
  exec_from r i s = Some f ->
  exists k, index f = i + k /\ k <= length s
            /\ step r (MState (index f) (skipn k s) []) (final f).
Proof.
  induction s as [|c s IH]; intros i f H; simpl in H.
  - destruct (run r Some (MState i [] [])) as [m|] eqn:Hr; [|discriminate].
    inversion H; subst f. simpl. exists 0. rewrite Nat.add_0_r.
    destruct (run_sound _ _ _ Hr) as (b & Hs & Hb). inversion Hb; subst b.
    simpl. auto.
  - destruct (run r Some (MState i (c :: s) [])) as [m|] eqn:Hr.
    + inversion H; subst f. simpl. exists 0. rewrite Nat.add_0_r.
      destruct (run_sound _ _ _ Hr) as (b & Hs & Hb). inversion Hb; subst b.
      simpl. split; [auto|split; [lia|auto]].
    + destruct (IH _ _ H) as (k & Hi & Hk & Hs).
      exists (S k). simpl. split; [lia|split; [lia|auto]].
Qed.

End RegexFacts.

(** ** Front matter: where the block is *)

Module FrontMatterFacts.
Import JS Regex RegexFacts App Vocabulary Samples.

Ltac break :=
  repeat match goal with
         | H : exists _, _ |- _ => destruct H
         | H : _ /\ _ |- _ => destruct H
         end.

Ltac open_states :=
  repeat match goal with
         | f : found |- _ => destruct f
         | x : mstate |- _ => destruct x
         end;
  cbn [pos rest caps index final] in *.

Ltac list_arith :=
  simpl; repeat (progress (repeat rewrite length_app; simpl)); lia.

Lemma cu_eqb_eq a b : cu_eqb a b = true -> a = b.
Proof. apply N.eqb_eq. Qed.

Local Arguments cu_eqb : simpl never.

(** A match of the expression of [extractMetadata] starts at index 0,
    spans a delimited block, and its group 1 is the interior. *)
Lemma front_matter_shape content f :
  exec frontMatterRegex_extract content = Some f ->
  exists ws1 interior ws2,
    forallb is_space ws1 = true /\ forallb is_space ws2 = true
    /\ content = block ws1 interior ws2 ++ rest (final f)
    /\ index f = 0
    /\ pos (final f) = length (block ws1 interior ws2)
    /\ caps (final f) = [(1, (length (lit "---" ++ ws1 ++ [LF]),
                              length (lit "---" ++ ws1 ++ [LF]) + length interior))].
Proof.
  intros H. apply exec_from_sound in H. destruct H as (k & Hi & Hk & Hs).
  simpl in Hs. break.
  repeat match goal with H : cu_eqb _ _ = true |- _ => apply cu_eqb_eq in H end.
  open_states. subst.
  assert (k = 0) by lia. subst k. cbn [skipn] in *.
  repeat match goal with
         | H : MState _ _ _ = MState _ _ _ |- _ => injection H as ? ? ?
         end.
  subst. cbn [Nat.add] in *.
  match goal with
  | |- exists _ _ _, _ /\ _ /\
         (_ :: _ :: _ :: ?w1 ++ _ :: ?i ++ _ :: _ :: _ :: _ :: ?w2 ++ _ :: _) = _ /\ _ =>
      exists w1, i, w2
  end.
  unfold block. repeat split; auto.
  - simpl. repeat (rewrite <- app_assoc; simpl). reflexivity.
  - list_arith.
  - repeat f_equal; list_arith.
Qed.

Lemma strip_extract : strip frontMatterRegex_extract = frontMatterRegex_remove.
Proof. reflexivity. Qed.

(** Both expressions match at the same place. *)
Lemma same_span content :
  option_map span (exec frontMatterRegex_extract content)
  = option_map span (exec frontMatterRegex_remove content).
Proof. unfold exec. rewrite <- strip_extract. apply exec_from_strip. Qed.

Lemma skipn_length_app {A} (l r : list A) : skipn (length l) (l ++ r) = r.
Proof. induction l; simpl; auto. Qed.

Lemma firstn_length_app {A} (l r : list A) : firstn (length l) (l ++ r) = l.
Proof. induction l; simpl; congruence. Qed.

Lemma substring_middle (a x b : jsstring) :
  substring (a ++ x ++ b) (length a) (length a + length x) = x.
Proof.
  unfold substring. rewrite skipn_length_app.
  replace (length a + length x - length a) with (length x) by lia.
  apply firstn_length_app.
Qed.

Lemma substring_prefix (a b : jsstring) : substring (a ++ b) 0 (length a) = a.
Proof.
  unfold substring. rewrite Nat.sub_0_r. cbn [skipn]. apply firstn_length_app.
Qed.

Lemma block_not_empty ws1 i ws2 : length (block ws1 i ws2) > 0.
Proof. unfold block. list_arith. Qed.

Lemma front_matter_cases content : exists o, front_matter content o.
Proof.
  pose proof (same_span content) as E.
  unfold removeFrontMatter, String_replace, String_match, test.
  destruct (exec frontMatterRegex_extract content) as [f|] eqn:He.
  - destruct (front_matter_shape _ He) as (ws1 & i & ws2 & H1 & H2 & Hc & Hi & Hp & Hcap).
    destruct (exec frontMatterRegex_remove content) as [g|] eqn:Hr; [|discriminate].
    simpl in E. unfold span, place in E.
    assert (index g = 0) by congruence.
    assert (pos (final g) = length (block ws1 i ws2)) by congruence.
    assert (Hsk : skipn (length (block ws1 i ws2)) content = rest (final f)).
    { rewrite Hc at 1. apply skipn_length_app. }
    exists (Some i). eapply FrontMatter with (ws1 := ws1) (ws2 := ws2).
    + exact H1.
    + exact H2.
    + unfold String_match. rewrite He. reflexivity.
    + cbn [whole]. rewrite Hi, Hp, Hc. apply substring_prefix.
    + cbn [group]. rewrite Hcap. cbn [capture Nat.eqb]. rewrite Hc. unfold block.
      replace ((lit "---" ++ ws1 ++ [LF] ++ i ++ [LF] ++ lit "---" ++ ws2 ++ [LF])
                 ++ rest (final f))
        with ((lit "---" ++ ws1 ++ [LF]) ++ i
                ++ ([LF] ++ lit "---" ++ ws2 ++ [LF] ++ rest (final f)))
        by (repeat rewrite <- app_assoc; reflexivity).
      rewrite substring_middle. reflexivity.
    + unfold test. rewrite Hr. reflexivity.
    + unfold removeFrontMatter, String_replace. rewrite Hr.
      replace (index g) with 0 by auto.
      replace (pos (final g)) with (length (block ws1 i ws2)) by auto.
      cbn [firstn app]. rewrite Hsk. exact Hc.
  - destruct (exec frontMatterRegex_remove content) as [g|] eqn:Hr; [discriminate|].
    exists None. constructor.
    + unfold String_match. rewrite He. reflexivity.
    + unfold test. rewrite Hr. reflexivity.
    + unfold removeFrontMatter, String_replace. rewrite Hr. reflexivity.
Qed.

Lemma front_matter_functional content o1 o2 :
  front_matter content o1 -> front_matter content o2 -> o1 = o2.
Proof.
  intros H1 H2. destruct H1, H2; congruence.
Qed.

Lemma startsWith_app (p s : jsstring) : startsWith (p ++ s) p = true.
Proof.
  induction p as [|c p IH]; [destruct s; reflexivity|].
  cbn [app startsWith]. unfold cu_eqb. rewrite N.eqb_refl. exact IH.
Qed.

(** A content in which a block is found begins with three hyphens. *)
Lemma front_matter_starts_with_hyphens content i :
  front_matter content (Some i) -> startsWith content (lit "---") = true.
Proof.
  intros H. inversion H; subst.
  match goal with Hc : content = block _ _ _ ++ _ |- _ => rewrite Hc end.
  unfold block. rewrite <- app_assoc. apply startsWith_app.
Qed.

End FrontMatterFacts.

(** ** Front matter: extraction and removal *)

Module FrontMatter.
Import JS Regex RegexFacts App FrontMatterFacts Vocabulary Samples.

Local Arguments cu_eqb : simpl never.

Lemma metadata_of_yaml_eval env src st :
  metadata_of_yaml env src st
  = (match jsyaml_load env src with
     | Ok v => metadata_of_value env v
     | Throw e => Throw e
     end,
     record (CallJsyamlLoad src) st).
Proof.
  unfold metadata_of_yaml, bind, modify, lift, ret.
  destruct (jsyaml_load env src) as [v|e]; [|reflexivity].
  destruct v; reflexivity.
Qed.

(** Without a block, the defaults; nothing is loaded. *)
Lemma extractMetadata_no_block env content st :
  front_matter content None ->
  extractMetadata env content st
  = (Ok (default_metadata env (selectedFile st)),
     record (CallExtractMetadata content) st).
Proof.
  intros H. inversion H as [Hm _ _|]; subst.
  unfold extractMetadata, bind, modify, read, ret. rewrite Hm. reflexivity.
Qed.

(** With a block, its interior is loaded; a value gives the metadata, an
    exception a console line and the defaults. *)
Lemma extractMetadata_block env content interior st :
  front_matter content (Some interior) ->
  extractMetadata env content st
  = let st1 := record (CallJsyamlLoad interior) (record (CallExtractMetadata content) st) in
    match jsyaml_load env interior with
    | Ok v =>
        match metadata_of_value env v with
        | Ok md => (Ok md, st1)
        | Throw e => (Ok (default_metadata env (selectedFile st)), log e st1)
        end
    | Throw e => (Ok (default_metadata env (selectedFile st)), log e st1)
    end.
Proof.
  intros H. inversion H; subst.
  match goal with Hm : String_match _ _ = Some _, Hg : group _ 1 = Some _ |- _ =>
    unfold extractMetadata, bind, modify, read, ret, try_catch;
    rewrite Hm, Hg, metadata_of_yaml_eval
  end.
  destruct (jsyaml_load env interior) as [v|e]; [|reflexivity].
  destruct (metadata_of_value env v); reflexivity.
Qed.

(** C4, as stated, fails: a second block at the start of the body is
    stripped by a second run. *)
Lemma removeFrontMatter_not_idempotent :
  removeFrontMatter (removeFrontMatter two_blocks) <> removeFrontMatter two_blocks.
Proof. vm_compute. discriminate. Qed.

(** C4 (amended). Running [removeFrontMatter] on its own output changes
    nothing exactly when that output does not itself begin with a
    delimited block; in particular it changes nothing whenever the
    output does not start with three hyphens. *)
Theorem removeFrontMatter_idempotent_iff (s : jsstring) :
  (removeFrontMatter (removeFrontMatter s) = removeFrontMatter s
   <-> test frontMatterRegex_remove (removeFrontMatter s) = false)
  /\ (startsWith (removeFrontMatter s) (lit "---") = false ->
      removeFrontMatter (removeFrontMatter s) = removeFrontMatter s).
Proof.
  destruct (front_matter_cases (removeFrontMatter s)) as [o Ho].
  destruct Ho as [Hm Ht Hr | ws1 i ws2 m H1 H2 Hm Hw Hg Ht Hc].
  - split; [split; auto|auto].
  - assert (Hne : removeFrontMatter (removeFrontMatter s) <> removeFrontMatter s).
    { intros E. rewrite E in Hc. apply (f_equal (@length _)) in Hc.
      rewrite length_app in Hc. pose proof (block_not_empty ws1 i ws2). lia. }
    split; [split|].
    + intros E. contradiction.
    + intros E. congruence.
    + intros Hs.
      assert (startsWith (removeFrontMatter s) (lit "---") = true).
      { rewrite Hc. unfold block. rewrite <- app_assoc. apply startsWith_app. }
      congruence.
Qed.

(** The amended C4 at a document with one block: its body, a heading,
    does not start with hyphens, so a second run leaves it alone. *)
Lemma removeFrontMatter_idempotent_iff_witness :
  startsWith (removeFrontMatter titled_document) (lit "---") = false
  /\ removeFrontMatter (removeFrontMatter titled_document)
     = removeFrontMatter titled_document.
Proof.
  split; [reflexivity|].
  apply (proj2 (removeFrontMatter_idempotent_iff titled_document)). reflexivity.
Defined.

(** C5. [extractMetadata] and [removeFrontMatter] see the same block.
    Either neither finds one: nothing is loaded and nothing is removed.
    Or the content begins with one delimited block, [removeFrontMatter]
    removes exactly that block, and [extractMetadata] loads exactly its
    interior. *)
Theorem extract_and_remove_agree (env : Platform) (content : jsstring) (st : state) :
  (String_match content frontMatterRegex_extract = None
   /\ removeFrontMatter content = content
   /\ calls (snd (extractMetadata env content st))
      = calls st ++ [CallExtractMetadata content])
  \/ (exists ws1 interior ws2 m,
        forallb is_space ws1 = true /\ forallb is_space ws2 = true
        /\ String_match content frontMatterRegex_extract = Some m
        /\ whole m = block ws1 interior ws2
        /\ group m 1 = Some interior
        /\ content = block ws1 interior ws2 ++ removeFrontMatter content
        /\ removeFrontMatter content <> content
        /\ calls (snd (extractMetadata env content st))
           = calls st ++ [CallExtractMetadata content; CallJsyamlLoad interior]).
Proof.
  destruct (front_matter_cases content) as [o Ho].
  pose proof Ho as Ho'.
  destruct Ho as [Hm Ht Hr | ws1 i ws2 m H1 H2 Hm Hw Hg Ht Hc].
  - left. rewrite (extractMetadata_no_block env st Ho'). auto.
  - right. exists ws1, i, ws2, m. repeat split; auto.
    + intros E. rewrite E in Hc. apply (f_equal (@length _)) in Hc.
      rewrite length_app in Hc. pose proof (block_not_empty ws1 i ws2). lia.
    + rewrite (extractMetadata_block env st Ho').
      destruct (jsyaml_load env i) as [v|e]; [destruct (metadata_of_value env v)|];
        simpl; rewrite <- app_assoc; reflexivity.
Qed.

Lemma extension_no_earlier_match c stem ext i :
  In ext stripped_extensions ->
  run extensionRegex Some (MState i (c :: stem ++ ext) []) = None.
Proof.
  intros Hext.
  destruct (run extensionRegex Some (MState i (c :: stem ++ ext) [])) as [m|] eqn:Hr;
    [exfalso|reflexivity].
  destruct (run_sound _ _ _ Hr) as (b & Hs & _).
  simpl in Hs. break.
  repeat match goal with H : cu_eqb _ _ = true |- _ => apply cu_eqb_eq in H end.
  open_states. subst.
  repeat match goal with
         | H : MState _ _ _ = MState _ _ _ |- _ => injection H as ? ? ?
         end.
  subst.
  match goal with H : _ :: stem ++ ext = _ |- _ => injection H as _ Hw end.
  apply (f_equal (@rev _)) in Hw. rewrite rev_app_distr in Hw.
  simpl in Hext.
  repeat match goal with
         | H : _ \/ _ |- _ => destruct H
         | H : exists _, _ |- _ => destruct H
         | H : _ /\ _ |- _ => destruct H
         | H : False |- _ => destruct H
         end;
    repeat match goal with H : cu_eqb _ _ = true |- _ => apply cu_eqb_eq in H end;
    open_states; subst;
    repeat match goal with
           | H : MState _ _ _ = MState _ _ _ |- _ => injection H as ? ? ?
           end;
    subst; simpl in Hw; congruence.
Qed.

Lemma extension_match_at_end ext i :
  In ext stripped_extensions ->
  exists m, run extensionRegex Some (MState i ext []) = Some m
            /\ pos m = i + length ext.
Proof.
  intros Hext. simpl in Hext.
  destruct Hext as [<-|[<-|[<-|[]]]]; eexists; (split; [reflexivity|]);
    cbn [pos]; simpl; lia.
Qed.

Lemma exec_from_extension ext : In ext stripped_extensions ->
  forall stem i,
    exists f, exec_from extensionRegex i (stem ++ ext) = Some f
              /\ index f = i + length stem
              /\ pos (final f) = i + length stem + length ext.
Proof.
  intros Hext. induction stem as [|c stem IH]; intros i.
  - destruct (extension_match_at_end i Hext) as (m & Hm & Hp).
    exists (Found i m). cbn [app length].
    assert (E : exec_from extensionRegex i ext = Some (Found i m)).
    { destruct ext; cbn [exec_from]; rewrite Hm; reflexivity. }
    rewrite E. cbn [index final]. repeat split; lia.
  - cbn [app exec_from]. rewrite extension_no_earlier_match by exact Hext.
    destruct (IH (S i)) as (f & Hf & Hi & Hp).
    exists f. cbn [length]. repeat split; [exact Hf|lia|lia].
Qed.

(** A name that ends in one of the three extensions loses it. *)
Lemma replace_strips_extension stem ext :
  In ext stripped_extensions ->
  String_replace (stem ++ ext) extensionRegex [] = stem.
Proof.
  intros Hext. unfold String_replace, exec.
  destruct (exec_from_extension Hext stem 0) as (f & Hf & Hi & Hp).
  rewrite Hf, Hi, Hp. cbn [Nat.add app].
  rewrite firstn_length_app.
  rewrite <- length_app, skipn_all. apply app_nil_r.
Qed.

Lemma default_metadata_defaulted env file : defaulted env file (default_metadata env file).
Proof.
  unfold defaulted, default_metadata. cbn [author date title].
  repeat split. destruct file as [f|]; [|reflexivity].
  split; [reflexivity|]. intros stem ext Hext Hn.
  rewrite Hn, replace_strips_extension by exact Hext. reflexivity.
Qed.

Lemma truthy_today env : today env <> [] -> truthy (VString (today env)) = true.
Proof. intros H. cbn [truthy]. destruct (today env); congruence. Qed.

Lemma truthy_or_else a b : truthy b = true -> truthy (or_else a b) = true.
Proof. intros H. unfold or_else. destruct (truthy a) eqn:E; auto. Qed.

(** C6, as stated, fails: front matter that is a bare word loads as a
    string, and the title is then the placeholder although the file
    name is known. *)
Lemma extractMetadata_scalar_yaml_not_filename :
  jsyaml_load sample_platform (lit "hello") = Ok (VString (lit "hello"))
  /\ exists md,
       fst (extractMetadata sample_platform scalar_document (with_file notes_md)) = Ok md
       /\ title md = VString PLACEHOLDER_TITLE
       /\ title md <> VString (lit "notes").
Proof.
  split; [reflexivity|]. eexists. split; [vm_compute; reflexivity|].
  split; [reflexivity|]. cbn [title]. discriminate.
Qed.

(** C6 (amended). [extractMetadata] never throws: for every content it
    returns a metadata object, with a date that is not empty. When no
    block matches, or the YAML loader throws, or it returns [undefined]
    or [null], the object is the defaults. When the loader returns a
    string, a number or a boolean, the title is the placeholder, with
    the default author and date. *)
Theorem extractMetadata_never_throws (env : Platform) (content : jsstring) (st : state) :
  today env <> [] ->
  exists md st',
    extractMetadata env content st = (Ok md, st')
    /\ truthy (date md) = true
    /\ match String_match content frontMatterRegex_extract with
       | None => defaulted env (selectedFile st) md
       | Some m =>
           forall interior, group m 1 = Some interior ->
           match jsyaml_load env interior with
           | Throw _ | Ok VUndefined | Ok VNull => defaulted env (selectedFile st) md
           | Ok (VObject props) => Ok md = metadata_of_value env (VObject props)
           | Ok _ =>
               md = MkMetadata (VString PLACEHOLDER_TITLE) (VString [])
                               (VString (today env))
           end
       end.
Proof.
  intros Htoday. pose proof (truthy_today env Htoday) as Ht.
  destruct (front_matter_cases content) as [o Ho]. pose proof Ho as Ho'.
  destruct Ho as [Hm _ _ | ws1 i ws2 m _ _ Hm _ Hg _ _].
  - rewrite (extractMetadata_no_block env st Ho'), Hm.
    do 2 eexists. split; [reflexivity|]. split; [exact Ht|].
    apply default_metadata_defaulted.
  - rewrite (extractMetadata_block env st Ho'), Hm. cbv zeta.
    destruct (jsyaml_load env i) as [v|e] eqn:Hy.
    + destruct v as [| |b|x|s|props]; cbn [metadata_of_value];
        do 2 eexists; (split; [reflexivity|]);
        (split; [try exact Ht; cbn [date]; apply truthy_or_else; exact Ht|]);
        intros interior Hi; assert (interior = i) by congruence; subst interior;
        rewrite Hy; try apply default_metadata_defaulted; reflexivity.
    + do 2 eexists. split; [reflexivity|]. split; [exact Ht|].
      intros interior Hi. assert (interior = i) by congruence. subst interior.
      rewrite Hy. apply default_metadata_defaulted.
Qed.

(** The amended C6 at a document with a bare word as front matter. *)
Lemma extractMetadata_never_throws_witness :
  today sample_platform <> []
  /\ exists md st',
       extractMetadata sample_platform scalar_document (with_file notes_md) = (Ok md, st')
       /\ truthy (date md) = true.
Proof.
  assert (H : today sample_platform <> []) by (vm_compute; discriminate).
  split; [exact H|].
  destruct (extractMetadata_never_throws sample_platform scalar_document
              (with_file notes_md) H) as (md & st' & E & D & _).
  exists md, st'. split; assumption.
Defined.

(** C10, as stated, fails: an empty front matter loads without an
    exception, as [undefined]; the title is then derived from the file
    name, although a block matched. *)
Lemma empty_front_matter_uses_filename :
  test frontMatterRegex_extract empty_front_matter_document = true
  /\ jsyaml_load sample_platform [] = Ok VUndefined
  /\ exists md,
       fst (extractMetadata sample_platform empty_front_matter_document
              (with_file notes_md)) = Ok md
       /\ title md = VString (lit "notes")
       /\ title md <> VString PLACEHOLDER_TITLE.
Proof.
  split; [reflexivity|]. split; [reflexivity|].
  eexists. split; [vm_compute; reflexivity|].
  split; [reflexivity|]. cbn [title]. discriminate.
Qed.

(** C10 (amended). The title [extractMetadata] returns. Without a block
    it is the default derived from the file name. With a block whose
    interior loads to a value other than [undefined] and [null], it is
    that value's [title] when truthy and the placeholder otherwise.
    With a block whose interior does not load, or loads to [undefined]
    or [null], it is again the default derived from the file name. *)
Theorem title_of_extractMetadata (env : Platform) (content : jsstring) (st : state) :
  exists md st',
    extractMetadata env content st = (Ok md, st')
    /\ match String_match content frontMatterRegex_extract with
       | None => title md = title (default_metadata env (selectedFile st))
       | Some m =>
           forall interior, group m 1 = Some interior ->
           match jsyaml_load env interior with
           | Throw _ => title md = title (default_metadata env (selectedFile st))
           | Ok v =>
               match get v (lit "title") with
               | Throw _ => title md = title (default_metadata env (selectedFile st))
               | Ok t => title md = if truthy t then t else VString PLACEHOLDER_TITLE
               end
           end
       end.
Proof.
  destruct (front_matter_cases content) as [o Ho]. pose proof Ho as Ho'.
  destruct Ho as [Hm _ _ | ws1 i ws2 m _ _ Hm _ Hg _ _].
  - rewrite (extractMetadata_no_block env st Ho'), Hm.
    do 2 eexists. split; reflexivity.
  - rewrite (extractMetadata_block env st Ho'), Hm. cbv zeta.
    destruct (jsyaml_load env i) as [v|e] eqn:Hy.
    + destruct v as [| |b|x|s|props]; cbn [metadata_of_value];
        do 2 eexists; (split; [reflexivity|]);
        intros interior Hi; assert (interior = i) by congruence; subst interior;
        rewrite Hy; reflexivity.
    + do 2 eexists. split; [reflexivity|].
      intros interior Hi. assert (interior = i) by congruence. subst interior.
      rewrite Hy. reflexivity.
Qed.

End FrontMatter.

(** ** Pagination *)

Module Pdf.
Import JS App Vocabulary Samples.





Lemma Qfloor_minus_page h : (Qfloor (h - 297) <= Qfloor h - 297)%Z.
Proof.
  pose proof (Qfloor_le (h - 297)) as H1.
  pose proof (Qlt_floor h) as H2.
  assert (H3 : (inject_Z (Qfloor (h - 297)) < inject_Z (Qfloor h + 1 - 297))%Q).
  { unfold Z.sub at 1. rewrite inject_Z_plus.
    change (inject_Z (- (297))) with (- (297))%Q. lra. }
  rewrite <- Zlt_Qlt in H3. lia.
Qed.

(** The loop ends: a test for every whole millimetre left, and one. *)
Lemma page_loop_ends W H : forall f h pdf,
  (Qfloor h < Z.of_nat f)%Z ->
  exists pdf', page_loop (S f) W H h pdf = Some pdf'.
Proof.
  induction f as [|f IH]; intros h pdf Hf; cbn [page_loop].
  - destruct (Qle_bool 0 h) eqn:E; [|eauto].
    apply Qle_bool_iff in E. change 0%Q with (inject_Z 0) in E.
    apply Qfloor_resp_le in E. rewrite Qfloor_Z in E. simpl in Hf. lia.
  - destruct (Qle_bool 0 h) eqn:E; [|eauto].
    apply IH. pose proof (Qfloor_minus_page h). lia.
Qed.

(** [paginate] always returns a document. *)
Lemma paginate_total canvas : exists pdf, paginate canvas = Some pdf.
Proof.
  unfold paginate. fold (imgHeight_of canvas).
  apply page_loop_ends.
  assert (H0 : (0 <= imgHeight_of canvas)%Q).
  { unfold imgHeight_of. apply Qle_shift_div_l; [reflexivity|].
    rewrite Qmult_0_l. apply Qmult_le_0_compat; [|discriminate].
    change 0%Q with (inject_Z 0). rewrite <- Zle_Qle. lia. }
  change 0%Q with (inject_Z 0) in H0.
  apply Qfloor_resp_le in H0. rewrite Qfloor_Z in H0.
  pose proof (Qfloor_minus_page (imgHeight_of canvas)). lia.
Qed.





End Pdf.

(** ** Output file names *)

Module FileNames.
Import JS App Vocabulary Samples.

Lemma is_alnum_ascii c : is_alnum c = true -> is_ascii c = true.
Proof.
  unfold is_alnum, is_lower, is_upper, is_digit, in_range, is_ascii.
  rewrite !orb_true_iff, !andb_true_iff, !N.leb_le, N.ltb_lt. lia.
Qed.

Lemma replace_non_alnum_ascii s : forallb is_ascii (replace_non_alnum s) = true.
Proof.
  induction s as [|c s IH]; [reflexivity|]. cbn [replace_non_alnum map forallb].
  fold (replace_non_alnum s). rewrite IH, andb_true_r.
  destruct (is_alnum c) eqn:E; [apply is_alnum_ascii; exact E|reflexivity].
Qed.

(** The stem both file names are built on. *)
Lemma stem_of_title env s :
  toLowerCase (unicode_lower env) (replace_non_alnum s)
  = map (fun c => if is_alnum c then ascii_lower c else UNDERSCORE) s.
Proof.
  unfold toLowerCase. rewrite replace_non_alnum_ascii.
  unfold replace_non_alnum. rewrite map_map. apply map_ext.
  intros c. destruct (is_alnum c); reflexivity.
Qed.

(** C2, as stated, fails: a space in the title becomes an underscore in
    the file name; it is not removed. *)
Lemma filename_not_by_removal :
  pdf_filename sample_platform (VString (lit "My Doc"))
  = Ok (lit "my_doc.pdf")
  /\ pdf_filename sample_platform (VString (lit "My Doc"))
     <> Ok (slug_by_removal (lit "My Doc") ++ lit ".pdf").
Proof. split; [reflexivity|]. vm_compute. discriminate. Qed.

(** C2 (amended). For every title string both renderers build the file
    name on the same stem, followed by [.pdf] and [.docx]. The stem has
    the length of the title: a letter or digit of the title appears in
    lower case, and every other code unit as an underscore. *)
Theorem filenames_share_stem (env : Platform) (s : jsstring) :
  exists stem,
    pdf_filename env (VString s) = Ok (stem ++ lit ".pdf")
    /\ docx_filename env (VString s) = Ok (stem ++ lit ".docx")
    /\ length stem = length s
    /\ forall i c, nth_error s i = Some c ->
                   nth_error stem i
                   = Some (if is_alnum c then ascii_lower c else UNDERSCORE).
Proof.
  exists (map (fun c => if is_alnum c then ascii_lower c else UNDERSCORE) s).
  unfold pdf_filename, docx_filename, title_replace. rewrite stem_of_title.
  repeat split.
  - apply length_map.
  - intros i c H. rewrite nth_error_map, H. reflexivity.
Qed.

End FileNames.

(** ** Reading a file: the size limit *)

Module Oversize.
Import JS App Vocabulary Samples.

(** C7, as stated, fails: an oversize file with an extension that is
    not accepted is turned away with the format error, not with the
    size error. *)
Lemma oversize_pdf_gets_format_error :
  (MAX_SIZE < size big_pdf)%N
  /\ processFile sample_platform big_pdf initial_state
     = (Ok tt, show (ShowError MSG_UNSUPPORTED_FORMAT) initial_state)
  /\ MSG_UNSUPPORTED_FORMAT <> MSG_FILE_TOO_LARGE.
Proof.
  split; [reflexivity|]. split; [reflexivity|]. discriminate.
Qed.

(** C7 (amended). A file of more than 10 MiB is turned away before
    anything is done with it: [processFile] only shows an error. The
    file is not read, [extractMetadata] and [md.render] are not called,
    and no variable of the module changes. The error is the size error
    when the extension is [md], [markdown] or [txt], and the format
    error otherwise: the extension is checked first. *)
Theorem oversize_rejected (env : Platform) (file : File) (st : state) :
  (MAX_SIZE < size file)%N ->
  let msg := if existsb (jsstring_eqb (extension_of env file)) validExtensions
             then MSG_FILE_TOO_LARGE else MSG_UNSUPPORTED_FORMAT in
  processFile env file st = (Ok tt, show (ShowError msg) st)
  /\ calls (snd (processFile env file st)) = calls st
  /\ selectedFile (snd (processFile env file st)) = selectedFile st
  /\ markdownContent (snd (processFile env file st)) = markdownContent st
  /\ metadata (snd (processFile env file st)) = metadata st
  /\ parsedHtml (snd (processFile env file st)) = parsedHtml st.
Proof.
  intros Hsize msg.
  assert (E : processFile env file st = (Ok tt, show (ShowError msg) st)).
  { unfold processFile, msg. fold (extension_of env file).
    destruct (existsb (jsstring_eqb (extension_of env file)) validExtensions);
      cbn [negb]; [|reflexivity].
    apply N.ltb_lt in Hsize. rewrite Hsize. reflexivity. }
  rewrite E. repeat split.
Qed.

(** The amended C7 at an oversize markdown file. *)
Lemma oversize_rejected_witness :
  (MAX_SIZE < size big_md)%N
  /\ processFile sample_platform big_md initial_state
     = (Ok tt, show (ShowError MSG_FILE_TOO_LARGE) initial_state).
Proof.
  assert (H : (MAX_SIZE < size big_md)%N) by reflexivity.
  split; [exact H|].
  exact (proj1 (@oversize_rejected sample_platform big_md initial_state H)).
Defined.

End Oversize.

(** ** The DOCX document *)

Module Docx.
Import JS Dom App Vocabulary Samples.

Lemma unlit_lit s : unlit (lit s) = s.
Proof.
  unfold unlit, lit. rewrite map_map.
  rewrite (map_ext _ (fun a => a)) by apply ascii_N_embedding.
  rewrite map_id. apply string_of_list_ascii_of_string.
Qed.

Lemma jsstring_eqb_eq a : forall b, jsstring_eqb a b = true -> a = b.
Proof.
  induction a as [|x a IH]; intros [|y b] H; simpl in H; try discriminate; auto.
  apply andb_true_iff in H. destruct H as [H1 H2].
  apply N.eqb_eq in H1. f_equal; auto.
Qed.

(** The text of a number names one integer only. *)
Lemma number_text_names s z d :
  NilEmpty.int_of_string s = Some d ->
  jsstring_eqb (lit s) (number_text (Some z)) = true ->
  z = Z.of_int d.
Proof.
  intros Hd H. apply jsstring_eqb_eq in H. cbn [number_text] in H.
  apply (f_equal unlit) in H. rewrite !unlit_lit in H. subst s.
  rewrite NilEmpty.isi in Hd. injection Hd as <-. symmetry. apply DecimalZ.of_to.
Qed.

Lemma key_not_matched s z d :
  NilEmpty.int_of_string s = Some d -> z <> Z.of_int d ->
  jsstring_eqb (lit s) (number_text (Some z)) = false.
Proof.
  intros Hd Hz. destruct (jsstring_eqb (lit s) (number_text (Some z))) eqn:E; auto.
  exfalso. apply Hz. eapply number_text_names; eauto.
Qed.

(** The table lookup with its fallback, as a function of the level. *)
Lemma heading_lookup level :
  match table_get HeadingLevel_table (lit "HEADING_" ++ number_text level) with
  | Some h => h
  | None => HEADING_1
  end = heading_of_level level.
Proof.
  destruct level as [z|]; [|reflexivity].
  unfold heading_of_level.
  destruct (Z.eqb_spec z 1) as [->|N1]; [reflexivity|].
  destruct (Z.eqb_spec z 2) as [->|N2]; [reflexivity|].
  destruct (Z.eqb_spec z 3) as [->|N3]; [reflexivity|].
  destruct (Z.eqb_spec z 4) as [->|N4]; [reflexivity|].
  destruct (Z.eqb_spec z 5) as [->|N5]; [reflexivity|].
  destruct (Z.eqb_spec z 6) as [->|N6]; [reflexivity|].
  assert (K : forall s, jsstring_eqb (lit "HEADING_" ++ lit s)
                          (lit "HEADING_" ++ number_text (Some z))
                        = jsstring_eqb (lit s) (number_text (Some z)))
    by reflexivity.
  cbn [table_get HeadingLevel_table].
  change (lit "HEADING_1") with (lit "HEADING_" ++ lit "1").
  change (lit "HEADING_2") with (lit "HEADING_" ++ lit "2").
  change (lit "HEADING_3") with (lit "HEADING_" ++ lit "3").
  change (lit "HEADING_4") with (lit "HEADING_" ++ lit "4").
  change (lit "HEADING_5") with (lit "HEADING_" ++ lit "5").
  change (lit "HEADING_6") with (lit "HEADING_" ++ lit "6").
  rewrite !K.
  rewrite (@key_not_matched "1" z _ eq_refl N1), (@key_not_matched "2" z _ eq_refl N2),
    (@key_not_matched "3" z _ eq_refl N3), (@key_not_matched "4" z _ eq_refl N4),
    (@key_not_matched "5" z _ eq_refl N5), (@key_not_matched "6" z _ eq_refl N6).
  reflexivity.
Qed.

Lemma fold_left_push {A B} (f : B -> list A) : forall l init,
  fold_left (fun acc x => acc ++ f x) l init = init ++ flat_map f l.
Proof.
  induction l as [|x l IH]; intros init; simpl.
  - symmetry. apply app_nil_r.
  - rewrite IH, app_assoc. reflexivity.
Qed.

(** The [children] array for an author with the string form [a]: the
    title, the author, a blank paragraph, and what each selected element
    pushes, in document order. *)
Lemma docx_children_eq env md html a :
  ToString env (author md) = Ok a ->
  docx_children env md html
  = Ok (title_block md ++ author_line md a ++ [blank_paragraph]
        ++ flat_map (paragraphs_of env)
             (querySelectorAll block_selector
                (Elem tt (lit "div") [] (parse_html env html)))).
Proof.
  intros Ha. unfold docx_children, title_block, author_line, blank_paragraph.
  rewrite Ha.
  destruct (truthy (title md)), (truthy (author md)); cbn [and_then];
    rewrite fold_left_push; reflexivity.
Qed.

(** No [children] array for a truthy author without a string form. *)
Lemma docx_children_throws env md html e :
  truthy (author md) = true ->
  ToString env (author md) = Throw e ->
  docx_children env md html = Throw e.
Proof.
  intros Ht He. unfold docx_children. rewrite Ht, He. reflexivity.
Qed.

(** [generateDOCX] up to the call of the packer. *)
Lemma generateDOCX_packs env style st children :
  docx_children env (metadata st) (parsedHtml st) = Ok children ->
  calls (snd (generateDOCX env style st))
  = calls st ++ [CallPackerToBlob (MkDocument [children])].
Proof.
  intros Hc. unfold generateDOCX. cbv [bind modify read lift ret throw].
  rewrite Hc.
  destruct (Packer_toBlob env _) as [blob|e]; [|reflexivity].
  destruct (docx_filename env (title (metadata st))); reflexivity.
Qed.

(** [generateDOCX] when the blocks cannot be built: nothing is done. *)
Lemma generateDOCX_no_blocks env style st e :
  docx_children env (metadata st) (parsedHtml st) = Throw e ->
  generateDOCX env style st = (Throw e, st).
Proof.
  intros Hc. unfold generateDOCX. cbv [bind modify read lift ret throw].
  rewrite Hc. reflexivity.
Qed.

Lemma paragraphs_of_heading env name cn ch :
  let t := toLowerCase (unicode_lower env) (map ascii_upper name) in
  startsWith t (lit "h") = true ->
  paragraphs_of env (Elem tt name cn ch)
  = [heading_block (heading_of_level (parseInt (skipn 1 t)))
                   (flat_map (@textContent unit) ch)].
Proof.
  intros t Ht. unfold paragraphs_of. cbn [tagName]. fold t. rewrite Ht.
  rewrite heading_lookup. reflexivity.
Qed.

(** C8, as stated, fails: an author that YAML loads as a mapping with a
    key [toString] is truthy and so calls for an author line, but it has
    no string form. [generateDOCX] throws where it builds the line: the
    packer is not called, nothing is saved, and no block is emitted. *)
Lemma author_without_string_form :
  truthy (author mapping_author_metadata) = true
  /\ generateDOCX docx_platform (lit "default")
       (set_metadata mapping_author_metadata initial_state)
     = (Throw (Error (lit "Cannot convert object to primitive value")),
        set_metadata mapping_author_metadata initial_state).
Proof. split; reflexivity. Qed.

(** C8 (amended). Let the selected elements of the fragment be a level-1
    heading, a paragraph and a preformatted block, in this order. For
    an author with a string form, [generateDOCX] hands to the packer a
    document of exactly three content blocks, a heading of level 1, a
    plain paragraph and a monospaced paragraph, each with the text
    content of its element, after the title block (for a truthy title),
    the author line in italics (for a truthy author) and one blank
    paragraph. For a truthy author without a string form it throws and
    does nothing else. An element whose tag begins with [h] becomes a
    heading of the level its tag names, from 1 to 6, and of level 1 for
    any other level. *)
Theorem docx_three_blocks (env : Platform) (style : jsstring) (st : state)
    (cn1 cn2 cn3 : jsstring) (ch1 ch2 ch3 : list (node unit)) :
  querySelectorAll block_selector
    (Elem tt (lit "div") [] (parse_html env (parsedHtml st)))
  = [Elem tt (lit "h1") cn1 ch1; Elem tt (lit "p") cn2 ch2; Elem tt (lit "pre") cn3 ch3] ->
  (forall a,
     ToString env (author (metadata st)) = Ok a ->
     calls (snd (generateDOCX env style st))
     = calls st
       ++ [CallPackerToBlob
             (MkDocument
                [title_block (metadata st) ++ author_line (metadata st) a
                 ++ [blank_paragraph;
                     heading_block HEADING_1 (flat_map (@textContent unit) ch1);
                     plain_block (flat_map (@textContent unit) ch2);
                     monospaced_block (flat_map (@textContent unit) ch3)]])])
  /\ (forall e,
        truthy (author (metadata st)) = true ->
        ToString env (author (metadata st)) = Throw e ->
        generateDOCX env style st = (Throw e, st))
  /\ (forall cn ch,
        map (fun name => paragraphs_of env (Elem tt name cn ch))
            [lit "h1"; lit "h2"; lit "h3"; lit "h4"; lit "h5"; lit "h6"]
        = map (fun h => [heading_block h (flat_map (@textContent unit) ch)])
              [HEADING_1; HEADING_2; HEADING_3; HEADING_4; HEADING_5; HEADING_6])
  /\ (forall name cn ch,
        let t := toLowerCase (unicode_lower env) (map ascii_upper name) in
        startsWith t (lit "h") = true ->
        paragraphs_of env (Elem tt name cn ch)
        = [heading_block (heading_of_level (parseInt (skipn 1 t)))
                         (flat_map (@textContent unit) ch)]).
Proof.
  intros Hq. split; [|split; [|split]].
  - intros a Ha. apply generateDOCX_packs.
    rewrite (docx_children_eq env _ _ Ha), Hq. reflexivity.
  - intros e Ht He. apply generateDOCX_no_blocks.
    apply docx_children_throws; assumption.
  - intros cn ch. reflexivity.
  - intros name cn ch. apply paragraphs_of_heading.
Qed.

(** C8 at the rendering of a heading, a paragraph and a fenced code
    block, with a title and an author in the metadata. *)
Lemma docx_three_blocks_witness :
  querySelectorAll block_selector
    (Elem tt (lit "div") [] (parse_html docx_platform []))
  = [Elem tt (lit "h1") [] [Text (lit "Title")];
     Elem tt (lit "p") []
       [Text (lit "plain "); Elem tt (lit "em") [] [Text (lit "paragraph")]];
     Elem tt (lit "pre") (lit "hljs") [Elem tt (lit "code") [] [Text (lit "x = 1")]]]
  /\ calls (snd (generateDOCX docx_platform (lit "default")
                   (set_metadata report_metadata initial_state)))
     = [CallPackerToBlob
          (MkDocument
             [[MkParagraph (Some (VString (lit "Report"))) (Some TITLE) [];
               MkParagraph None None [MkTextRun (AUTHOR_PREFIX ++ lit "Ann") true None];
               blank_paragraph;
               heading_block HEADING_1 (lit "Title");
               plain_block (lit "plain paragraph");
               monospaced_block (lit "x = 1")]])].
Proof.
  assert (H : querySelectorAll block_selector
                (Elem tt (lit "div") [] (parse_html docx_platform []))
              = [Elem tt (lit "h1") [] [Text (lit "Title")];
                 Elem tt (lit "p") []
                   [Text (lit "plain "); Elem tt (lit "em") [] [Text (lit "paragraph")]];
                 Elem tt (lit "pre") (lit "hljs")
                   [Elem tt (lit "code") [] [Text (lit "x = 1")]]])
    by reflexivity.
  split; [exact H|].
  exact (proj1 (@docx_three_blocks docx_platform (lit "default")
                  (set_metadata report_metadata initial_state) _ _ _ _ _ _ H)
               (lit "Ann") eq_refl).
Defined.

(** C9. [generateDOCX] does not look at the style it is given: with any
    two styles it records the same document, saves the same bytes under
    the same name and ends in the same way. *)
Theorem generateDOCX_ignores_style (env : Platform) (style1 style2 : jsstring)
    (st : state) :
  generateDOCX env style1 st = generateDOCX env style2 st.
Proof. reflexivity. Qed.

End Docx.

(** ** Mermaid diagrams: the tree and its nodes *)

Module MermaidFacts.
Import JS Dom App Vocabulary Samples.

(** Induction over a tree, with the property known of all children. *)
Lemma node_induction (I : Type) (P : node I -> Prop) :
  (forall d, P (Text d)) ->
  (forall d, P (Comment d)) ->
  (forall i name cn ch, Forall P ch -> P (Elem i name cn ch)) ->
  forall n, P n.
Proof.
  intros HT HC HE.
  fix IH 1. intros [d|d|i name cn ch]; [apply HT|apply HC|].
  apply HE. induction ch as [|c ch IHch]; constructor; [apply IH|exact IHch].
Qed.

Lemma path_eqb_eq p : forall q, path_eqb p q = true <-> p = q.
Proof.
  induction p as [|a p IH]; intros [|b q]; simpl; split; intros H;
    try discriminate; auto.
  - apply andb_true_iff in H. destruct H as [H1 H2].
    apply Nat.eqb_eq in H1. apply IH in H2. congruence.
  - injection H as -> ->. rewrite Nat.eqb_refl. simpl. apply IH. reflexivity.
Qed.

Lemma nid_eqb_eq (a b : nid) : nid_eqb a b = true <-> a = b.
Proof.
  destruct a as [oa pa], b as [ob pb]. unfold nid_eqb. cbn [fst snd].
  rewrite andb_true_iff, path_eqb_eq. split.
  - intros [Ho ->]. destruct oa, ob; simpl in Ho; try discriminate; auto.
    apply Nat.eqb_eq in Ho. congruence.
  - intros E. injection E as -> ->. split; auto.
    destruct ob; simpl; auto. apply Nat.eqb_refl.
Qed.

Lemma nid_eqb_neq (a b : nid) : nid_eqb a b = false <-> a <> b.
Proof.
  split.
  - intros H E. apply nid_eqb_eq in E. congruence.
  - intros H. destruct (nid_eqb a b) eqn:E; auto. apply nid_eqb_eq in E. contradiction.
Qed.

Lemma alloc_unfold o p u name cn ch :
  alloc o p (Elem u name cn ch) = Elem (o, p) name cn (alloc_children o p 0 ch).
Proof.
  cbn [alloc]. f_equal. generalize 0.
  induction ch as [|c ch IH]; intros j; cbn [alloc_children]; [reflexivity|].
  f_equal. apply IH.
Qed.

(** A tree built for a diagram holds no element of the fragment. *)
Lemma fids_alloc_diagram i : forall h p, fids (alloc (Diagram i) p h) = [].
Proof.
  induction h as [d|d|u name cn ch IH] using node_induction; intros p;
    [reflexivity|reflexivity|].
  rewrite alloc_unfold. cbn [fids fragment_id fst app].
  generalize 0. induction ch as [|c ch IHch]; intros j; [reflexivity|].
  inversion IH as [|? ? Hc Hch]; subst.
  cbn [alloc_children flat_map]. rewrite Hc, IHch by exact Hch. reflexivity.
Qed.

(** The elements of a parsed tree are named by paths that end in the
    path of its root. *)
Lemma fids_alloc_suffix : forall h p x,
  In x (fids (alloc Fragment p h)) -> exists q, x = (Fragment, q ++ p).
Proof.
  induction h as [d|d|u name cn ch IH] using node_induction; intros p x Hx;
    [destruct Hx|destruct Hx|].
  rewrite alloc_unfold in Hx. cbn [fids fragment_id fst app] in Hx.
  destruct Hx as [<-|Hx]; [exists []; reflexivity|].
  revert Hx. generalize 0. induction ch as [|c ch IHch]; intros j Hx; [destruct Hx|].
  inversion IH as [|? ? Hc Hch]; subst.
  cbn [alloc_children flat_map] in Hx. apply in_app_or in Hx. destruct Hx as [Hx|Hx].
  - destruct (Hc _ _ Hx) as [q ->]. exists (q ++ [j]). rewrite <- app_assoc. reflexivity.
  - eapply IHch; eauto.
Qed.

Lemma fids_alloc_children_suffix ch p j x :
  In x (flat_map fids (alloc_children Fragment p j ch)) ->
  exists q k, j <= k /\ x = (Fragment, q ++ k :: p).
Proof.
  revert j. induction ch as [|c ch IH]; intros j Hx; [destruct Hx|].
  cbn [alloc_children flat_map] in Hx. apply in_app_or in Hx. destruct Hx as [Hx|Hx].
  - destruct (fids_alloc_suffix _ _ _ Hx) as [q ->]. exists q, j. split; [lia|reflexivity].
  - destruct (IH _ Hx) as (q & k & Hk & ->). exists q, k. split; [lia|reflexivity].
Qed.

Lemma path_tail_differs (q q' p : list nat) (j k : nat) :
  j <> k -> q ++ j :: p <> q' ++ k :: p.
Proof.
  intros Hjk E.
  assert (E' : (q ++ [j]) ++ p = (q' ++ [k]) ++ p)
    by (rewrite <- !app_assoc; exact E).
  apply app_inv_tail in E'. apply app_inj_tail in E'. destruct E'. contradiction.
Qed.

Lemma path_longer (q p : list nat) (j : nat) : q ++ j :: p <> p.
Proof.
  intros E. apply (f_equal (@length _)) in E. rewrite length_app in E. simpl in E. lia.
Qed.

(** The elements of a parsed tree have distinct names. *)
Lemma fids_alloc_NoDup : forall h p, NoDup (fids (alloc Fragment p h)).
Proof.
  induction h as [d|d|u name cn ch IH] using node_induction; intros p;
    [constructor|constructor|].
  rewrite alloc_unfold. cbn [fids fragment_id fst app]. constructor.
  - intros Hin. destruct (fids_alloc_children_suffix _ _ _ _ Hin) as (q & k & _ & E).
    injection E as E. symmetry in E. exact (@path_longer _ _ _ E).
  - generalize 0. induction ch as [|c ch IHch]; intros j; [constructor|].
    inversion IH as [|? ? Hc Hch]; subst.
    cbn [alloc_children flat_map]. apply NoDup_app.
    + apply Hc.
    + apply IHch. exact Hch.
    + intros x Hx1 Hx2.
      destruct (fids_alloc_suffix _ _ _ Hx1) as [q ->].
      destruct (fids_alloc_children_suffix _ _ _ _ Hx2) as (q' & k & Hk & E).
      injection E as E. revert E. apply path_tail_differs. lia.
Qed.

(** *** Looking for a name that is not there *)

Lemma NoDup_app_inv {A} (l1 l2 : list A) :
  NoDup (l1 ++ l2) ->
  NoDup l1 /\ NoDup l2 /\ (forall a, In a l1 -> ~ In a l2).
Proof.
  intros H. split; [eapply NoDup_app_remove_r; eauto|].
  split; [eapply NoDup_app_remove_l; eauto|].
  induction l1 as [|x l1 IH]; intros a Ha; [destruct Ha|].
  simpl in H. inversion H as [|? ? Hx Hl]; subst. destruct Ha as [<-|Ha].
  - intros Hin. apply Hx. apply in_or_app. auto.
  - apply IH; auto.
Qed.

Lemma find_map_none {A B} (f : A -> option B) l :
  (forall x, In x l -> f x = None) -> find_map f l = None.
Proof.
  induction l as [|x l IH]; intros H; [reflexivity|].
  cbn [find_map]. rewrite (H x (or_introl eq_refl)). apply IH.
  intros y Hy. apply H. right. exact Hy.
Qed.

Lemma find_map_skip {A B} (f : A -> option B) l1 l2 :
  (forall x, In x l1 -> f x = None) -> find_map f (l1 ++ l2) = find_map f l2.
Proof.
  induction l1 as [|x l1 IH]; intros H; [reflexivity|].
  cbn [app find_map]. rewrite (H x (or_introl eq_refl)). apply IH.
  intros y Hy. apply H. right. exact Hy.
Qed.

Lemma find_map_cons_some {A B} (f : A -> option B) x l y :
  f x = Some y -> find_map f (x :: l) = Some y.
Proof. intros H. cbn [find_map]. rewrite H. reflexivity. Qed.

Lemma existsb_false {A} (f : A -> bool) l :
  (forall x, In x l -> f x = false) -> existsb f l = false.
Proof.
  induction l as [|x l IH]; intros H; [reflexivity|].
  cbn [existsb]. rewrite (H x (or_introl eq_refl)). apply IH.
  intros y Hy. apply H. right. exact Hy.
Qed.

Lemma existsb_false_in {A} (f : A -> bool) l x :
  existsb f l = false -> In x l -> f x = false.
Proof.
  intros H Hx. destruct (f x) eqn:E; auto.
  assert (existsb f l = true) by (apply existsb_exists; eauto). congruence.
Qed.

Lemma has_id_fids x c : has_id x c = true -> fragment_id x = true -> In x (fids c).
Proof.
  destruct c as [d|d|i name cn ch]; try discriminate. cbn [has_id fids].
  intros H Hx. apply nid_eqb_eq in H. subst i. rewrite Hx. left. reflexivity.
Qed.

Lemma absent_has_id x c : fragment_id x = true -> ~ In x (fids c) -> has_id x c = false.
Proof.
  intros Hx Hn. destruct (has_id x c) eqn:E; auto.
  exfalso. apply Hn. apply has_id_fids; auto.
Qed.

Lemma absent_lookup x : fragment_id x = true ->
  forall n, ~ In x (fids n) -> lookup x n = None.
Proof.
  intros Hx. induction n as [d|d|i name cn ch IH] using node_induction;
    intros Hn; [reflexivity|reflexivity|].
  cbn [lookup]. cbn [fids] in Hn.
  destruct (nid_eqb i x) eqn:E.
  - apply nid_eqb_eq in E. subst i. rewrite Hx in Hn. exfalso. apply Hn. left. reflexivity.
  - apply find_map_none. intros c Hc. rewrite Forall_forall in IH. apply IH; auto.
    intros Hin. apply Hn. apply in_or_app. right. apply in_flat_map. eauto.
Qed.

Lemma absent_parent_in x : fragment_id x = true ->
  forall n, ~ In x (fids n) -> parent_in x n = None.
Proof.
  intros Hx. induction n as [d|d|i name cn ch IH] using node_induction;
    intros Hn; [reflexivity|reflexivity|].
  cbn [parent_in]. cbn [fids] in Hn.
  assert (Hch : forall c, In c ch -> ~ In x (fids c)).
  { intros c Hc Hin. apply Hn. apply in_or_app. right. apply in_flat_map. eauto. }
  rewrite existsb_false.
  - apply find_map_none. intros c Hc. rewrite Forall_forall in IH. apply IH; auto.
  - intros c Hc. apply absent_has_id; auto.
Qed.

Lemma absent_subst x new : fragment_id x = true ->
  forall n, ~ In x (fids n) -> subst x new n = n.
Proof.
  intros Hx. induction n as [d|d|i name cn ch IH] using node_induction;
    intros Hn; [reflexivity|reflexivity|].
  cbn [subst]. cbn [fids] in Hn. f_equal.
  assert (Hch : forall c, In c ch -> ~ In x (fids c)).
  { intros c Hc Hin. apply Hn. apply in_or_app. right. apply in_flat_map. eauto. }
  rewrite <- (map_id ch) at 2. apply map_ext_in. intros c Hc.
  rewrite absent_has_id by auto. rewrite Forall_forall in IH. apply IH; auto.
Qed.

(** A diagram block seen in a tree is an element of the fragment there. *)
Lemma outline_block_fids x b : is_block x = true -> node_id x = Some b ->
  forall n, In x (outline n) -> In b (fids n).
Proof.
  intros Hb Hid. induction n as [d|d|i name cn ch IH] using node_induction;
    intros Hin; [destruct Hin|destruct Hin|].
  cbn [outline] in Hin. cbn [fids].
  destruct (fragment_id i) eqn:Hi.
  - apply in_app_or in Hin. destruct Hin as [Hin|Hin].
    + destruct (mermaid_selector (Elem i name cn ch)); [|destruct Hin].
      destruct Hin as [<-|[]]. cbn [node_id] in Hid. injection Hid as <-.
      left. reflexivity.
    + apply in_or_app. right. apply in_flat_map in Hin. destruct Hin as (c & Hc & Hx).
      apply in_flat_map. exists c. split; auto. rewrite Forall_forall in IH. auto.
  - destruct (container_id i); [|destruct Hin]. destruct Hin as [<-|[]].
    cbn [is_block] in Hb. rewrite Hi in Hb. discriminate.
Qed.

Lemma block_fragment x b : is_block x = true -> node_id x = Some b -> fragment_id b = true.
Proof.
  destruct x as [d|d|i name cn ch]; try discriminate. cbn [is_block node_id].
  intros H E. injection E as <-. apply andb_true_iff in H. tauto.
Qed.

Lemma block_has_id x b : node_id x = Some b -> has_id b x = true.
Proof.
  destruct x as [d|d|i name cn ch]; try discriminate. cbn [node_id has_id].
  intros E. injection E as <-. apply nid_eqb_eq. reflexivity.
Qed.

Lemma block_lookup x b : node_id x = Some b -> lookup b x = Some x.
Proof.
  destruct x as [d|d|i name cn ch]; try discriminate. cbn [node_id lookup].
  intros E. injection E as <-.
  assert (H : nid_eqb i i = true) by (apply nid_eqb_eq; reflexivity).
  rewrite H. reflexivity.
Qed.

(** A diagram block shows in its own outline, first. *)
Lemma block_outline x : is_block x = true -> exists rest, outline x = x :: rest.
Proof.
  destruct x as [d|d|i name cn ch]; try discriminate. cbn [is_block outline].
  intros H. apply andb_true_iff in H. destruct H as [H1 H2]. rewrite H1, H2.
  eexists. reflexivity.
Qed.

Lemma flat_map_split {A B} (f : A -> list B) : forall l l1 x l2,
  flat_map f l = l1 ++ x :: l2 ->
  exists k1 c k2 m1 m2,
    l = k1 ++ c :: k2 /\ f c = m1 ++ x :: m2
    /\ l1 = flat_map f k1 ++ m1 /\ l2 = m2 ++ flat_map f k2.
Proof.
  induction l as [|c l IH]; intros l1 x l2 H.
  - destruct l1; discriminate.
  - cbn [flat_map] in H.
    assert (Hc : (exists m2, f c = l1 ++ x :: m2 /\ l2 = m2 ++ flat_map f l)
                 \/ (exists l1', l1 = f c ++ l1' /\ flat_map f l = l1' ++ x :: l2)).
    { clear IH. revert l1 H. induction (f c) as [|y fc IHfc]; intros l1 H.
      - right. exists l1. auto.
      - destruct l1 as [|z l1].
        + left. simpl in H. injection H as -> H. exists fc. auto.
        + simpl in H. injection H as -> H. destruct (IHfc _ H) as [(m2 & E1 & E2)|(l1' & E1 & E2)].
          * left. exists m2. split; [simpl; congruence|auto].
          * right. exists l1'. split; [simpl; congruence|auto]. }
    destruct Hc as [(m2 & E1 & E2)|(l1' & E1 & E2)].
    + exists [], c, l, l1, m2. simpl. auto.
    + destruct (IH _ _ _ E2) as (k1 & c' & k2 & m1 & m2 & Hl & Hf & H1 & H2).
      exists (c :: k1), c', k2, m1, m2. subst. simpl. rewrite <- app_assoc. auto.
Qed.

Lemma NoDup_replace_mid {A} (a x x' b : list A) :
  NoDup (a ++ x ++ b) -> NoDup x' -> incl x' x -> NoDup (a ++ x' ++ b).
Proof.
  intros H Hx' Hi.
  destruct (NoDup_app_inv _ _ H) as (Ha & Hxb & Hd1).
  destruct (NoDup_app_inv _ _ Hxb) as (Hx & Hb & Hd2).
  apply NoDup_app; [exact Ha| |].
  - apply NoDup_app; [exact Hx'|exact Hb|]. intros y Hy. apply Hd2. apply Hi. exact Hy.
  - intros y Hy Hin. apply (Hd1 y Hy). apply in_app_or in Hin. apply in_or_app.
    destruct Hin as [Hin|Hin]; [left; apply Hi; exact Hin|right; exact Hin].
Qed.

Lemma selector_ignores_children i name cn ch ch' :
  mermaid_selector (Elem i name cn ch) = mermaid_selector (Elem i name cn ch').
Proof. reflexivity. Qed.

(** *** One replacement *)

Section Step.
Variable new : node nid.
Hypothesis new_fids : fids new = [].
Hypothesis new_outline : outline new = [new].
Hypothesis new_block : is_block new = false.
Hypothesis new_separate : separate new = true.

Lemma lift_siblings ch1 c ch2 nb b h c' m1 m2 :
  NoDup (flat_map fids (ch1 ++ c :: ch2)) ->
  forallb separate (ch1 ++ c :: ch2) = true ->
  existsb is_block (ch1 ++ c :: ch2) = false ->
  fragment_id b = true -> In b (fids c) ->
  tree_step new nb b h c c' m1 m2 ->
  forest_step new nb b h (ch1 ++ c :: ch2) (ch1 ++ c' :: ch2)
              (flat_map outline ch1 ++ m1) (m2 ++ flat_map outline ch2).
Proof.
  intros Hnd Hsep Hnb Hb Hbin [].
  rewrite flat_map_app in Hnd. cbn [flat_map] in Hnd.
  destruct (NoDup_app_inv _ _ Hnd) as (_ & Hcb & D1).
  destruct (NoDup_app_inv _ _ Hcb) as (_ & _ & D2).
  assert (A1 : forall x, In x (fids c) -> forall c0, In c0 ch1 -> ~ In x (fids c0)).
  { intros x Hx c0 Hc0 Hin. apply (D1 x); [apply in_flat_map; eauto|].
    apply in_or_app. left. exact Hx. }
  assert (A2 : forall x, In x (fids c) -> forall c0, In c0 ch2 -> ~ In x (fids c0)).
  { intros x Hx c0 Hc0 Hin. apply (D2 x Hx). apply in_flat_map. eauto. }
  rewrite forallb_app in Hsep. cbn [forallb] in Hsep.
  apply andb_true_iff in Hsep. destruct Hsep as [Hs1 Hs2].
  apply andb_true_iff in Hs2. destruct Hs2 as [_ Hs2].
  rewrite existsb_app in Hnb. cbn [existsb] in Hnb.
  apply orb_false_iff in Hnb. destruct Hnb as [Hb1 Hb2].
  apply orb_false_iff in Hb2. destruct Hb2 as [_ Hb2].
  constructor.
  - rewrite find_map_skip by (intros; apply absent_lookup; auto).
    apply find_map_cons_some. assumption.
  - rewrite existsb_app. cbn [existsb]. rewrite ts_not_root0.
    rewrite !existsb_false by (intros; apply absent_has_id; auto). reflexivity.
  - rewrite find_map_skip by (intros; apply absent_parent_in; auto).
    apply find_map_cons_some. assumption.
  - destruct ts_holder0 as [H EH]. exists H.
    rewrite find_map_skip by (intros; apply absent_lookup; auto).
    apply find_map_cons_some. assumption.
  - destruct ts_attached0 as [E|[g E]].
    + left. rewrite existsb_app. cbn [existsb]. rewrite E. apply orb_true_r.
    + right. exists g. rewrite find_map_skip by (intros; apply absent_parent_in; auto).
      apply find_map_cons_some. assumption.
  - assumption.
  - rewrite flat_map_app. cbn [flat_map]. apply in_or_app. right.
    apply in_or_app. left. assumption.
  - rewrite flat_map_app. cbn [flat_map]. apply in_or_app. right.
    apply in_or_app. left. assumption.
  - unfold subst_forest. rewrite map_app. cbn [map]. rewrite <- ts_new0.
    f_equal; [|f_equal].
    + rewrite <- (map_id ch1) at 1. apply map_ext_in. intros c0 Hc0.
      rewrite absent_has_id, absent_subst; auto.
    + rewrite <- (map_id ch2) at 1. apply map_ext_in. intros c0 Hc0.
      rewrite absent_has_id, absent_subst; auto.
  - rewrite flat_map_app. cbn [flat_map]. eapply NoDup_replace_mid; eauto.
  - rewrite !flat_map_app. cbn [flat_map]. intros x Hx.
    apply in_app_or in Hx. apply in_or_app. destruct Hx as [Hx|Hx]; [left; exact Hx|].
    right. apply in_app_or in Hx. apply in_or_app.
    destruct Hx as [Hx|Hx]; [left; apply ts_incl0; exact Hx|right; exact Hx].
  - rewrite forallb_app. cbn [forallb]. rewrite Hs1, Hs2, ts_separate0. reflexivity.
  - rewrite existsb_app. cbn [existsb]. rewrite Hb1, Hb2, ts_not_block0. reflexivity.
  - rewrite flat_map_app. cbn [flat_map]. rewrite ts_outline0.
    rewrite <- !app_assoc. reflexivity.
Qed.

Lemma lift_parent i name cn k nb b h k' l1 l2 :
  fragment_id i = true ->
  NoDup (fids (Elem i name cn k)) ->
  mermaid_selector (Elem i name cn k) = false ->
  forest_step new nb b h k k' l1 l2 ->
  tree_step new nb b h (Elem i name cn k) (Elem i name cn k') l1 l2
  /\ has_id h (Elem i name cn k) = false.
Proof.
  intros Hi Hnd Hm [].
  cbn [fids] in Hnd. rewrite Hi in Hnd. cbn [app] in Hnd.
  apply NoDup_cons_iff in Hnd. destruct Hnd as [Hni Hndk].
  assert (Eb : nid_eqb i b = false).
  { apply nid_eqb_neq. intros ->. contradiction. }
  assert (Eh : nid_eqb i h = false).
  { apply nid_eqb_neq. intros ->. contradiction. }
  split; [|exact Eh]. constructor.
  - cbn [lookup]. rewrite Eb. assumption.
  - exact Eb.
  - cbn [parent_in]. rewrite fs_not_root0. assumption.
  - cbn [lookup]. rewrite Eh. assumption.
  - right. cbn [parent_in]. destruct fs_attached0 as [E|[g E]].
    + rewrite E. eauto.
    + destruct (existsb (has_id h) k); eauto.
  - assumption.
  - cbn [fids]. rewrite Hi. right. assumption.
  - cbn [has_id]. rewrite Eh, fs_new0. reflexivity.
  - cbn [fids]. rewrite Hi. cbn [app]. constructor; [|assumption].
    intros Hin. apply Hni. apply fs_incl0. exact Hin.
  - cbn [fids]. rewrite Hi. cbn [app]. intros x [<-|Hx]; [left; reflexivity|].
    right. apply fs_incl0. exact Hx.
  - cbn [separate]. rewrite Hi, fs_no_block0. assumption.
  - cbn [is_block]. rewrite (selector_ignores_children i name cn k' k), Hm.
    apply andb_false_r.
  - cbn [outline]. rewrite Hi, (selector_ignores_children i name cn k' k), Hm.
    assumption.
Qed.

Lemma singleton_split {A} (m1 m2 : list A) (x y : A) :
  m1 ++ x :: m2 = [y] -> m1 = [] /\ m2 = [] /\ x = y.
Proof.
  destruct m1 as [|z m1]; simpl; intros H.
  - injection H as -> ->. auto.
  - injection H as _ H. destruct m1; discriminate.
Qed.

Lemma length_one {A} (l : list A) : length l = 1 -> exists x, l = [x].
Proof. destruct l as [|x [|y l]]; try discriminate. eauto. Qed.

(** The parent of a diagram block, with nothing else below it to
    materialise, is replaced whole. *)
Lemma holder_step i name cn k nb b m1 m2 :
  fragment_id i = true ->
  NoDup (fids (Elem i name cn k)) ->
  mermaid_selector (Elem i name cn k) = false ->
  existsb is_block k = true ->
  length (flat_map outline k) = 1 ->
  outline (Elem i name cn k) = m1 ++ nb :: m2 ->
  is_block nb = true -> node_id nb = Some b ->
  m1 = [] /\ m2 = [] /\ In b (fids (Elem i name cn k))
  /\ tree_step new nb b i (Elem i name cn k) new [] [].
Proof.
  intros Hi Hnd Hm Hex Hlen Hout Hb Hid.
  cbn [outline] in Hout. rewrite Hi, Hm in Hout. cbn [app] in Hout.
  destruct (length_one _ Hlen) as [x Hx]. rewrite Hx in Hout.
  symmetry in Hout. destruct (singleton_split _ _ _ Hout) as (-> & -> & <-).
  apply existsb_exists in Hex. destruct Hex as (nb' & Hin' & Hb').
  destruct (block_outline _ Hb') as [rest Hrest].
  assert (Hnb' : In nb' (flat_map outline k)).
  { apply in_flat_map. exists nb'. split; [exact Hin'|]. rewrite Hrest. left. reflexivity. }
  rewrite Hx in Hnb'. destruct Hnb' as [<-|[]].
  pose proof (block_fragment _ Hb Hid) as Hbf.
  pose proof (block_has_id _ Hid) as Hhas.
  assert (Hbk : In b (flat_map fids k)).
  { apply in_flat_map. exists nb. split; [exact Hin'|]. apply has_id_fids; auto. }
  cbn [fids] in Hnd. rewrite Hi in Hnd. cbn [app] in Hnd.
  apply NoDup_cons_iff in Hnd. destruct Hnd as [Hni Hndk].
  assert (Eb : nid_eqb i b = false).
  { apply nid_eqb_neq. intros ->. contradiction. }
  assert (Eii : nid_eqb i i = true) by (apply nid_eqb_eq; reflexivity).
  destruct (in_split _ _ Hin') as (k1 & k2 & Hk).
  assert (A1 : forall c0, In c0 k1 -> ~ In b (fids c0)).
  { rewrite Hk, flat_map_app in Hndk. cbn [flat_map] in Hndk.
    destruct (NoDup_app_inv _ _ Hndk) as (_ & _ & D1).
    intros c0 Hc0 Hin. apply (D1 b); [apply in_flat_map; eauto|].
    apply in_or_app. left. apply has_id_fids; auto. }
  split; [reflexivity|]. split; [reflexivity|]. split.
  { cbn [fids]. rewrite Hi. right. exact Hbk. }
  constructor.
  - cbn [lookup]. rewrite Eb, Hk.
    rewrite find_map_skip by (intros; apply absent_lookup; auto).
    apply find_map_cons_some. apply block_lookup. exact Hid.
  - exact Eb.
  - cbn [parent_in].
    assert (E : existsb (has_id b) k = true) by (apply existsb_exists; eauto).
    rewrite E. reflexivity.
  - eexists. cbn [lookup]. rewrite Eii. reflexivity.
  - left. exact Eii.
  - exact Hi.
  - cbn [fids]. rewrite Hi. left. reflexivity.
  - cbn [has_id]. rewrite Eii. reflexivity.
  - rewrite new_fids. constructor.
  - rewrite new_fids. intros y [].
  - exact new_separate.
  - exact new_block.
  - exact new_outline.
Qed.

(** Any diagram block seen below an element whose children are not
    diagram blocks can be replaced through its parent. *)
Lemma step_children : forall n nb b l1 l2,
  NoDup (flat_map fids (children n)) ->
  forallb separate (children n) = true ->
  existsb is_block (children n) = false ->
  flat_map outline (children n) = l1 ++ nb :: l2 ->
  is_block nb = true -> node_id nb = Some b ->
  exists h, forest_step new nb b h (children n) (subst_forest new h (children n)) l1 l2.
Proof.
  induction n as [d|d|i name cn ch IH] using node_induction;
    intros nb b l1 l2 Hnd Hsep Hnb Hout Hb Hid;
    [destruct l1; discriminate|destruct l1; discriminate|].
  cbn [children] in *.
  destruct (flat_map_split _ _ _ _ _ Hout) as (k1 & c & k2 & m1 & m2 & Hch & Hc & -> & ->).
  pose proof (block_fragment _ Hb Hid) as Hbf.
  assert (Hcin : In c ch) by (rewrite Hch; apply in_or_app; right; left; reflexivity).
  assert (Hnbc : In nb (outline c)) by (rewrite Hc; apply in_or_app; right; left; reflexivity).
  pose proof (@outline_block_fids nb b Hb Hid c Hnbc) as Hbc.
  pose proof (@existsb_false_in _ is_block ch c Hnb Hcin) as Hcb.
  assert (Hcs : separate c = true) by (rewrite forallb_forall in Hsep; auto).
  assert (Hcnd : NoDup (fids c)).
  { rewrite Hch, flat_map_app in Hnd. cbn [flat_map] in Hnd.
    apply NoDup_app_remove_l in Hnd. apply NoDup_app_remove_r in Hnd. exact Hnd. }
  destruct c as [d|d|ic nm cc kk]; [destruct Hbc|destruct Hbc|].
  destruct (fragment_id ic) eqn:Hic.
  2:{ exfalso. cbn [outline] in Hnbc. rewrite Hic in Hnbc.
      destruct (container_id ic); [|destruct Hnbc]. destruct Hnbc as [<-|[]].
      cbn [is_block] in Hb. rewrite Hic in Hb. discriminate. }
  assert (Hcm : mermaid_selector (Elem ic nm cc kk) = false).
  { cbn [is_block] in Hcb. rewrite Hic in Hcb. exact Hcb. }
  cbn [separate] in Hcs. rewrite Hic in Hcs.
  destruct (existsb is_block kk) eqn:Hholder.
  - apply Nat.eqb_eq in Hcs.
    destruct (@holder_step ic nm cc kk nb b m1 m2 Hic Hcnd Hcm Hholder Hcs Hc Hb Hid)
      as (-> & -> & _ & Hts).
    exists ic. subst ch.
    pose proof (@lift_siblings k1 (Elem ic nm cc kk) k2 nb b ic new [] []
                  Hnd Hsep Hnb Hbf Hbc Hts) as Hfs.
    replace (subst_forest new ic (k1 ++ Elem ic nm cc kk :: k2))
      with (k1 ++ new :: k2) by (apply (fs_new Hfs)).
    exact Hfs.
  - rewrite Forall_forall in IH.
    assert (Hkk : NoDup (flat_map fids kk)).
    { cbn [fids] in Hcnd. rewrite Hic in Hcnd. cbn [app] in Hcnd.
      apply NoDup_cons_iff in Hcnd. tauto. }
    assert (Hoc : flat_map outline kk = m1 ++ nb :: m2).
    { cbn [outline] in Hc. rewrite Hic, Hcm in Hc. exact Hc. }
    destruct (IH _ Hcin nb b m1 m2 Hkk Hcs Hholder Hoc Hb Hid) as (h & Hfs0).
    destruct (@lift_parent ic nm cc kk nb b h _ m1 m2 Hic Hcnd Hcm Hfs0) as (Hts & Hh).
    exists h. subst ch.
    pose proof (@lift_siblings k1 (Elem ic nm cc kk) k2 nb b h _ m1 m2
                  Hnd Hsep Hnb Hbf Hbc Hts) as Hfs.
    replace (subst_forest new h (k1 ++ Elem ic nm cc kk :: k2))
      with (k1 ++ Elem ic nm cc (subst_forest new h kk) :: k2) by (apply (fs_new Hfs)).
    exact Hfs.
Qed.

(** One successful turn of the loop, on the tree. *)
Lemma step_root t nb b l1 l2 :
  tree_ok t ->
  outline t = l1 ++ nb :: l2 ->
  is_block nb = true -> node_id nb = Some b ->
  exists h H g,
    lookup b t = Some nb /\ parent_in b t = Some h
    /\ parent_in h t = Some g /\ lookup h t = Some H
    /\ tree_ok (subst h new t)
    /\ outline (subst h new t) = l1 ++ new :: l2.
Proof.
  intros (i & name & cn & ch & -> & Hi & Hm & Hnd & Hwn) Hout Hb Hid.
  unfold well_nested in Hwn. apply andb_true_iff in Hwn. destruct Hwn as [Hnb Hsep].
  apply negb_true_iff in Hnb. cbn [children] in Hnb.
  cbn [separate] in Hsep. rewrite Hi, Hnb in Hsep.
  assert (Hndk : NoDup (flat_map fids ch)).
  { cbn [fids] in Hnd. rewrite Hi in Hnd. cbn [app] in Hnd.
    apply NoDup_cons_iff in Hnd. tauto. }
  assert (Hoc : flat_map outline ch = l1 ++ nb :: l2).
  { cbn [outline] in Hout. rewrite Hi, Hm in Hout. exact Hout. }
  destruct (@step_children (Elem i name cn ch) nb b l1 l2 Hndk Hsep Hnb Hoc Hb Hid)
    as (h & Hfs).
  cbn [children] in Hfs.
  destruct (@lift_parent i name cn ch nb b h _ l1 l2 Hi Hnd Hm Hfs) as (Hts & Hh).
  destruct Hts. destruct ts_holder0 as [H EH].
  destruct ts_attached0 as [E|[g Eg]]; [congruence|].
  change (subst h new (Elem i name cn ch))
    with (Elem i name cn (subst_forest new h ch)) in *.
  exists h, H, g. repeat split; try assumption.
  exists i, name, cn, (subst_forest new h ch). split; [reflexivity|].
  split; [exact Hi|]. split; [exact Hm|]. split; [exact ts_nodup0|].
  unfold well_nested.
  change (subst h new (Elem i name cn ch))
    with (Elem i name cn (subst_forest new h ch)).
  cbn [children]. rewrite (fs_no_block Hfs). cbn [negb andb]. exact ts_separate0.
Qed.

(** The same turn, on the nodes the script can reach. *)
Lemma step_dom t det nb b l1 l2 :
  tree_ok t ->
  outline t = l1 ++ nb :: l2 ->
  is_block nb = true -> node_id nb = Some b ->
  exists h t' det',
    textContent_of (Dom t det) b = textContent nb
    /\ parentElement (Dom t det) b = Some h
    /\ replaceWith (Dom t det) h new = Dom t' det'
    /\ tree_ok t'
    /\ outline t' = l1 ++ new :: l2.
Proof.
  intros Hok Hout Hb Hid.
  destruct (@step_root t nb b l1 l2 Hok Hout Hb Hid)
    as (h & H & g & E1 & E2 & E3 & E4 & Hok' & Hout').
  exists h, (subst h new t), (det ++ [H]).
  unfold textContent_of, parentElement, replaceWith, trees. cbn [container detached].
  cbn [find_map replace_in_trees]. rewrite E1, E2, E3, E4. auto.
Qed.

End Step.

(** *** The loop *)

Lemma svgDiv_unfold env i svg :
  svgDiv env i svg
  = Elem (Diagram i, []) (lit "div") (lit "mermaid-diagram")
         (alloc_children (Diagram i) [] 0 (parse_html env svg)).
Proof. unfold svgDiv. apply alloc_unfold. Qed.

Lemma svgDiv_fids env i svg : fids (svgDiv env i svg) = [].
Proof. apply fids_alloc_diagram. Qed.

Lemma svgDiv_outline env i svg : outline (svgDiv env i svg) = [svgDiv env i svg].
Proof. rewrite svgDiv_unfold. reflexivity. Qed.

Lemma svgDiv_not_block env i svg : is_block (svgDiv env i svg) = false.
Proof. rewrite svgDiv_unfold. reflexivity. Qed.

Lemma svgDiv_separate env i svg : separate (svgDiv env i svg) = true.
Proof. rewrite svgDiv_unfold. reflexivity. Qed.

(** The loop never throws, and turns the outline of the tree into what
    each block is materialised as. *)
Lemma loop_materialises env : forall rest i t det st done,
  tree_ok t ->
  outline t = done ++ rest ->
  Forall (fun nb => is_block nb = true) rest ->
  exists t' det' st',
    mermaid_loop env i (node_ids rest) (Dom t det) st = (Ok (Dom t' det'), st')
    /\ tree_ok t'
    /\ outline t' = done ++ materialised_from env i rest.
Proof.
  induction rest as [|nb rest IH]; intros i t det st done Hok Hout Hbl.
  - exists t, det, st. cbn [node_ids flat_map mermaid_loop materialised_from].
    unfold ret. auto.
  - inversion Hbl as [|? ? Hb Hrest]; subst.
    destruct nb as [d|d|b name cn ch]; try discriminate.
    set (nb := Elem b name cn ch) in *.
    assert (Hid : node_id nb = Some b) by reflexivity.
    assert (Hids : node_ids (nb :: rest) = b :: node_ids rest) by reflexivity.
    rewrite Hids. cbn [mermaid_loop materialised_from].
    assert (E1 : textContent_of (Dom t det) b = textContent nb).
    { destruct (@step_dom (svgDiv env i []) (svgDiv_fids env i [])
                  (svgDiv_outline env i []) (svgDiv_not_block env i [])
                  (svgDiv_separate env i []) t det nb b done rest Hok Hout Hb Hid)
        as (h & t' & det' & E1 & _).
      exact E1. }
    rewrite E1. unfold materialised.
    cbv [bind try_catch render_block modify lift ret throw].
    destruct (mermaid_render env (lit "mermaid-" ++ of_nat i) (textContent nb))
      as [svg|e] eqn:Hr.
    + destruct (@step_dom (svgDiv env i svg) (svgDiv_fids env i svg)
                  (svgDiv_outline env i svg) (svgDiv_not_block env i svg)
                  (svgDiv_separate env i svg) t det nb b done rest Hok Hout Hb Hid)
        as (h & t' & det' & _ & E2 & E3 & Hok' & Hout').
      rewrite E2, E3.
      destruct (IH (S i) t' det'
                  (record (CallMermaidRender (lit "mermaid-" ++ of_nat i) (textContent nb)) st)
                  (done ++ [svgDiv env i svg]) Hok')
        as (t'' & det'' & st'' & El & Hok'' & Hout'').
      * rewrite Hout', <- app_assoc. reflexivity.
      * exact Hrest.
      * exists t'', det'', st''. split; [exact El|]. split; [exact Hok''|].
        rewrite Hout'', <- app_assoc. reflexivity.
    + destruct (IH (S i) t det
                  (log e (record (CallMermaidRender (lit "mermaid-" ++ of_nat i)
                                                    (textContent nb)) st))
                  (done ++ [nb]) Hok)
        as (t'' & det'' & st'' & El & Hok'' & Hout'').
      * rewrite Hout, <- app_assoc. reflexivity.
      * exact Hrest.
      * exists t'', det'', st''. split; [exact El|]. split; [exact Hok''|].
        rewrite Hout'', <- app_assoc. reflexivity.
Qed.

(** *** The tree the function starts from *)

Lemma filter_flat_map {A B} (f : B -> bool) (g : A -> list B) l :
  filter f (flat_map g l) = flat_map (fun x => filter f (g x)) l.
Proof.
  induction l as [|x l IH]; [reflexivity|].
  cbn [flat_map]. rewrite filter_app, IH. reflexivity.
Qed.

(** In a tree just parsed the outline is what the selector finds. *)
Lemma outline_alloc : forall h p,
  outline (alloc Fragment p h)
  = filter mermaid_selector (subtree (alloc Fragment p h)).
Proof.
  induction h as [d|d|u name cn ch IH] using node_induction; intros p;
    [reflexivity|reflexivity|].
  rewrite alloc_unfold. cbn [outline fragment_id fst subtree filter].
  assert (E : flat_map outline (alloc_children Fragment p 0 ch)
              = filter mermaid_selector
                  (flat_map (@subtree nid) (alloc_children Fragment p 0 ch))).
  { rewrite filter_flat_map. generalize 0.
    induction ch as [|c ch IHch]; intros j; [reflexivity|].
    inversion IH as [|? ? Hc Hch]; subst.
    cbn [alloc_children flat_map]. rewrite Hc, IHch by exact Hch. reflexivity. }
  rewrite E.
  destruct (mermaid_selector
              (Elem (Fragment, p) name cn (alloc_children Fragment p 0 ch)));
    reflexivity.
Qed.

Lemma outline_alloc_blocks : forall h p x,
  In x (outline (alloc Fragment p h)) -> is_block x = true.
Proof.
  induction h as [d|d|u name cn ch IH] using node_induction; intros p x Hx;
    [destruct Hx|destruct Hx|].
  rewrite alloc_unfold in Hx. cbn [outline fragment_id fst] in Hx.
  apply in_app_or in Hx. destruct Hx as [Hx|Hx].
  - destruct (mermaid_selector
                (Elem (Fragment, p) name cn (alloc_children Fragment p 0 ch))) eqn:E;
      [|destruct Hx].
    destruct Hx as [<-|[]]. cbn [is_block fragment_id fst]. rewrite E. reflexivity.
  - revert Hx. generalize 0. induction ch as [|c ch IHch]; intros j Hx; [destruct Hx|].
    inversion IH as [|? ? Hc Hch]; subst.
    cbn [alloc_children flat_map] in Hx. apply in_app_or in Hx.
    destruct Hx as [Hx|Hx]; [eapply Hc; eauto|eapply IHch; eauto].
Qed.

Lemma tempDiv_unfold env html :
  tempDiv_of env html
  = Elem (Fragment, []) (lit "div") []
         (alloc_children Fragment [] 0 (parse_html env html)).
Proof. unfold tempDiv_of. apply alloc_unfold. Qed.

Lemma tempDiv_outline env html :
  outline (tempDiv_of env html)
  = querySelectorAll mermaid_selector (tempDiv_of env html).
Proof.
  unfold tempDiv_of at 1. rewrite outline_alloc. fold (tempDiv_of env html).
  rewrite tempDiv_unfold. reflexivity.
Qed.

Lemma tempDiv_ok env html :
  well_nested (tempDiv_of env html) = true -> tree_ok (tempDiv_of env html).
Proof.
  intros H. rewrite tempDiv_unfold in *.
  eexists _, _, _, _. split; [reflexivity|]. split; [reflexivity|].
  split; [reflexivity|]. split; [|exact H].
  rewrite <- tempDiv_unfold. apply fids_alloc_NoDup.
Qed.

Lemma tempDiv_blocks env html :
  Forall (fun nb => is_block nb = true)
         (querySelectorAll mermaid_selector (tempDiv_of env html)).
Proof.
  rewrite <- tempDiv_outline. apply Forall_forall. intros x Hx.
  eapply outline_alloc_blocks. exact Hx.
Qed.

Lemma materialised_from_nth env : forall l i j nb,
  nth_error l j = Some nb ->
  nth_error (materialised_from env i l) j = Some (materialised env (i + j) nb).
Proof.
  induction l as [|x l IH]; intros i j nb H; [destruct j; discriminate|].
  destruct j as [|j]; cbn [nth_error materialised_from] in *.
  - injection H as ->. rewrite Nat.add_0_r. reflexivity.
  - rewrite (IH (S i) j nb H). f_equal. f_equal. lia.
Qed.

Lemma materialised_from_length env : forall l i,
  length (materialised_from env i l) = length l.
Proof. induction l as [|x l IH]; intros i; simpl; auto. Qed.

(** [processMermaidDiagrams] on a well-nested fragment, whatever the
    renderer does: it returns, and the new [parsedHtml] is the
    serialisation of a tree whose outline is the diagram blocks, each
    materialised. *)
Lemma processMermaidDiagrams_materialises env st :
  well_nested (tempDiv_of env (parsedHtml st)) = true ->
  exists out st',
    processMermaidDiagrams env st = (Ok tt, st')
    /\ parsedHtml st' = serialize_html env (map erase out)
    /\ flat_map outline out
       = materialised_from env 0
           (querySelectorAll mermaid_selector (tempDiv_of env (parsedHtml st))).
Proof.
  intros Hwn.
  destruct (@loop_materialises env
              (querySelectorAll mermaid_selector (tempDiv_of env (parsedHtml st)))
              0 (tempDiv_of env (parsedHtml st)) []
              (record CallProcessMermaidDiagrams st) []
              (tempDiv_ok env _ Hwn) (tempDiv_outline env _) (tempDiv_blocks env _))
    as (t' & det' & st' & El & Hok' & Hout').
  destruct Hok' as (i & name & cn & ch & -> & Hi & Hm & _).
  exists ch. eexists.
  unfold processMermaidDiagrams. cbv [bind modify read].
  change (parsedHtml (record CallProcessMermaidDiagrams st)) with (parsedHtml st).
  rewrite El. cbn [container children]. split; [reflexivity|].
  split; [reflexivity|].
  cbn [outline] in Hout'. rewrite Hi, Hm in Hout'. exact Hout'.
Qed.

End MermaidFacts.

(** ** Mermaid diagrams: one renderer call fails *)

Module Mermaid.
Import JS Dom App MermaidFacts Vocabulary Samples.

Lemma filter_partition_length {A} (f g : A -> bool) (l : list A) :
  (forall x, In x l -> g x = negb (f x)) ->
  length (filter g l) = length l - length (filter f l).
Proof.
  induction l as [|x l IH]; intros H; [reflexivity|].
  cbn [filter]. rewrite (H x (or_introl eq_refl)).
  pose proof (filter_length_le f l).
  destruct (f x); cbn [negb length]; rewrite IH by (intros; apply H; right; auto); lia.
Qed.

(** Of the materialised blocks exactly the one whose rendering threw is
    still a diagram block. *)
Lemma count_original env k : forall l i,
  Forall (fun nb => is_block nb = true) l ->
  (forall j nb, nth_error l j = Some nb ->
     if Nat.eqb (S (i + j)) k
     then exists e, mermaid_render env (diagram_id (i + j)) (textContent nb) = Throw e
     else exists svg, mermaid_render env (diagram_id (i + j)) (textContent nb) = Ok svg) ->
  length (filter is_block (materialised_from env i l))
  = if (Nat.ltb i k && Nat.leb k (i + length l))%bool then 1 else 0.
Proof.
  induction l as [|nb l IH]; intros i Hbl H.
  - cbn [materialised_from filter length].
    destruct (Nat.ltb_spec i k), (Nat.leb_spec k (i + 0)); cbn [andb]; auto; lia.
  - inversion Hbl as [|? ? Hb Hrest]; subst.
    pose proof (H 0 nb eq_refl) as H0. rewrite Nat.add_0_r in H0.
    assert (Hl : forall j nb', nth_error l j = Some nb' ->
              if Nat.eqb (S (S i + j)) k
              then exists e, mermaid_render env (diagram_id (S i + j)) (textContent nb') = Throw e
              else exists svg, mermaid_render env (diagram_id (S i + j)) (textContent nb') = Ok svg).
    { intros j nb' Hj. specialize (H (S j) nb' Hj).
      replace (i + S j) with (S i + j) in H by lia. exact H. }
    specialize (IH (S i) Hrest Hl).
    cbn [materialised_from filter length]. unfold materialised at 1.
    fold (diagram_id i).
    destruct (Nat.eqb_spec (S i) k) as [E|E].
    + destruct H0 as [e He]. rewrite He, Hb. cbn [length]. rewrite IH.
      destruct (Nat.ltb_spec (S i) k), (Nat.leb_spec k (S i + length l)),
               (Nat.ltb_spec i k), (Nat.leb_spec k (i + S (length l)));
        cbn [andb]; lia.
    + destruct H0 as [svg Hs]. rewrite Hs, svgDiv_not_block. rewrite IH.
      destruct (Nat.ltb_spec (S i) k), (Nat.leb_spec k (S i + length l)),
               (Nat.ltb_spec i k), (Nat.leb_spec k (i + S (length l)));
        cbn [andb]; lia.
Qed.

Lemma materialised_kind env i nb :
  is_block nb = true ->
  is_container (materialised env i nb) = negb (is_block (materialised env i nb)).
Proof.
  intros Hb. unfold materialised.
  destruct (mermaid_render env (lit "mermaid-" ++ of_nat i) (textContent nb)).
  - rewrite svgDiv_not_block, svgDiv_unfold. reflexivity.
  - rewrite Hb. destruct nb as [d|d|[o p] name cn ch]; try discriminate.
    cbn [is_block] in Hb. apply andb_true_iff in Hb. destruct Hb as [Hf _].
    destruct o; [reflexivity|discriminate].
Qed.

Lemma materialised_from_kind env : forall l i x,
  Forall (fun nb => is_block nb = true) l ->
  In x (materialised_from env i l) -> is_container x = negb (is_block x).
Proof.
  induction l as [|nb l IH]; intros i x Hbl Hx; [destruct Hx|].
  inversion Hbl as [|? ? Hb Hrest]; subst.
  cbn [materialised_from] in Hx. destruct Hx as [<-|Hx].
  - apply materialised_kind. exact Hb.
  - eapply IH; eauto.
Qed.

(** C3, as stated, fails: of two diagram blocks in one [pre], the first
    is rendered and its container replaces the [pre], the second block
    with it; the second rendering throws. Nothing is thrown further,
    but the output holds one container and no diagram block, where the
    claim has the second block still in place. *)
Lemma shared_parent_loses_block :
  length (diagram_blocks shared_parent_platform initial_state) = 2
  /\ only_fails shared_parent_platform 2
       (diagram_blocks shared_parent_platform initial_state)
  /\ (exists d st',
        mermaid_loop shared_parent_platform 0
          (node_ids (diagram_blocks shared_parent_platform initial_state))
          (Dom (tempDiv_of shared_parent_platform []) []) initial_state
        = (Ok d, st')
        /\ length (filter is_container (outline (container d))) = 1
        /\ filter is_block (outline (container d)) = [])
  /\ exists st',
       processMermaidDiagrams shared_parent_platform initial_state = (Ok tt, st')
       /\ parsedHtml st' = lit "<div class=mermaid-diagram><svg></svg></div>".
Proof.
  split; [reflexivity|]. split; [|split].
  - intros [|[|i]] nb H; try (destruct i; discriminate);
      cbn in H; injection H as <-; eexists; reflexivity.
  - eexists. eexists. split; [vm_compute; reflexivity|]. split; reflexivity.
  - eexists. split; [vm_compute; reflexivity|]. reflexivity.
Qed.

(** C3 (amended). Let every diagram block of the fragment have a parent
    element inside the fragment, below which there is no other diagram
    block. If the [k]-th rendering throws and all the others return,
    [processMermaidDiagrams] returns without an exception, and the
    tree it serialises shows, in document order, as many landmarks as
    there were blocks: at position [k] the original block, at every
    other position the container with that block's rendering; so one
    original block and [N - 1] containers. *)
Theorem one_failing_diagram (env : Platform) (st : state) (k : nat) :
  well_nested (tempDiv_of env (parsedHtml st)) = true ->
  1 <= k <= length (diagram_blocks env st) ->
  only_fails env k (diagram_blocks env st) ->
  exists out st',
    processMermaidDiagrams env st = (Ok tt, st')
    /\ parsedHtml st' = serialize_html env (map erase out)
    /\ length (flat_map outline out) = length (diagram_blocks env st)
    /\ nth_error (flat_map outline out) (k - 1)
       = nth_error (diagram_blocks env st) (k - 1)
    /\ (forall i nb,
          S i <> k -> nth_error (diagram_blocks env st) i = Some nb ->
          exists svg,
            mermaid_render env (diagram_id i) (textContent nb) = Ok svg
            /\ nth_error (flat_map outline out) i = Some (svgDiv env i svg))
    /\ length (filter is_block (flat_map outline out)) = 1
    /\ length (filter is_container (flat_map outline out))
       = length (diagram_blocks env st) - 1.
Proof.
  intros Hwn Hk Hfail.
  destruct (processMermaidDiagrams_materialises env st Hwn)
    as (out & st' & Hrun & Hhtml & Hout).
  fold (diagram_blocks env st) in Hout.
  pose proof (tempDiv_blocks env (parsedHtml st)) as Hbl.
  fold (diagram_blocks env st) in Hbl.
  set (blocks := diagram_blocks env st) in *.
  assert (Hcount : length (filter is_block (flat_map outline out)) = 1).
  { rewrite Hout, (@count_original env k blocks 0 Hbl Hfail).
    destruct (Nat.ltb_spec 0 k), (Nat.leb_spec k (0 + length blocks));
      cbn [andb]; lia. }
  exists out, st'. split; [exact Hrun|]. split; [exact Hhtml|].
  split; [rewrite Hout; apply materialised_from_length|].
  split; [|split; [|split; [exact Hcount|]]].
  - destruct (nth_error blocks (k - 1)) as [nb|] eqn:Hnb.
    + rewrite Hout, (materialised_from_nth env blocks 0 _ Hnb). cbn [Nat.add].
      pose proof (Hfail _ _ Hnb) as Hf.
      replace (S (k - 1)) with k in Hf by lia. rewrite Nat.eqb_refl in Hf.
      destruct Hf as [e He]. unfold materialised. fold (diagram_id (k - 1)).
      rewrite He. reflexivity.
    + apply nth_error_None in Hnb. lia.
  - intros i nb Hi Hnb. pose proof (Hfail _ _ Hnb) as Hf.
    apply Nat.eqb_neq in Hi. rewrite Hi in Hf. destruct Hf as [svg Hs].
    exists svg. split; [exact Hs|].
    rewrite Hout, (materialised_from_nth env blocks 0 _ Hnb). cbn [Nat.add].
    unfold materialised. fold (diagram_id i). rewrite Hs. reflexivity.
  - rewrite (@filter_partition_length _ is_block is_container).
    + rewrite Hcount, Hout, materialised_from_length. reflexivity.
    + intros x Hx. rewrite Hout in Hx. eapply materialised_from_kind; eauto.
Qed.

(** The amended C3 at three fences of which the second does not
    parse: the function returns, and of the three places two hold a
    container and the second the block as it was. *)
Lemma one_failing_diagram_witness :
  well_nested (tempDiv_of three_fences_platform (parsedHtml initial_state)) = true
  /\ 1 <= 2 <= length (diagram_blocks three_fences_platform initial_state)
  /\ only_fails three_fences_platform 2
       (diagram_blocks three_fences_platform initial_state)
  /\ exists out st',
       processMermaidDiagrams three_fences_platform initial_state = (Ok tt, st')
       /\ length (flat_map outline out) = 3
       /\ nth_error (flat_map outline out) 1
          = nth_error (diagram_blocks three_fences_platform initial_state) 1.
Proof.
  assert (H1 : well_nested (tempDiv_of three_fences_platform
                              (parsedHtml initial_state)) = true)
    by reflexivity.
  assert (H2 : 1 <= 2 <= length (diagram_blocks three_fences_platform initial_state))
    by (vm_compute; lia).
  assert (H3 : only_fails three_fences_platform 2
                 (diagram_blocks three_fences_platform initial_state)).
  { intros [|[|[|i]]] nb H; try (destruct i; discriminate);
      cbn in H; injection H as <-; eexists; reflexivity. }
  split; [exact H1|]. split; [exact H2|]. split; [exact H3|].
  destruct (@one_failing_diagram three_fences_platform initial_state 2 H1 H2 H3)
    as (out & st' & Hrun & _ & Hlen & Hk & _).
  exists out, st'. split; [exact Hrun|]. split; [exact Hlen|exact Hk].
Defined.

(** What [processMermaidDiagrams] leaves of the three fences: a
    container, the paragraph, the fence that did not parse, a container. *)
Example three_fences_materialised :
  exists st',
    processMermaidDiagrams three_fences_platform initial_state = (Ok tt, st')
    /\ parsedHtml st'
       = lit "<div class=mermaid-diagram><svg></svg></div><p>text</p>"
         ++ lit "<blockquote><pre><code class=language-mermaid>oops</code></pre></blockquote>"
         ++ lit "<div class=mermaid-diagram><svg></svg></div>".
Proof. eexists. split; [vm_compute; reflexivity|]. reflexivity. Qed.

End Mermaid.

(** ** Reading a file: the pipeline *)

Module Pipeline.
Import JS Regex Dom App Vocabulary Samples FrontMatterFacts FrontMatter.

Lemma quiet_refl st : quiet st st.
Proof. repeat split. Qed.

Lemma quiet_trans a b c : quiet a b -> quiet b c -> quiet a c.
Proof.
  unfold quiet. intros (A1 & A2 & A3 & A4 & A5 & A6 & A7) (B1 & B2 & B3 & B4 & B5 & B6 & B7).
  repeat split; congruence.
Qed.

(** [extractMetadata] returns, whatever the content and the loader,
    and writes only to the console and the record of calls; the value
    depends on the state through [selectedFile] alone. *)
Lemma extractMetadata_returns env content st :
  exists md st',
    extractMetadata env content st = (Ok md, st') /\ quiet st st'
    /\ forall st2, selectedFile st2 = selectedFile st ->
                   fst (extractMetadata env content st2) = Ok md.
Proof.
  destruct (front_matter_cases content) as [[i|] H].
  - pose proof (extractMetadata_block env (interior := i) st H) as E.
    assert (E2 : forall st2, extractMetadata env content st2 = _)
      by (intros st2; exact (extractMetadata_block env (interior := i) st2 H)).
    cbv zeta in E, E2.
    destruct (jsyaml_load env i) as [v|e].
    + destruct (metadata_of_value env v) as [md|e].
      * eexists _, _. split; [exact E|]. split; [repeat split|].
        intros st2 _. rewrite E2. reflexivity.
      * eexists _, _. split; [exact E|]. split; [repeat split|].
        intros st2 Hs. rewrite E2, Hs. reflexivity.
    + eexists _, _. split; [exact E|]. split; [repeat split|].
      intros st2 Hs. rewrite E2, Hs. reflexivity.
  - eexists _, _. split; [exact (extractMetadata_no_block env st H)|].
    split; [repeat split|].
    intros st2 Hs. rewrite (extractMetadata_no_block env st2 H), Hs. reflexivity.
Qed.

(** The loop over the diagram blocks never throws; it calls the
    renderer once for every block, in order. *)
Lemma mermaid_loop_attempts env : forall blocks i d st,
  exists d' st' codes warnings,
    mermaid_loop env i blocks d st = (Ok d', st')
    /\ length codes = length blocks
    /\ calls st' = calls st ++ render_calls i codes
    /\ console st' = console st ++ warnings
    /\ length warnings <= length blocks
    /\ quiet st st'.
Proof.
  induction blocks as [|b blocks IH]; intros i d st.
  - exists d, st, [], []. cbn. rewrite !app_nil_r. repeat split; auto.
  - cbn [mermaid_loop].
    cbv [bind try_catch render_block modify lift ret throw].
    set (code := textContent_of d b).
    fold (diagram_id i).
    set (st1 := record (CallMermaidRender (diagram_id i) code) st).
    destruct (mermaid_render env (diagram_id i) code) as [svg|e].
    + destruct (parentElement d b) as [parent|].
      * destruct (IH (S i) (replaceWith d parent (svgDiv env i svg)) st1)
          as (d' & st' & codes & ws & E & Hl & Hc & Hw & Hn & Hq).
        exists d', st', (code :: codes), ws. split; [exact E|].
        split; [simpl; lia|]. split; [rewrite Hc; unfold st1; cbn; rewrite <- app_assoc; reflexivity|].
        split; [exact Hw|]. split; [simpl; lia|].
        eapply quiet_trans; [|exact Hq]. repeat split.
      * destruct (IH (S i) d (log (Error (lit "Cannot read properties of null")) st1))
          as (d' & st' & codes & ws & E & Hl & Hc & Hw & Hn & Hq).
        exists d', st', (code :: codes), (Error (lit "Cannot read properties of null") :: ws).
        split; [exact E|].
        split; [simpl; lia|]. split; [rewrite Hc; unfold st1; cbn; rewrite <- app_assoc; reflexivity|].
        split; [rewrite Hw; cbn; rewrite <- app_assoc; reflexivity|]. split; [simpl; lia|].
        eapply quiet_trans; [|exact Hq]. repeat split.
    + destruct (IH (S i) d (log e st1))
        as (d' & st' & codes & ws & E & Hl & Hc & Hw & Hn & Hq).
      exists d', st', (code :: codes), (e :: ws).
      split; [exact E|].
      split; [simpl; lia|]. split; [rewrite Hc; unfold st1; cbn; rewrite <- app_assoc; reflexivity|].
      split; [rewrite Hw; cbn; rewrite <- app_assoc; reflexivity|]. split; [simpl; lia|].
      eapply quiet_trans; [|exact Hq]. repeat split.
Qed.


Lemma selected_are_elements (I : Type) (name cls : jsstring) (l : list (node I)) :
  Forall (fun n => exists i nm cn ch, n = Elem i nm cn ch)
         (filter (matches_type_class name cls) l).
Proof.
  apply Forall_forall. intros n Hn. apply filter_In in Hn. destruct Hn as [_ Hn].
  destruct n as [d|d|i nm cn ch]; try discriminate. eauto.
Qed.

Lemma node_ids_length (l : list (node nid)) :
  Forall (fun n => exists i nm cn ch, n = Elem i nm cn ch) l ->
  length (node_ids l) = length l.
Proof.
  induction 1 as [|n l (i & nm & cn & ch & ->) _ IH]; [reflexivity|].
  cbn. unfold node_ids in IH. rewrite IH. reflexivity.
Qed.

(** [processMermaidDiagrams] in general. *)
Lemma processMermaidDiagrams_returns env st :
  exists st' codes warnings,
    processMermaidDiagrams env st = (Ok tt, st')
    /\ length codes = length (diagram_blocks env st)
    /\ calls st' = calls st ++ CallProcessMermaidDiagrams :: render_calls 0 codes
    /\ console st' = console st ++ warnings
    /\ length warnings <= length (diagram_blocks env st)
    /\ selectedFile st' = selectedFile st
    /\ markdownContent st' = markdownContent st
    /\ metadata st' = metadata st
    /\ screen st' = screen st
    /\ saved st' = saved st
    /\ body st' = body st.
Proof.
  unfold processMermaidDiagrams. cbv [bind modify read].
  change (parsedHtml (record CallProcessMermaidDiagrams st)) with (parsedHtml st).
  fold (diagram_blocks env st).
  destruct (mermaid_loop_attempts env (node_ids (diagram_blocks env st)) 0
              (Dom (tempDiv_of env (parsedHtml st)) [])
              (record CallProcessMermaidDiagrams st))
    as (d' & st' & codes & ws & E & Hl & Hc & Hw & Hn & Hq).
  rewrite E.
  assert (Hlen : length (node_ids (diagram_blocks env st)) = length (diagram_blocks env st)).
  { apply node_ids_length. unfold diagram_blocks, querySelectorAll.
    apply selected_are_elements. }
  rewrite Hlen in *.
  destruct Hq as (Q1 & Q2 & Q3 & Q4 & Q5 & Q6 & Q7).
  eexists _, codes, ws. split; [reflexivity|].
  split; [exact Hl|].
  split; [cbn; rewrite Hc; cbn; rewrite <- app_assoc; reflexivity|].
  split; [exact Hw|]. split; [exact Hn|].
  cbn. repeat split; assumption.
Qed.

(** [processFile], step by step. *)
Lemma processFile_eval env file st :
  processFile env file st
  = if negb (accepted env file) then
      (Ok tt, show (ShowError MSG_UNSUPPORTED_FORMAT) st)
    else if N.ltb MAX_SIZE (size file) then
      (Ok tt, show (ShowError MSG_FILE_TOO_LARGE) st)
    else
      let st0 := record (CallReadFileAsText file) (set_selectedFile (Some file) st) in
      match readAsText env file with
      | None =>
          (Ok tt, show (ShowError (MSG_READ_ERROR_PREFIX ++ MSG_CANNOT_READ)) st0)
      | Some content =>
          match extractMetadata env content (set_markdownContent content st0) with
          | (Ok md, st1) =>
              let st2 := record (CallMdRender (removeFrontMatter content))
                           (record (CallRemoveFrontMatter content) (set_metadata md st1)) in
              match md_render env (removeFrontMatter content) with
              | Ok html =>
                  match processMermaidDiagrams env (set_parsedHtml html st2) with
                  | (Ok _, st3) =>
                      (Ok tt, show (DisplayPreview (parsedHtml st3))
                                (show (DisplayFileInfo file) st3))
                  | (Throw e, st3) =>
                      (Ok tt, show (ShowError (MSG_READ_ERROR_PREFIX ++ message e)) st3)
                  end
              | Throw e =>
                  (Ok tt, show (ShowError (MSG_READ_ERROR_PREFIX ++ message e)) st2)
              end
          | (Throw e, st1) =>
              (Ok tt, show (ShowError (MSG_READ_ERROR_PREFIX ++ message e)) st1)
          end
      end.
Proof.
  unfold processFile, accepted, extension_of.
  destruct (negb _); [reflexivity|].
  destruct (N.ltb MAX_SIZE (size file)); [reflexivity|].
  cbv [bind try_catch modify readFileAsText showError ret throw lift read].
  destruct (readAsText env file) as [content|]; [|reflexivity].
  cbv zeta.
  destruct (extractMetadata env content _) as [[md|e] st1]; [|reflexivity].
  destruct (md_render env (removeFrontMatter content)) as [html|e]; [|reflexivity].
  destruct (processMermaidDiagrams env _) as [[[]|e] st3]; reflexivity.
Qed.

(** [processFile] ends in one of two ways. *)
Lemma processFile_returns (env : Platform) (file : File) (st : state) :
  exists st',
    processFile env file st = (Ok tt, st')
    /\ ((exists msg, screen st' = screen st ++ [ShowError msg])
        \/ (screen st' = screen st ++ [DisplayFileInfo file; DisplayPreview (parsedHtml st')]
            /\ selectedFile st' = Some file))
    /\ saved st' = saved st
    /\ body st' = body st.
Proof.
  rewrite processFile_eval.
  destruct (negb (accepted env file));
    [eexists; split; [reflexivity|]; split; [left; eexists; reflexivity|split; reflexivity]|].
  destruct (N.ltb MAX_SIZE (size file));
    [eexists; split; [reflexivity|]; split; [left; eexists; reflexivity|split; reflexivity]|].
  cbv zeta.
  destruct (readAsText env file) as [content|];
    [|eexists; split; [reflexivity|]; split; [left; eexists; reflexivity|split; reflexivity]].
  destruct (extractMetadata_returns env content
              (set_markdownContent content
                 (record (CallReadFileAsText file) (set_selectedFile (Some file) st))))
    as (md & st1 & E1 & Q1 & _).
  rewrite E1.
  destruct Q1 as (A1 & A2 & A3 & A4 & A5 & A6 & A7). cbn in A1, A2, A3, A4, A5, A6, A7.
  destruct (md_render env (removeFrontMatter content)) as [html|e].
  - destruct (processMermaidDiagrams_returns env
                (set_parsedHtml html
                   (record (CallMdRender (removeFrontMatter content))
                      (record (CallRemoveFrontMatter content) (set_metadata md st1)))))
      as (st3 & codes & ws & E3 & _ & _ & _ & _ & B1 & B2 & B3 & B4 & B5 & B6).
    rewrite E3. cbn in B1, B2, B3, B4, B5, B6.
    eexists; split; [reflexivity|]. split; [right|split].
    + split; [cbn; rewrite B4, A5, <- app_assoc; reflexivity|].
      cbn. rewrite B1, A1. reflexivity.
    + cbn. congruence.
    + cbn. congruence.
  - eexists; split; [reflexivity|]. split; [left; eexists; cbn; rewrite A5; reflexivity|].
    cbn. split; congruence.
Qed.












End Pipeline.

(** ** Mermaid diagrams: every block, any failures *)

Module Diagrams.
Import JS Dom App MermaidFacts Vocabulary Samples Pipeline.

(** X5. [processMermaidDiagrams] never throws. It calls the renderer once
    for every diagram block of the fragment, with the identifiers
    [mermaid-0], [mermaid-1] and so on in this order: a rendering that
    fails does not end the loop. It logs one warning per block at most,
    and of the module's variables it changes [parsedHtml] only; nothing
    is shown or saved. *)
Theorem every_diagram_is_attempted (env : Platform) (st : state) :
  exists st' codes warnings,
    processMermaidDiagrams env st = (Ok tt, st')
    /\ length codes = length (diagram_blocks env st)
    /\ calls st' = calls st ++ CallProcessMermaidDiagrams :: render_calls 0 codes
    /\ console st' = console st ++ warnings
    /\ length warnings <= length (diagram_blocks env st)
    /\ selectedFile st' = selectedFile st
    /\ markdownContent st' = markdownContent st
    /\ metadata st' = metadata st
    /\ screen st' = screen st
    /\ saved st' = saved st
    /\ body st' = body st.
Proof. apply processMermaidDiagrams_returns. Qed.

(** The loop on a well-nested tree, with what it records. *)
Lemma loop_log env : forall rest i t det st done,
  tree_ok t ->
  outline t = done ++ rest ->
  Forall (fun nb => is_block nb = true) rest ->
  exists t' det' st',
    mermaid_loop env i (node_ids rest) (Dom t det) st = (Ok (Dom t' det'), st')
    /\ tree_ok t'
    /\ outline t' = done ++ materialised_from env i rest
    /\ calls st' = calls st ++ render_calls i (map (@textContent nid) rest)
    /\ console st' = console st ++ warnings_from env i rest.
Proof.
  induction rest as [|nb rest IH]; intros i t det st done Hok Hout Hbl.
  - exists t, det, st. cbn [node_ids flat_map mermaid_loop materialised_from map
                            render_calls warnings_from].
    unfold ret. rewrite !app_nil_r. rewrite app_nil_r in Hout. repeat split; auto.
  - inversion Hbl as [|? ? Hb Hrest]; subst.
    destruct nb as [d|d|b name cn ch]; try discriminate.
    set (nb := Elem b name cn ch) in *.
    assert (Hid : node_id nb = Some b) by reflexivity.
    assert (Hids : node_ids (nb :: rest) = b :: node_ids rest) by reflexivity.
    rewrite Hids. cbn [mermaid_loop materialised_from map render_calls warnings_from].
    assert (E1 : textContent_of (Dom t det) b = textContent nb).
    { destruct (@step_dom (svgDiv env i []) (svgDiv_fids env i [])
                  (svgDiv_outline env i []) (svgDiv_not_block env i [])
                  (svgDiv_separate env i []) t det nb b done rest Hok Hout Hb Hid)
        as (h & t' & det' & E1 & _).
      exact E1. }
    rewrite E1. unfold materialised.
    cbv [bind try_catch render_block modify lift ret throw].
    fold (diagram_id i).
    destruct (mermaid_render env (diagram_id i) (textContent nb))
      as [svg|e] eqn:Hr.
    + destruct (@step_dom (svgDiv env i svg) (svgDiv_fids env i svg)
                  (svgDiv_outline env i svg) (svgDiv_not_block env i svg)
                  (svgDiv_separate env i svg) t det nb b done rest Hok Hout Hb Hid)
        as (h & t' & det' & _ & E2 & E3 & Hok' & Hout').
      rewrite E2, E3.
      destruct (IH (S i) t' det'
                  (record (CallMermaidRender (diagram_id i) (textContent nb)) st)
                  (done ++ [svgDiv env i svg]) Hok')
        as (t'' & det'' & st'' & El & Hok'' & Hout'' & Hc & Hw).
      * rewrite Hout', <- app_assoc. reflexivity.
      * exact Hrest.
      * exists t'', det'', st''. split; [exact El|]. split; [exact Hok''|].
        split; [rewrite Hout'', <- app_assoc; reflexivity|].
        split; [rewrite Hc; cbn; rewrite <- app_assoc; reflexivity|].
        rewrite Hw. reflexivity.
    + destruct (IH (S i) t det
                  (log e (record (CallMermaidRender (diagram_id i) (textContent nb)) st))
                  (done ++ [nb]) Hok)
        as (t'' & det'' & st'' & El & Hok'' & Hout'' & Hc & Hw).
      * rewrite Hout, <- app_assoc. reflexivity.
      * exact Hrest.
      * exists t'', det'', st''. split; [exact El|]. split; [exact Hok''|].
        split; [rewrite Hout'', <- app_assoc; reflexivity|].
        split; [rewrite Hc; cbn; rewrite <- app_assoc; reflexivity|].
        rewrite Hw. cbn. rewrite <- app_assoc. reflexivity.
Qed.

(** X6. On a well-nested fragment every diagram block is decided by its
    own rendering alone, however many renderings fail: in document
    order the tree that is serialised shows, in the place of the [i]-th
    block, the container with its rendering if [mermaid.render]
    returned for the block's text, and the block itself if it threw.
    The renderer is given the text of each block as it was parsed, and
    the console receives exactly the exceptions thrown, in order. *)
Theorem each_diagram_on_its_own (env : Platform) (st : state) :
  well_nested (tempDiv_of env (parsedHtml st)) = true ->
  exists out st',
    processMermaidDiagrams env st = (Ok tt, st')
    /\ parsedHtml st' = serialize_html env (map erase out)
    /\ length (flat_map outline out) = length (diagram_blocks env st)
    /\ (forall i nb,
          nth_error (diagram_blocks env st) i = Some nb ->
          nth_error (flat_map outline out) i
          = Some match mermaid_render env (diagram_id i) (textContent nb) with
                 | Ok svg => svgDiv env i svg
                 | Throw _ => nb
                 end)
    /\ calls st'
       = calls st ++ CallProcessMermaidDiagrams
                     :: render_calls 0 (map (@textContent nid) (diagram_blocks env st))
    /\ console st' = console st ++ warnings_from env 0 (diagram_blocks env st).
Proof.
  intros Hwn.
  destruct (@loop_log env (diagram_blocks env st) 0 (tempDiv_of env (parsedHtml st)) []
              (record CallProcessMermaidDiagrams st) []
              (tempDiv_ok env _ Hwn) (tempDiv_outline env _) (tempDiv_blocks env _))
    as (t' & det' & st' & El & Hok' & Hout' & Hc & Hw).
  destruct Hok' as (i & name & cn & ch & -> & Hi & Hm & _).
  exists ch. eexists.
  unfold processMermaidDiagrams. cbv [bind modify read].
  change (parsedHtml (record CallProcessMermaidDiagrams st)) with (parsedHtml st).
  fold (diagram_blocks env st).
  rewrite El. cbn [container children]. split; [reflexivity|].
  split; [reflexivity|].
  cbn [outline] in Hout'. rewrite Hi, Hm in Hout'. cbn [app] in Hout'.
  split; [rewrite Hout'; apply materialised_from_length|].
  split; [|split].
  - intros j nb Hj. rewrite Hout', (materialised_from_nth env _ 0 _ Hj). reflexivity.
  - cbn. rewrite Hc. cbn. rewrite <- app_assoc. reflexivity.
  - cbn. exact Hw.
Qed.

(** X6 at three fences of which the second does not parse: one
    warning, three places. *)
Lemma each_diagram_on_its_own_witness :
  well_nested (tempDiv_of three_fences_platform (parsedHtml initial_state)) = true
  /\ exists out st',
       processMermaidDiagrams three_fences_platform initial_state = (Ok tt, st')
       /\ length (flat_map outline out) = 3
       /\ console st' = [Error (lit "Parse error on line 1")].
Proof.
  assert (H1 : well_nested (tempDiv_of three_fences_platform
                              (parsedHtml initial_state)) = true)
    by reflexivity.
  split; [exact H1|].
  destruct (@each_diagram_on_its_own three_fences_platform initial_state H1)
    as (out & st' & Hrun & _ & Hlen & _ & _ & Hw).
  exists out, st'. split; [exact Hrun|]. split; [exact Hlen|exact Hw].
Defined.

End Diagrams.

(** ** Pagination: every page *)

Module Pages.
Import JS App Vocabulary Samples Pdf.

Lemma addImage_addPage pdf pl :
  addImage (addPage pdf) pl = MkPdf (pages pdf ++ [[pl]]).
Proof.
  unfold addImage, addPage. cbn [pages]. rewrite rev_app_distr. cbn [rev app].
  rewrite rev_involutive. reflexivity.
Qed.

Lemma inject_nat_S n : (inject_Z (Z.of_nat (S n)) == inject_Z (Z.of_nat n) + 1)%Q.
Proof. rewrite Nat2Z.inj_succ. unfold Z.succ. rewrite inject_Z_plus. reflexivity. Qed.

Lemma imgHeight_nonneg canvas : (0 <= imgHeight_of canvas)%Q.
Proof.
  unfold imgHeight_of. apply Qle_shift_div_l; [reflexivity|].
  rewrite Qmult_0_l. apply Qmult_le_0_compat; [|discriminate].
  change 0%Q with (inject_Z 0). rewrite <- Zle_Qle. lia.
Qed.

(** The loop adds a page for every page height that is left, zero
    included, each with the image one page height further up. *)
Lemma page_loop_slices W H : (W == 210)%Q -> forall n fuel h pdf,
  n < fuel ->
  (h < 297 * inject_Z (Z.of_nat n))%Q ->
  (0 < n -> (297 * (inject_Z (Z.of_nat n) - 1) <= h)%Q) ->
  (h == H - 297 * inject_Z (Z.of_nat (length (pages pdf))))%Q ->
  (forall j page, nth_error (pages pdf) j = Some page -> shows_from H j page) ->
  exists pdf',
    page_loop fuel W H h pdf = Some pdf'
    /\ length (pages pdf') = length (pages pdf) + n
    /\ forall j page, nth_error (pages pdf') j = Some page -> shows_from H j page.
Proof.
  intros HW. induction n as [|n IH]; intros fuel h pdf Hf Hlt Hge Hh Hp.
  - destruct fuel as [|fuel]; [lia|]. cbn [page_loop].
    destruct (Qle_bool 0 h) eqn:E.
    + apply Qle_bool_iff in E.
      assert (Hz : (inject_Z (Z.of_nat 0) == 0)%Q) by reflexivity. lra.
    + exists pdf. split; [reflexivity|]. split; [lia|exact Hp].
  - destruct fuel as [|fuel]; [lia|]. cbn [page_loop].
    pose proof (inject_nat_S n) as HS.
    assert (Hn : (0 <= inject_Z (Z.of_nat n))%Q).
    { change (inject_Z 0 <= inject_Z (Z.of_nat n))%Q. rewrite <- Zle_Qle. lia. }
    assert (Hge' : (297 * (inject_Z (Z.of_nat (S n)) - 1) <= h)%Q) by (apply Hge; lia).
    destruct (Qle_bool 0 h) eqn:E.
    + rewrite addImage_addPage.
      destruct (IH fuel (h - 297)%Q (MkPdf (pages pdf ++ [[MkPlacement 0 (h - H) W H]])))
        as (pdf' & Hl & Hc & Hs).
      * lia.
      * lra.
      * intros Hpos.
        assert (Hn1 : (1 <= inject_Z (Z.of_nat n))%Q).
        { change (inject_Z 1 <= inject_Z (Z.of_nat n))%Q. rewrite <- Zle_Qle. lia. }
        lra.
      * cbn [pages]. rewrite length_app. cbn [length].
        replace (length (pages pdf) + 1) with (S (length (pages pdf))) by lia.
        rewrite inject_nat_S. lra.
      * cbn [pages]. intros j page Hj.
        destruct (Nat.lt_ge_cases j (length (pages pdf))) as [Hjl|Hjl].
        -- rewrite nth_error_app1 in Hj by exact Hjl. apply Hp. exact Hj.
        -- rewrite nth_error_app2 in Hj by exact Hjl.
           destruct (j - length (pages pdf)) as [|d] eqn:Ed;
             [|destruct d; discriminate].
           cbn in Hj. injection Hj as <-.
           assert (j = length (pages pdf)) by lia. subst j.
           eexists. split; [reflexivity|]. cbn [img_x img_y img_w img_h].
           split; [reflexivity|]. split; [lra|]. split; [exact HW|reflexivity].
      * exists pdf'. split; [exact Hl|]. split; [|exact Hs].
        rewrite Hc. cbn [pages]. rewrite length_app. cbn [length]. lia.
    + exfalso. assert (Qle_bool 0 h = true); [|congruence].
      apply Qle_bool_iff. lra.
Qed.

(** X7. The pages of the PDF, for a canvas whose scaled height is a whole
    number [m] of millimetres: there are [m / 297 + 1] pages, the
    quotient rounded down, and the page of index [j] holds the image
    exactly once, across the page width of 210 mm, at its full height,
    moved up by [j] page heights of 297 mm. *)
Theorem whole_height_pages (canvas : Canvas) (m : Z) :
  (imgHeight_of canvas == inject_Z m)%Q ->
  exists pdf,
    paginate canvas = Some pdf
    /\ getNumberOfPages pdf = Z.to_nat (m / 297) + 1
    /\ forall j page,
         nth_error (pages pdf) j = Some page ->
         shows_from (imgHeight_of canvas) j page.
Proof.
  intros Hm.
  assert (H0 : (0 <= m)%Z).
  { pose proof (imgHeight_nonneg canvas) as H. rewrite Hm in H.
    change 0%Q with (inject_Z 0) in H. rewrite <- Zle_Qle in H. exact H. }
  pose proof (Z.div_mod m 297 ltac:(lia)) as Hdm.
  pose proof (Z.mod_pos_bound m 297 ltac:(lia)) as Hmod.
  assert (Hq : (0 <= m / 297)%Z) by (apply Z.div_pos; lia).
  set (n := Z.to_nat (m / 297)).
  assert (Hn : Z.of_nat n = (m / 297)%Z) by (unfold n; lia).
  assert (Hlo : (297 * inject_Z (Z.of_nat n) <= inject_Z m)%Q).
  { rewrite Hn. change 297%Q with (inject_Z 297). rewrite <- inject_Z_mult, <- Zle_Qle. lia. }
  assert (Hhi : (inject_Z m < 297 * inject_Z (Z.of_nat n) + 297)%Q).
  { rewrite Hn. change 297%Q with (inject_Z 297).
    rewrite <- inject_Z_mult, <- inject_Z_plus, <- Zlt_Qlt. lia. }
  unfold paginate. fold (imgHeight_of canvas).
  destruct (@page_loop_slices 210%Q (imgHeight_of canvas) (Qeq_refl _) n
              (S (Z.to_nat (Qfloor (imgHeight_of canvas))))
              (imgHeight_of canvas - 297)%Q
              (addImage new_jsPDF (MkPlacement 0 0 210 (imgHeight_of canvas))))
    as (pdf & Hl & Hc & Hs).
  - rewrite Hm, Qfloor_Z. 
    assert (m / 297 <= m)%Z by (apply Z.div_le_upper_bound; lia). lia.
  - rewrite Hm. lra.
  - intros _. rewrite Hm. lra.
  - change (length (pages (addImage new_jsPDF
                             (MkPlacement 0 0 210 (imgHeight_of canvas))))) with 1.
    assert (Hz : (inject_Z (Z.of_nat 1) == 1)%Q) by reflexivity. lra.
  - change (pages (addImage new_jsPDF (MkPlacement 0 0 210 (imgHeight_of canvas))))
      with [[MkPlacement 0 0 210 (imgHeight_of canvas)]].
    intros [|[|j]] page Hj; try discriminate.
    injection Hj as <-. eexists. split; [reflexivity|]. cbn [img_x img_y img_w img_h].
    repeat split; reflexivity.
  - exists pdf. split; [exact Hl|]. split; [|exact Hs].
    unfold getNumberOfPages. rewrite Hc. cbn. lia.
Qed.


(** X7 at a canvas of 1600 by 4000 pixels, 525 mm: two pages. *)
Lemma whole_height_pages_witness :
  (imgHeight_of two_pages == inject_Z 525)%Q
  /\ exists pdf,
       paginate two_pages = Some pdf
       /\ getNumberOfPages pdf = 2.
Proof.
  assert (H : (imgHeight_of two_pages == inject_Z 525)%Q) by reflexivity.
  split; [exact H|].
  destruct (@whole_height_pages two_pages 525 H) as (pdf & E & Hn & _).
  exists pdf. split; [exact E|exact Hn].
Defined.

End Pages.

(** ** The two generators *)

Module Conversion.
Import JS Dom App Vocabulary Samples Pdf FileNames Docx.

Lemma pdf_filename_string env s :
  pdf_filename env (VString s) = Ok (stem_of s ++ lit ".pdf").
Proof. unfold pdf_filename, title_replace. rewrite stem_of_title. reflexivity. Qed.

Lemma docx_filename_string env s :
  docx_filename env (VString s) = Ok (stem_of s ++ lit ".docx").
Proof. unfold docx_filename, title_replace. rewrite stem_of_title. reflexivity. Qed.

Lemma removeChild_last c l st :
  body st = l ++ [c] -> body (removeChild c st) = l.
Proof.
  intros H. unfold removeChild. rewrite H, rev_app_distr. cbn [rev app].
  cbn. apply rev_involutive.
Qed.

(** [generatePDF], step by step. *)
Lemma generatePDF_eval env style st :
  generatePDF env style st
  = match container_of env st style with
    | Throw e => (Throw e, st)
    | Ok container =>
        let st1 := record (CallHtml2canvas container)
                     (set_body (body st ++ [container]) st) in
        match html2canvas env container with
        | Ok canvas =>
            match paginate canvas with
            | Some pdf =>
                match pdf_filename env (title (metadata st)) with
                | Ok filename =>
                    (Ok tt, removeChild container (save filename (PdfFile pdf) st1))
                | Throw e => (Throw e, removeChild container st1)
                end
            | None =>
                (Throw (Error (lit "unreachable: the loop ends")),
                 removeChild container st1)
            end
        | Throw e => (Throw e, removeChild container st1)
        end
    end.
Proof.
  unfold generatePDF, container_of. cbv [bind try_finally modify read lift ret throw].
  destruct (new_container env (metadata st) (parsedHtml st)) as [c|e]; [|reflexivity].
  cbn [and_then]. cbv zeta.
  destruct (html2canvas env _) as [canvas|e]; [|reflexivity].
  destruct (paginate canvas) as [pdf|]; [|reflexivity].
  destruct (pdf_filename env (title (metadata st))); reflexivity.
Qed.

(** X8. [generatePDF] leaves [document.body] with the children it had:
    the container it appends is removed again on every path, also when
    [html2canvas] throws or the file name cannot be built. *)
Theorem generatePDF_restores_body (env : Platform) (style : jsstring) (st : state) :
  body (snd (generatePDF env style st)) = body st.
Proof.
  rewrite generatePDF_eval.
  destruct (container_of env st style) as [container|e]; [|reflexivity].
  cbv zeta.
  destruct (html2canvas env _) as [canvas|e].
  - destruct (paginate canvas) as [pdf|].
    + destruct (pdf_filename env (title (metadata st))); cbn [snd];
        apply removeChild_last; reflexivity.
    + cbn [snd]. apply removeChild_last; reflexivity.
  - cbn [snd]. apply removeChild_last; reflexivity.
Qed.

(** X9. [generatePDF] first fills the template of its container. If the
    title, a truthy author or a truthy date has no string form, it
    throws there and does nothing else: no library is called, nothing
    is appended and nothing is saved. Otherwise it calls [html2canvas]
    once, with the styled container, and then either saves exactly one
    file or throws and saves nothing. It saves when [html2canvas]
    returns and the title is a string: the paginated document, under
    the title's stem followed by [.pdf]. When [html2canvas] throws, its
    exception is thrown on; when the title is not a string, an
    exception is thrown although the canvas has been drawn. *)
Theorem generatePDF_saves_one_or_none (env : Platform) (style : jsstring) (st : state) :
  match container_of env st style with
  | Throw e => generatePDF env style st = (Throw e, st)
  | Ok container =>
      calls (snd (generatePDF env style st))
      = calls st ++ [CallHtml2canvas container]
      /\ match html2canvas env container, title (metadata st) with
         | Ok canvas, VString s =>
             exists pdf,
               paginate canvas = Some pdf
               /\ fst (generatePDF env style st) = Ok tt
               /\ saved (snd (generatePDF env style st))
                  = saved st ++ [(stem_of s ++ lit ".pdf", PdfFile pdf)]
         | Ok _, _ =>
             (exists e, fst (generatePDF env style st) = Throw e)
             /\ saved (snd (generatePDF env style st)) = saved st
         | Throw e, _ =>
             fst (generatePDF env style st) = Throw e
             /\ saved (snd (generatePDF env style st)) = saved st
         end
  end.
Proof.
  rewrite generatePDF_eval.
  destruct (container_of env st style) as [container|e0]; [|reflexivity].
  cbv zeta.
  assert (Hframe : forall c s, calls (removeChild c s) = calls s /\ saved (removeChild c s) = saved s).
  { intros c s. unfold removeChild. destruct (rev (body s)); split; reflexivity. }
  destruct (html2canvas env container) as [canvas|e].
  - destruct (paginate_total canvas) as [pdf Hp]. rewrite Hp.
    destruct (title (metadata st)) as [| |b|x|s|props] eqn:Ht;
      try (cbn [pdf_filename title_replace];
           split; [cbn [snd]; rewrite (proj1 (Hframe _ _)); reflexivity|];
           split; [eexists; reflexivity|];
           cbn [snd]; rewrite (proj2 (Hframe _ _)); reflexivity).
    rewrite pdf_filename_string.
    split; [cbn [snd]; rewrite (proj1 (Hframe _ _)); reflexivity|].
    exists pdf. split; [reflexivity|]. split; [reflexivity|].
    cbn [snd]. rewrite (proj2 (Hframe _ _)). reflexivity.
  - split; [cbn [snd]; rewrite (proj1 (Hframe _ _)); reflexivity|].
    destruct (title (metadata st)); (split; [reflexivity|]);
      cbn [snd]; rewrite (proj2 (Hframe _ _)); reflexivity.
Qed.

(** [generateDOCX], step by step. *)
Lemma generateDOCX_eval env style st :
  generateDOCX env style st
  = match document_of env st with
    | Throw e => (Throw e, st)
    | Ok doc =>
        let st1 := record (CallPackerToBlob doc) st in
        match Packer_toBlob env doc with
        | Ok blob =>
            match docx_filename env (title (metadata st)) with
            | Ok filename => (Ok tt, save filename (BlobFile blob) st1)
            | Throw e => (Throw e, st1)
            end
        | Throw e => (Throw e, st1)
        end
    end.
Proof.
  unfold generateDOCX, document_of. cbv [bind modify read lift ret throw].
  destruct (docx_children env (metadata st) (parsedHtml st)) as [children|e];
    [|reflexivity].
  cbn [and_then]. cbv zeta.
  destruct (Packer_toBlob env _) as [blob|e]; [|reflexivity].
  destruct (docx_filename env (title (metadata st))); reflexivity.
Qed.

(** X10. [generateDOCX] first builds its blocks. If a truthy author has
    no string form, it throws there and does nothing else. Otherwise it
    calls [Packer.toBlob] once, with the document built from [metadata]
    and [parsedHtml], leaves [document.body] alone, and then either
    saves exactly one file or throws and saves nothing: the blob under
    the title's stem followed by [.docx] when the packer returns and
    the title is a string; the packer's exception when it throws; an
    exception after the packing when the title is not a string. *)
Theorem generateDOCX_saves_one_or_none (env : Platform) (style : jsstring) (st : state) :
  match document_of env st with
  | Throw e => generateDOCX env style st = (Throw e, st)
  | Ok doc =>
      calls (snd (generateDOCX env style st)) = calls st ++ [CallPackerToBlob doc]
      /\ body (snd (generateDOCX env style st)) = body st
      /\ match Packer_toBlob env doc, title (metadata st) with
         | Ok blob, VString s =>
             fst (generateDOCX env style st) = Ok tt
             /\ saved (snd (generateDOCX env style st))
                = saved st ++ [(stem_of s ++ lit ".docx", BlobFile blob)]
         | Ok _, _ =>
             (exists e, fst (generateDOCX env style st) = Throw e)
             /\ saved (snd (generateDOCX env style st)) = saved st
         | Throw e, _ =>
             fst (generateDOCX env style st) = Throw e
             /\ saved (snd (generateDOCX env style st)) = saved st
         end
  end.
Proof.
  rewrite generateDOCX_eval.
  destruct (document_of env st) as [doc|e0]; [|reflexivity].
  cbv zeta.
  destruct (Packer_toBlob env doc) as [blob|e].
  - destruct (title (metadata st)) as [| |b|x|s|props] eqn:Ht;
      try (cbn [docx_filename title_replace];
           split; [reflexivity|]; split; [reflexivity|];
           split; [eexists; reflexivity|reflexivity]).
    rewrite docx_filename_string.
    split; [reflexivity|]. split; [reflexivity|]. split; reflexivity.
  - split; [reflexivity|]. split; [reflexivity|].
    destruct (title (metadata st)); split; reflexivity.
Qed.

(** What a selected element pushes: one block when it is a heading, a
    paragraph or a preformatted block, nothing when it is a list. *)
Lemma paragraphs_of_selected env (el : node unit) :
  block_selector el = true ->
  paragraphs_of env el = if convertible el then [block_for el] else [].
Proof.
  destruct el as [d|d|[] name cn ch]; try discriminate.
  unfold block_selector, convertible, matches_any_type. cbn [existsb].
  repeat match goal with
         | |- context [jsstring_eqb name ?l] =>
             let E := fresh "E" in
             destruct (jsstring_eqb name l) eqn:E;
             [apply jsstring_eqb_eq in E; subst name; intros _; reflexivity|]
         end.
  discriminate.
Qed.

Lemma convertible_selected (el : node unit) :
  convertible el = true -> block_selector el = true.
Proof.
  destruct el as [d|d|[] name cn ch]; try discriminate.
  unfold block_selector, convertible, matches_any_type. cbn [existsb].
  repeat match goal with
         | |- context [jsstring_eqb name ?l] =>
             destruct (jsstring_eqb name l); [reflexivity|]
         end.
  discriminate.
Qed.

Lemma blocks_of_selected env (l : list (node unit)) :
  flat_map (paragraphs_of env) (filter block_selector l)
  = map block_for (filter convertible l).
Proof.
  induction l as [|el l IH]; [reflexivity|]. cbn [filter].
  destruct (block_selector el) eqn:Hs.
  - cbn [flat_map]. rewrite IH, (paragraphs_of_selected env el Hs).
    destruct (convertible el); reflexivity.
  - destruct (convertible el) eqn:Hc; [|exact IH].
    apply convertible_selected in Hc. congruence.
Qed.

(** X11. The blocks of the document that [generateDOCX] hands to the
    packer, for every fragment and every author with a string form: the
    title block and the author line, each when truthy, one blank
    paragraph, and then exactly one block for every [h1] to [h6], [p]
    and [pre] element of the fragment, at any depth and in document
    order. The [ul] and [ol] elements, which the selector also admits,
    give no block, and the date of the metadata appears nowhere. *)
Theorem docx_blocks (env : Platform) (style : jsstring) (st : state) (a : jsstring) :
  ToString env (author (metadata st)) = Ok a ->
  calls (snd (generateDOCX env style st))
  = calls st
    ++ [CallPackerToBlob
          (MkDocument
             [title_block (metadata st) ++ author_line (metadata st) a
              ++ blank_paragraph
                 :: map block_for
                      (querySelectorAll convertible
                         (Elem tt (lit "div") [] (parse_html env (parsedHtml st))))])].
Proof.
  intros Ha. apply generateDOCX_packs.
  rewrite (docx_children_eq env _ _ Ha). unfold querySelectorAll.
  rewrite blocks_of_selected. reflexivity.
Qed.

(** X11 at the rendering of a heading, a paragraph and a fenced code
    block: the line feeds between them give nothing. *)
Lemma docx_blocks_witness :
  ToString docx_platform (author (metadata (set_metadata report_metadata initial_state)))
  = Ok (lit "Ann")
  /\ calls (snd (generateDOCX docx_platform (lit "minimal")
                   (set_metadata report_metadata initial_state)))
     = [CallPackerToBlob
          (MkDocument
             [[MkParagraph (Some (VString (lit "Report"))) (Some TITLE) [];
               MkParagraph None None [MkTextRun (AUTHOR_PREFIX ++ lit "Ann") true None];
               blank_paragraph;
               heading_block HEADING_1 (lit "Title");
               plain_block (lit "plain paragraph");
               monospaced_block (lit "x = 1")]])].
Proof.
  assert (H : ToString docx_platform
                (author (metadata (set_metadata report_metadata initial_state)))
              = Ok (lit "Ann")) by reflexivity.
  split; [exact H|].
  exact (@docx_blocks docx_platform (lit "minimal")
           (set_metadata report_metadata initial_state) (lit "Ann") H).
Defined.

Lemma stem_of_other (s : jsstring) :
  forallb (fun c => negb (is_alnum c)) s = true ->
  stem_of s = repeat UNDERSCORE (length s).
Proof.
  induction s as [|c s IH]; intros H; [reflexivity|].
  cbn [forallb] in H. apply andb_true_iff in H. destruct H as [Hc Hs].
  apply negb_true_iff in Hc. cbn [stem_of map length repeat]. rewrite Hc.
  f_equal. apply IH. exact Hs.
Qed.

(** X12. A title in which no code unit is an ASCII letter or digit gives
    file names that consist of underscores only, one for each code unit
    of the title: titles of one length in other scripts all share one
    file name. The placeholder title is such a title. *)
Theorem names_of_other_scripts (env : Platform) (s : jsstring) :
  forallb (fun c => negb (is_alnum c)) s = true ->
  pdf_filename env (VString s) = Ok (repeat UNDERSCORE (length s) ++ lit ".pdf")
  /\ docx_filename env (VString s) = Ok (repeat UNDERSCORE (length s) ++ lit ".docx").
Proof.
  intros H. rewrite pdf_filename_string, docx_filename_string, (stem_of_other s H).
  split; reflexivity.
Qed.

(** X12 at the placeholder title: eight underscores. *)
Lemma names_of_other_scripts_witness :
  forallb (fun c => negb (is_alnum c)) PLACEHOLDER_TITLE = true
  /\ pdf_filename sample_platform (VString PLACEHOLDER_TITLE) = Ok (lit "________.pdf")
  /\ docx_filename sample_platform (VString PLACEHOLDER_TITLE) = Ok (lit "________.docx").
Proof.
  assert (H : forallb (fun c => negb (is_alnum c)) PLACEHOLDER_TITLE = true)
    by reflexivity.
  split; [exact H|].
  exact (@names_of_other_scripts sample_platform PLACEHOLDER_TITLE H).
Defined.

End Conversion.

(** ** Front matter in its plain form *)

Module RoundTrip.
Import JS Regex RegexFacts App FrontMatterFacts FrontMatter Vocabulary Samples.

Local Arguments cu_eqb : simpl never.

Lemma cu_eqb_refl c : cu_eqb c c = true.
Proof. apply N.eqb_refl. Qed.

Lemma run_Seq r1 r2 k st : run (Seq r1 r2) k st = run r1 (run r2 k) st.
Proof. reflexivity. Qed.

Lemma run_Chr_hit c k i t caps :
  run (Chr c) k (MState i (c :: t) caps) = k (MState (S i) t caps).
Proof. cbn [run rest pos Regex.caps]. rewrite cu_eqb_refl. reflexivity. Qed.

Lemma run_Lit_prefix s : forall k i t caps,
  run (Lit s) k (MState i (s ++ t) caps) = k (MState (i + length s) t caps).
Proof.
  induction s as [|c s IH]; intros k i t caps.
  - cbn. rewrite Nat.add_0_r. reflexivity.
  - cbn [Lit app]. rewrite run_Seq, run_Chr_hit, IH. cbn [length].
    rewrite Nat.add_succ_r. reflexivity.
Qed.

Lemma run_Chr c k i t caps :
  run (Chr c) k (MState i t caps)
  = match t with
    | d :: t' => if cu_eqb c d then k (MState (S i) t' caps) else None
    | [] => None
    end.
Proof. reflexivity. Qed.

Lemma run_Bol k s caps : run Bol k (MState 0 s caps) = k (MState 0 s caps).
Proof. reflexivity. Qed.

Lemma run_Star p k i s caps :
  run (Star p) k (MState i s caps)
  = star_greedy p (fun i' s' => k (MState i' s' caps)) i s.
Proof. reflexivity. Qed.

Lemma run_Group n r k i s caps :
  run (Group n r) k (MState i s caps)
  = run r (fun st' => k (MState (pos st') (rest st') ((n, (i, pos st')) :: Regex.caps st')))
        (MState i s caps).
Proof. reflexivity. Qed.

Lemma run_StarLazy p k i s caps :
  run (StarLazy p) k (MState i s caps)
  = star_lazy p (fun i' s' => k (MState i' s' caps)) i s.
Proof. reflexivity. Qed.

Lemma run_Empty k st : run Empty k st = k st.
Proof. reflexivity. Qed.

(** What follows does not begin with a line feed and three hyphens. *)
Lemma no_delimiter r k i t caps :
  startsWith t (LF :: lit "---") = false ->
  run (Seq (Chr LF) (Seq (Lit (lit "---")) r)) k (MState i t caps) = None.
Proof.
  intros H. rewrite run_Seq, run_Chr.
  destruct t as [|c0 t]; [reflexivity|].
  cbn [startsWith] in H.
  destruct (cu_eqb LF c0); [|reflexivity]. cbn [andb] in H.
  change (lit "---") with [HYPHEN; HYPHEN; HYPHEN] in *.
  cbn [Lit]. rewrite !run_Seq, run_Chr.
  destruct t as [|c1 t]; [reflexivity|].
  cbn [startsWith] in H.
  destruct (cu_eqb HYPHEN c1); [|reflexivity]. cbn [andb] in H.
  rewrite !run_Seq, run_Chr.
  destruct t as [|c2 t]; [reflexivity|].
  cbn [startsWith] in H.
  destruct (cu_eqb HYPHEN c2); [|reflexivity]. cbn [andb] in H.
  rewrite !run_Seq, run_Chr.
  destruct t as [|c3 t]; [reflexivity|].
  cbn [startsWith] in H.
  destruct (cu_eqb HYPHEN c3); [|reflexivity]. cbn [andb] in H.
  destruct t; discriminate.
Qed.

(** A text without the delimiter, followed by a line feed, does not
    begin with it either. *)
Lemma startsWith_overlap w t :
  w <> [] ->
  startsWith w (LF :: lit "---") = false ->
  startsWith (w ++ LF :: t) (LF :: lit "---") = false.
Proof.
  intros Hw H.
  change (lit "---") with [HYPHEN; HYPHEN; HYPHEN] in *.
  destruct w as [|c0 w]; [congruence|].
  cbn [app startsWith] in *.
  destruct (cu_eqb LF c0); [|reflexivity]. cbn [andb] in *.
  destruct w as [|c1 w]; [reflexivity|].
  cbn [app startsWith] in *.
  destruct (cu_eqb HYPHEN c1); [|reflexivity]. cbn [andb] in *.
  destruct w as [|c2 w]; [reflexivity|].
  cbn [app startsWith] in *.
  destruct (cu_eqb HYPHEN c2); [|reflexivity]. cbn [andb] in *.
  destruct w as [|c3 w]; [reflexivity|].
  cbn [app startsWith] in *.
  destruct (cu_eqb HYPHEN c3); [|reflexivity]. cbn [andb] in *.
  destruct w; discriminate.
Qed.

Lemma includes_suffix needle : forall w1 w2,
  includes (w1 ++ w2) needle = false -> includes w2 needle = false.
Proof.
  induction w1 as [|c w1 IH]; intros w2 H; [exact H|].
  cbn [app includes] in H. apply orb_false_iff in H. destruct H as [_ H].
  apply IH. exact H.
Qed.

Lemma includes_head s needle : includes s needle = false -> startsWith s needle = false.
Proof.
  intros H. destruct s; cbn [includes] in H; apply orb_false_iff in H; tauto.
Qed.

(** The lazy star stops at the first place where the rest matches. *)
Lemma star_lazy_first p k m : forall w i s,
  forallb p w = true ->
  (forall w1 w2, w = w1 ++ w2 -> w2 <> [] -> k (i + length w1) (w2 ++ s) = None) ->
  k (i + length w) s = Some m ->
  star_lazy p k i (w ++ s) = Some m.
Proof.
  induction w as [|c w IH]; intros i s Hp Hk Hm.
  - cbn [app length] in *. rewrite Nat.add_0_r in Hm.
    destruct s; cbn [star_lazy]; rewrite Hm; reflexivity.
  - cbn [app star_lazy].
    pose proof (Hk [] (c :: w) eq_refl ltac:(discriminate)) as H0.
    cbn [length app] in H0. rewrite Nat.add_0_r in H0. rewrite H0.
    cbn [forallb] in Hp. apply andb_true_iff in Hp. destruct Hp as [Hc Hw].
    rewrite Hc. apply IH.
    + exact Hw.
    + intros w1 w2 E Hne. specialize (Hk (c :: w1) w2).
      cbn [length app] in Hk. rewrite Nat.add_succ_r in Hk.
      apply Hk; [rewrite E; reflexivity|exact Hne].
    + cbn [length] in Hm. rewrite Nat.add_succ_r in Hm. exact Hm.
Qed.

(** The greedy star gives back one code unit when the rest needs it. *)
Lemma star_greedy_gives_back p k m : forall u i c s,
  forallb p u = true -> p c = true ->
  match s with d :: _ => p d = false | [] => True end ->
  k (S (i + length u)) s = None ->
  k (i + length u) (c :: s) = Some m ->
  star_greedy p k i (u ++ c :: s) = Some m.
Proof.
  induction u as [|a u IH]; intros i c s Hu Hc Hs Hn Hm.
  - cbn [app length] in *. rewrite Nat.add_0_r in *.
    cbn [star_greedy]. rewrite Hc.
    assert (E : star_greedy p k (S i) s = None).
    { destruct s as [|d s]; cbn [star_greedy]; [exact Hn|]. rewrite Hs. exact Hn. }
    rewrite E. exact Hm.
  - cbn [forallb] in Hu. apply andb_true_iff in Hu. destruct Hu as [Ha Hu].
    cbn [app star_greedy]. rewrite Ha.
    cbn [length] in Hn, Hm. rewrite Nat.add_succ_r in Hn, Hm.
    rewrite (IH (S i) c s Hu Hc Hs Hn Hm). reflexivity.
Qed.

Lemma any_cu_all w : forallb any_cu w = true.
Proof.
  induction w as [|c w IH]; [reflexivity|]. cbn [forallb]. rewrite IH.
  unfold any_cu. destruct (is_space c); reflexivity.
Qed.

Lemma not_space_not_LF c : is_space c = false -> cu_eqb LF c = false.
Proof.
  intros H. destruct (cu_eqb LF c) eqn:E; [|reflexivity].
  apply cu_eqb_eq in E. subst c. discriminate.
Qed.

(** After a line feed that the white space before a text ends with,
    nothing else would do for the line feed of the expression. *)
Lemma no_line_feed r k i t caps :
  match t with d :: _ => is_space d = false | [] => True end ->
  run (Seq (Chr LF) r) k (MState i t caps) = None.
Proof.
  intros H. rewrite run_Seq, run_Chr. destruct t as [|d t]; [reflexivity|].
  rewrite (not_space_not_LF _ H). reflexivity.
Qed.

(** Where the expression of [extractMetadata] matches a block in its
    plain form. *)
Lemma extract_runs ws1 interior ws2 body :
  forallb is_space ws1 = true ->
  forallb is_space ws2 = true ->
  begins_with_text interior = true ->
  includes interior (LF :: lit "---") = false ->
  no_leading_space body = true ->
  run frontMatterRegex_extract Some (MState 0 (block ws1 interior ws2 ++ body) [])
  = Some (MState (length (block ws1 interior ws2)) body
            [(1, (length (lit "---" ++ ws1 ++ [LF]),
                  length (lit "---" ++ ws1 ++ [LF]) + length interior))]).
Proof.
  intros H1 H2 Hi Hn Hb.
  assert (Hi' : match interior ++ [LF] ++ lit "---" ++ ws2 ++ [LF] ++ body with
                | d :: _ => is_space d = false
                | [] => True
                end).
  { destruct interior as [|c interior]; [discriminate|].
    cbn [app]. cbn in Hi. apply negb_true_iff in Hi. exact Hi. }
  assert (Hb' : match body with d :: _ => is_space d = false | [] => True end).
  { destruct body as [|c body]; [exact I|]. cbn in Hb. apply negb_true_iff in Hb. exact Hb. }
  unfold frontMatterRegex_extract, seq_all, block. cbn [fold_right].
  rewrite <- !app_assoc.
  rewrite run_Seq, run_Bol, run_Seq, run_Lit_prefix, run_Seq, run_Star.
  apply star_greedy_gives_back.
  - exact H1.
  - reflexivity.
  - exact Hi'.
  - apply no_line_feed. exact Hi'.
  - rewrite run_Seq, run_Chr_hit, run_Seq, run_Group, run_StarLazy.
    apply star_lazy_first.
    + apply any_cu_all.
    + intros w1 w2 E Hne. cbn [pos rest Regex.caps].
      apply no_delimiter. cbn [app].
      apply startsWith_overlap; [exact Hne|].
      apply includes_head. apply (includes_suffix _ w1). rewrite <- E. exact Hn.
    + cbn [pos rest Regex.caps].
      rewrite run_Seq. cbn [app]. rewrite run_Chr_hit, run_Seq, run_Lit_prefix, run_Seq, run_Star.
      apply star_greedy_gives_back.
      * exact H2.
      * reflexivity.
      * exact Hb'.
      * apply no_line_feed. exact Hb'.
      * rewrite run_Seq. cbn [app]. rewrite run_Chr_hit, run_Empty.
        assert (L1 : length (lit "---" ++ ws1 ++ [LF])
                     = S (0 + length (lit "---") + length ws1))
          by (repeat (rewrite length_app; cbn [length]); lia).
        assert (L2 : length (lit "---" ++ ws1 ++ LF :: interior ++ LF :: lit "---"
                               ++ ws2 ++ [LF])
                     = S (S (S (0 + length (lit "---") + length ws1) + length interior)
                          + length (lit "---") + length ws2))
          by (repeat (rewrite length_app; cbn [length]); lia).
        rewrite L1, L2. reflexivity.
Qed.


Lemma exec_from_hit r i s m :
  run r Some (MState i s []) = Some m -> exec_from r i s = Some (Found i m).
Proof. intros H. destruct s; cbn [exec_from]; rewrite H; reflexivity. Qed.

(** A block in its plain form is what both expressions find. *)
Lemma plain_block_found (ws1 interior ws2 body : jsstring) :
  forallb is_space ws1 = true ->
  forallb is_space ws2 = true ->
  begins_with_text interior = true ->
  includes interior (LF :: lit "---") = false ->
  no_leading_space body = true ->
  (exists m,
     String_match (block ws1 interior ws2 ++ body) frontMatterRegex_extract = Some m
     /\ whole m = block ws1 interior ws2
     /\ group m 1 = Some interior)
  /\ removeFrontMatter (block ws1 interior ws2 ++ body) = body
  /\ front_matter (block ws1 interior ws2 ++ body) (Some interior).
Proof.
  intros H1 H2 Hi Hn Hb.
  pose proof (extract_runs ws1 interior ws2 body H1 H2 Hi Hn Hb) as Hrun.
  apply exec_from_hit in Hrun. fold (exec frontMatterRegex_extract
                                       (block ws1 interior ws2 ++ body)) in Hrun.
  remember (block ws1 interior ws2 ++ body) as content eqn:Hc.
  assert (Hm : exists m,
             String_match content frontMatterRegex_extract = Some m
             /\ whole m = block ws1 interior ws2
             /\ group m 1 = Some interior).
  { unfold String_match. rewrite Hrun. eexists. split; [reflexivity|].
    cbn [whole group index final pos Regex.caps capture Nat.eqb].
    split.
    - rewrite Hc. apply substring_prefix.
    - f_equal. rewrite Hc. unfold block.
      replace ((lit "---" ++ ws1 ++ [LF] ++ interior ++ [LF] ++ lit "---" ++ ws2 ++ [LF])
                 ++ body)
        with ((lit "---" ++ ws1 ++ [LF]) ++ interior
                ++ ([LF] ++ lit "---" ++ ws2 ++ [LF] ++ body))
        by (repeat rewrite <- app_assoc; reflexivity).
      apply substring_middle. }
  assert (Hr : removeFrontMatter content = body).
  { pose proof (same_span content) as E. rewrite Hrun in E.
    unfold removeFrontMatter, String_replace.
    destruct (exec frontMatterRegex_remove content) as [g|]; [|discriminate].
    cbn [option_map] in E. unfold span, place in E.
    cbn [index final pos rest] in E.
    injection E as E1 E2 E3. rewrite <- E1, <- E2. cbn [firstn app].
    rewrite Hc. apply skipn_length_app. }
  split; [exact Hm|]. split; [exact Hr|].
  destruct Hm as (m & M1 & M2 & M3).
  destruct (front_matter_cases content) as [[i|] Ho].
  - assert (E : i = interior) by (inversion Ho; congruence).
    rewrite <- E. exact Ho.
  - exfalso. inversion Ho; congruence.
Qed.

(** X13. Front matter in its plain form is read back as it was written.
    Let a content consist of [---], white space, a line feed, an
    interior that begins with text and in which no line begins with
    [---], a line feed, [---], white space, a line feed, and a body
    that does not begin with white space. Then the expression of
    [extractMetadata] matches exactly this block, with the interior as
    its group 1; [removeFrontMatter] returns exactly the body; and
    [extractMetadata] hands exactly the interior to [jsyaml.load].
    Carriage returns before the line feeds, and blank lines after the
    block, are white space of the block. *)
Theorem front_matter_round_trip (ws1 interior ws2 body : jsstring) :
  forallb is_space ws1 = true ->
  forallb is_space ws2 = true ->
  begins_with_text interior = true ->
  includes interior (LF :: lit "---") = false ->
  no_leading_space body = true ->
  (exists m,
     String_match (block ws1 interior ws2 ++ body) frontMatterRegex_extract = Some m
     /\ whole m = block ws1 interior ws2
     /\ group m 1 = Some interior)
  /\ removeFrontMatter (block ws1 interior ws2 ++ body) = body
  /\ forall env st,
       calls (snd (extractMetadata env (block ws1 interior ws2 ++ body) st))
       = calls st ++ [CallExtractMetadata (block ws1 interior ws2 ++ body);
                      CallJsyamlLoad interior].
Proof.
  intros H1 H2 Hi Hn Hb.
  destruct (plain_block_found ws1 interior ws2 body H1 H2 Hi Hn Hb) as (Hm & Hr & Hf).
  split; [exact Hm|]. split; [exact Hr|].
  intros env st. rewrite (extractMetadata_block env st Hf). cbv zeta.
  destruct (jsyaml_load env interior) as [v|e]; [destruct (metadata_of_value env v)|];
    cbn; rewrite <- app_assoc; reflexivity.
Qed.

(** X13 at a file with Windows line ends and a blank line after the
    front matter. *)
Lemma front_matter_round_trip_witness :
  forallb is_space [13%N] = true
  /\ forallb is_space [13%N; LF; 13%N] = true
  /\ begins_with_text (lit "title: X" ++ [13%N; LF] ++ lit "author: Ann" ++ [13%N]) = true
  /\ includes (lit "title: X" ++ [13%N; LF] ++ lit "author: Ann" ++ [13%N])
              (LF :: lit "---") = false
  /\ no_leading_space (lit "# Heading") = true
  /\ removeFrontMatter windows_document = lit "# Heading".
Proof.
  assert (H1 : forallb is_space [13%N] = true) by reflexivity.
  assert (H2 : forallb is_space [13%N; LF; 13%N] = true) by reflexivity.
  assert (H3 : begins_with_text
                 (lit "title: X" ++ [13%N; LF] ++ lit "author: Ann" ++ [13%N]) = true)
    by reflexivity.
  assert (H4 : includes (lit "title: X" ++ [13%N; LF] ++ lit "author: Ann" ++ [13%N])
                        (LF :: lit "---") = false) by reflexivity.
  assert (H5 : no_leading_space (lit "# Heading") = true) by reflexivity.
  split; [exact H1|]. split; [exact H2|]. split; [exact H3|]. split; [exact H4|].
  split; [exact H5|].
  exact (proj1 (proj2 (@front_matter_round_trip _ _ _ _ H1 H2 H3 H4 H5))).
Defined.

End RoundTrip.

(** ** File name extensions *)

Module Extensions.
Import JS Regex RegexFacts App FrontMatterFacts FrontMatter Vocabulary Samples RoundTrip.

Local Arguments cu_eqb : simpl never.

Lemma split_not_empty sep s : split sep s <> [].
Proof.
  destruct s as [|c s]; cbn [split]; [discriminate|].
  destruct (cu_eqb c sep); [discriminate|]. destruct (split sep s); discriminate.
Qed.

Lemma split_dotless s : dotless s = true -> split DOT s = [s].
Proof.
  induction s as [|c s IH]; intros H; [reflexivity|].
  cbn [dotless forallb] in H. apply andb_true_iff in H. destruct H as [Hc Hs].
  apply negb_true_iff in Hc. cbn [split]. rewrite Hc, (IH Hs). reflexivity.
Qed.

Lemma last_cons_not_empty {A} (x : A) l d : l <> [] -> last (x :: l) d = last l d.
Proof. destruct l; [congruence|reflexivity]. Qed.

(** The last piece is what follows the last dot. *)
Lemma split_last stem ext :
  dotless ext = true ->
  exists pieces, split DOT (stem ++ DOT :: ext) = pieces ++ [ext] /\ pieces <> [].
Proof.
  intros He. induction stem as [|c stem IH].
  - exists [[]]. cbn [app split]. rewrite cu_eqb_refl, (@split_dotless ext He).
    split; [reflexivity|discriminate].
  - destruct IH as (pieces & E & Hne). cbn [app split]. rewrite E.
    destruct (cu_eqb c DOT).
    + exists ([] :: pieces). split; [reflexivity|discriminate].
    + destruct pieces as [|p pieces]; [congruence|].
      exists ((c :: p) :: pieces). split; [reflexivity|discriminate].
Qed.


Lemma last_snoc {A} (l : list A) x d : last (l ++ [x]) d = x.
Proof. apply last_last. Qed.

(** X14. The extension [processFile] checks is what follows the last dot
    of the file name, in lower case; a name without a dot is its own
    extension, so that a file named [md] is accepted. *)
Theorem extension_is_last_piece (env : Platform) (stem ext : jsstring) (sz : N) :
  dotless ext = true ->
  extension_of env (MkFile (stem ++ DOT :: ext) sz) = toLowerCase (unicode_lower env) ext
  /\ extension_of env (MkFile ext sz) = toLowerCase (unicode_lower env) ext.
Proof.
  intros He. unfold extension_of. cbn [name]. split.
  - destruct (@split_last stem ext He) as (pieces & E & _). rewrite E, last_snoc. reflexivity.
  - rewrite (@split_dotless ext He). reflexivity.
Qed.

(** X14 at a file named [md]. *)
Lemma extension_is_last_piece_witness :
  dotless (lit "md") = true
  /\ extension_of sample_platform (MkFile (lit "md") 120) = lit "md"
  /\ accepted sample_platform (MkFile (lit "md") 120) = true.
Proof.
  assert (H : dotless (lit "md") = true) by reflexivity.
  split; [exact H|]. split; [|reflexivity].
  exact (proj2 (@extension_is_last_piece sample_platform [] _ 120 H)).
Defined.

Lemma step_Lit s : forall a b, step (Lit s) a b -> rest a = s ++ rest b.
Proof.
  induction s as [|c s IH]; intros a b H; cbn [Lit step] in H.
  - subst b. reflexivity.
  - destruct H as (m & (d & Hd & Hr & _) & Hs).
    apply cu_eqb_eq in Hd. subst d. rewrite Hr. cbn [app]. f_equal.
    apply IH. exact Hs.
Qed.

(** A match of the extension expression is a dot, one of the three
    extensions, and the end of the name. *)
Lemma extension_match name f :
  exec extensionRegex name = Some f ->
  exists stem ext, In ext stripped_extensions /\ name = stem ++ ext.
Proof.
  intros H. apply exec_from_sound in H. destruct H as (k & Hi & Hk & Hs).
  exists (firstn k name).
  cbn [extensionRegex seq_all fold_right step] in Hs.
  destruct Hs as (m1 & (d & Hd & Hr1 & _) & m2 & (m3 & Halt & Hm2) & m4 & (He & Hm4) & Hf).
  apply cu_eqb_eq in Hd. subst d. cbn [rest] in Hr1.
  assert (Hsplit : name = firstn k name ++ DOT :: rest m1).
  { rewrite <- Hr1. symmetry. apply firstn_skipn. }
  assert (Hend : rest m3 = []).
  { rewrite Hm2 in He. cbn [rest] in He. exact He. }
  destruct Halt as [Hmd|[Hmk|Htxt]].
  - exists (lit ".md"). split; [left; reflexivity|].
    rewrite Hsplit at 1. rewrite (step_Lit _ _ _ Hmd), Hend. reflexivity.
  - exists (lit ".markdown"). split; [right; left; reflexivity|].
    rewrite Hsplit at 1. rewrite (step_Lit _ _ _ Hmk), Hend. reflexivity.
  - exists (lit ".txt"). split; [right; right; left; reflexivity|].
    rewrite Hsplit at 1. rewrite (step_Lit _ _ _ Htxt), Hend. reflexivity.
Qed.

Lemma endsWith_app (stem ext : jsstring) : endsWith (stem ++ ext) ext = true.
Proof. unfold endsWith. rewrite rev_app_distr. apply startsWith_app. Qed.

(** X15. The default title is the whole file name unless the name ends
    in [.md], [.markdown] or [.txt] written in lower case: the check of
    the extension in [processFile] ignores case, the expression that
    strips the extension does not. *)
Theorem extension_kept_unless_lower_case (env : Platform) (file : File) :
  existsb (endsWith (name file)) stripped_extensions = false ->
  title (default_metadata env (Some file)) = VString (name file).
Proof.
  intros H. unfold default_metadata. cbn [title]. f_equal.
  unfold String_replace.
  destruct (exec extensionRegex (name file)) as [f|] eqn:E; [|reflexivity].
  exfalso. destruct (extension_match _ E) as (stem & ext & Hin & Hn).
  assert (Ht : existsb (endsWith (name file)) stripped_extensions = true).
  { apply existsb_exists. exists ext. split; [exact Hin|].
    rewrite Hn. apply endsWith_app. }
  congruence.
Qed.

(** X15 at [NOTES.MD]: accepted, and the title keeps the extension. *)
Lemma extension_kept_unless_lower_case_witness :
  existsb (endsWith (name NOTES_MD)) stripped_extensions = false
  /\ accepted sample_platform NOTES_MD = true
  /\ title (default_metadata sample_platform (Some NOTES_MD)) = VString (lit "NOTES.MD").
Proof.
  assert (H : existsb (endsWith (name NOTES_MD)) stripped_extensions = false)
    by reflexivity.
  split; [exact H|]. split; [reflexivity|].
  exact (@extension_kept_unless_lower_case sample_platform NOTES_MD H).
Defined.

End Extensions.

(** ** Titles that are no strings *)

Module Titles.
Import JS Regex App FrontMatterFacts FrontMatter Vocabulary Samples RoundTrip Pdf Conversion.

Lemma title_replace_no_text v :
  is_text v = false -> exists e, title_replace v = Throw e.
Proof. destruct v; try discriminate; intros _; eexists; reflexivity. Qed.

(** X16. A title that YAML loads as something truthy other than a string
    (a number, [true], a list, a mapping) is returned by
    [extractMetadata] as it is, and with it neither generator can build
    a file name: [generatePDF] and [generateDOCX] throw and save
    nothing, with any style. The front matter is taken in its plain
    form. *)
Theorem title_that_is_no_text (env : Platform) (ws1 interior ws2 markdown : jsstring)
    (props : list (jsstring * jsval)) (st : state) :
  forallb is_space ws1 = true ->
  forallb is_space ws2 = true ->
  begins_with_text interior = true ->
  includes interior (LF :: lit "---") = false ->
  no_leading_space markdown = true ->
  jsyaml_load env interior = Ok (VObject props) ->
  truthy (own_property props (lit "title")) = true ->
  is_text (own_property props (lit "title")) = false ->
  exists md st',
    extractMetadata env (block ws1 interior ws2 ++ markdown) st = (Ok md, st')
    /\ title md = own_property props (lit "title")
    /\ forall style s,
         (exists e, fst (generatePDF env style (set_metadata md s)) = Throw e)
         /\ saved (snd (generatePDF env style (set_metadata md s))) = saved s
         /\ (exists e, fst (generateDOCX env style (set_metadata md s)) = Throw e)
         /\ saved (snd (generateDOCX env style (set_metadata md s))) = saved s.
Proof.
  intros H1 H2 Hi Hn Hb Hy Ht Hs.
  destruct (plain_block_found ws1 interior ws2 markdown H1 H2 Hi Hn Hb) as (_ & _ & Hf).
  rewrite (extractMetadata_block env st Hf). cbv zeta. rewrite Hy.
  cbn [metadata_of_value].
  assert (Eo : or_else (own_property props (lit "title")) (VString PLACEHOLDER_TITLE)
               = own_property props (lit "title"))
    by (unfold or_else; rewrite Ht; reflexivity).
  rewrite Eo. eexists _, _. split; [reflexivity|].
  cbn [title]. split; [reflexivity|].
  intros style s.
  destruct (title_replace_no_text _ Hs) as [e He].
  assert (Hrm : forall c x, saved (removeChild c x) = saved x).
  { intros c x. unfold removeChild. destruct (rev (body x)); reflexivity. }
  split; [|split; [|split]].
  - rewrite generatePDF_eval.
    destruct (container_of env _ style) as [container|e0]; [|eexists; reflexivity].
    cbv zeta.
    destruct (html2canvas env _) as [canvas|e']; [|eexists; reflexivity].
    destruct (paginate_total canvas) as [pdf Hp]. rewrite Hp.
    unfold pdf_filename. cbn [metadata set_metadata title]. rewrite He.
    eexists; reflexivity.
  - rewrite generatePDF_eval.
    destruct (container_of env _ style) as [container|e0]; [|reflexivity].
    cbv zeta.
    destruct (html2canvas env _) as [canvas|e']; [|cbn [snd]; rewrite Hrm; reflexivity].
    destruct (paginate_total canvas) as [pdf Hp]. rewrite Hp.
    unfold pdf_filename. cbn [metadata set_metadata title]. rewrite He.
    cbn [snd]. rewrite Hrm. reflexivity.
  - rewrite generateDOCX_eval.
    destruct (document_of env _) as [doc|e0]; [|eexists; reflexivity].
    cbv zeta.
    destruct (Packer_toBlob env _) as [blob|e']; [|eexists; reflexivity].
    unfold docx_filename. cbn [metadata set_metadata title]. rewrite He.
    eexists; reflexivity.
  - rewrite generateDOCX_eval.
    destruct (document_of env _) as [doc|e0]; [|reflexivity].
    cbv zeta.
    destruct (Packer_toBlob env _) as [blob|e']; [|reflexivity].
    unfold docx_filename. cbn [metadata set_metadata title]. rewrite He.
    reflexivity.
Qed.

(** X16 at a title that is a year. *)
Lemma title_that_is_no_text_witness :
  forallb is_space [] = true
  /\ forallb is_space [] = true
  /\ begins_with_text (lit "title: 2024") = true
  /\ includes (lit "title: 2024") (LF :: lit "---") = false
  /\ no_leading_space (lit "text") = true
  /\ jsyaml_load year_platform (lit "title: 2024")
     = Ok (VObject [(lit "title", VNumber (Fin 2024))])
  /\ truthy (own_property [(lit "title", VNumber (Fin 2024))] (lit "title")) = true
  /\ is_text (own_property [(lit "title", VNumber (Fin 2024))] (lit "title")) = false
  /\ exists md st',
       extractMetadata year_platform year_document initial_state = (Ok md, st')
       /\ title md = VNumber (Fin 2024).
Proof.
  assert (H1 : forallb is_space [] = true) by reflexivity.
  assert (H3 : begins_with_text (lit "title: 2024") = true) by reflexivity.
  assert (H4 : includes (lit "title: 2024") (LF :: lit "---") = false) by reflexivity.
  assert (H5 : no_leading_space (lit "text") = true) by reflexivity.
  assert (H6 : jsyaml_load year_platform (lit "title: 2024")
               = Ok (VObject [(lit "title", VNumber (Fin 2024))])) by reflexivity.
  assert (H7 : truthy (own_property [(lit "title", VNumber (Fin 2024))] (lit "title"))
               = true) by reflexivity.
  assert (H8 : is_text (own_property [(lit "title", VNumber (Fin 2024))] (lit "title"))
               = false) by reflexivity.
  split; [exact H1|]. split; [exact H1|]. split; [exact H3|]. split; [exact H4|].
  split; [exact H5|]. split; [exact H6|]. split; [exact H7|]. split; [exact H8|].
  destruct (@title_that_is_no_text year_platform [] _ [] _ _ initial_state
              H1 H1 H3 H4 H5 H6 H7 H8)
    as (md & st' & E & Ht & _).
  exists md, st'. split; [exact E|exact Ht].
Defined.

End Titles.

(** ** The size of the file on the page *)

Module FileSize.
Import JS App Page Vocabulary PageVocabulary Samples PageSamples.

(** *** Doubles *)

Section Doubles.
Local Open Scope Q_scope.

Lemma pow2_pos z : 0 < 2 ^ z.
Proof. apply Qpower_0_lt. reflexivity. Qed.

Lemma pow2_plus a b : 2 ^ (a + b) == 2 ^ a * 2 ^ b.
Proof. apply Qpower_plus. discriminate. Qed.

Lemma pow2_succ z : 2 ^ (z + 1) == 2 * 2 ^ z.
Proof. rewrite pow2_plus. change (2 ^ 1) with 2. ring. Qed.

Lemma pow2_lt_inv a b : 2 ^ a < 2 ^ b -> (a < b)%Z.
Proof. intros H. apply (Qpower_lt_compat_l_inv 2); [exact H|reflexivity]. Qed.

Lemma pow2_Z (n : Z) : (0 <= n)%Z -> inject_Z (2 ^ n) == 2 ^ n.
Proof. intros H. apply (Zpower_Qpower 2 n H). Qed.

(** The whole part of the binary logarithm. *)
Lemma ilog2_spec x : 0 < x -> 2 ^ ilog2 x <= x /\ x < 2 ^ (ilog2 x + 1).
Proof.
  intros Hx. unfold ilog2.
  destruct x as [n d].
  assert (Hn : (0 < n)%Z).
  { unfold Qlt in Hx. cbn in Hx. lia. }
  cbn [Qnum Qden].
  pose proof (Z.log2_spec n Hn) as [Hn1 Hn2].
  pose proof (Z.log2_spec (Zpos d) ltac:(lia)) as [Hd1 Hd2].
  pose proof (Z.log2_nonneg n) as Ha.
  pose proof (Z.log2_nonneg (Zpos d)) as Hb.
  set (a := Z.log2 n) in *. set (b := Z.log2 (Zpos d)) in *.
  assert (EA : inject_Z (2 ^ a) == 2 ^ a) by (apply pow2_Z; lia).
  assert (EB : inject_Z (2 ^ b) == 2 ^ b) by (apply pow2_Z; lia).
  assert (Ex : n # d == inject_Z n / inject_Z (Zpos d)) by apply Qmake_Qdiv.
  assert (E : 2 ^ (a - b) == 2 ^ a / 2 ^ b).
  { apply Qpower_minus. discriminate. }
  assert (PA := pow2_pos a). assert (PB := pow2_pos b).
  assert (Hn1' : 2 ^ a <= inject_Z n) by (rewrite <- EA, <- Zle_Qle; exact Hn1).
  assert (Hn2' : inject_Z n < 2 * 2 ^ a).
  { rewrite <- EA. change 2 with (inject_Z 2) at 1. rewrite <- inject_Z_mult, <- Zlt_Qlt.
    rewrite Z.pow_succ_r in Hn2 by lia. exact Hn2. }
  assert (Hd1' : 2 ^ b <= inject_Z (Zpos d)) by (rewrite <- EB, <- Zle_Qle; exact Hd1).
  assert (Hd2' : inject_Z (Zpos d) < 2 * 2 ^ b).
  { rewrite <- EB. change 2 with (inject_Z 2) at 1. rewrite <- inject_Z_mult, <- Zlt_Qlt.
    rewrite Z.pow_succ_r in Hd2 by lia. exact Hd2. }
  assert (Dpos : 0 < inject_Z (Zpos d)) by (change 0 with (inject_Z 0); rewrite <- Zlt_Qlt; lia).
  destruct (Qle_bool (2 ^ (a - b)) (n # d)) eqn:Hc.
  - apply Qle_bool_iff in Hc. split; [exact Hc|].
    rewrite pow2_succ, E, Ex.
    apply Qlt_shift_div_r; [exact Dpos|].
    setoid_replace (2 * (2 ^ a / 2 ^ b) * inject_Z (Z.pos d))
      with ((2 * 2 ^ a) * (inject_Z (Z.pos d) / 2 ^ b)) by (field; lra).
    assert (1 <= inject_Z (Z.pos d) / 2 ^ b).
    { apply Qle_shift_div_l; [exact PB|lra]. }
    nra.
  - assert (Hlt : n # d < 2 ^ (a - b)).
    { apply Qnot_le_lt. intros H. apply Qle_bool_iff in H. congruence. }
    replace (a - b - 1 + 1)%Z with (a - b)%Z by lia.
    split; [|exact Hlt].
    assert (E2 : 2 ^ (a - b - 1) == 2 ^ a / (2 * 2 ^ b)).
    { rewrite <- (pow2_succ b). replace (a - b - 1)%Z with (a - (b + 1))%Z by lia.
      apply Qpower_minus. discriminate. }
    rewrite E2, Ex.
    apply Qle_shift_div_l; [exact Dpos|].
    setoid_replace (2 ^ a / (2 * 2 ^ b) * inject_Z (Z.pos d))
      with (2 ^ a * (inject_Z (Z.pos d) / (2 * 2 ^ b))) by (field; lra).
    assert (inject_Z (Z.pos d) / (2 * 2 ^ b) <= 1).
    { apply Qle_shift_div_r; [lra|lra]. }
    nra.
Qed.

Lemma ilog2_unique x e : 2 ^ e <= x -> x < 2 ^ (e + 1) -> ilog2 x = e.
Proof.
  intros H1 H2.
  assert (Hx : 0 < x) by (pose proof (pow2_pos e); lra).
  destruct (ilog2_spec Hx) as [H3 H4].
  assert (2 ^ e < 2 ^ (ilog2 x + 1)) by lra.
  assert (2 ^ ilog2 x < 2 ^ (e + 1)) by lra.
  apply pow2_lt_inv in H, H0. lia.
Qed.

(** Rounding to the nearest integer. *)
Lemma round_even_near y :
  y - (1 # 2) <= inject_Z (round_even y) /\ inject_Z (round_even y) <= y + (1 # 2).
Proof.
  unfold round_even.
  pose proof (Qfloor_le y) as H1. pose proof (Qlt_floor y) as H2.
  rewrite inject_Z_plus in H2. change (inject_Z 1) with 1 in H2.
  destruct (y - inject_Z (Qfloor y) ?= 1 # 2) eqn:E.
  - apply Qeq_alt in E.
    destruct (Z.even (Qfloor y)); [|rewrite inject_Z_plus; change (inject_Z 1) with 1];
      split; lra.
  - apply Qlt_alt in E. split; lra.
  - apply Qgt_alt in E. rewrite inject_Z_plus. change (inject_Z 1) with 1. split; lra.
Qed.

Lemma round_even_comp (y y' : Q) : y == y' -> round_even y = round_even y'.
Proof.
  intros E. unfold round_even.
  rewrite (Qfloor_comp _ _ E).
  assert (C : (y - inject_Z (Qfloor y') ?= 1 # 2) = (y' - inject_Z (Qfloor y') ?= 1 # 2)).
  { apply Qcompare_comp; [|reflexivity]. rewrite E. reflexivity. }
  rewrite C. reflexivity.
Qed.

Lemma round_even_Z (n : Z) : round_even (inject_Z n) = n.
Proof.
  unfold round_even. rewrite Qfloor_Z.
  assert (E : (inject_Z n - inject_Z n ?= 1 # 2) = Lt).
  { apply Qlt_alt. assert (Z0 : inject_Z n - inject_Z n == 0) by ring.
    rewrite Z0. reflexivity. }
  rewrite E. reflexivity.
Qed.

(** The significand. *)
Lemma significand_range x :
  0 < x ->
  let u := 2 ^ (ilog2 x - 52) in
  0 < u /\ 2 ^ 52 * u <= x /\ x < 2 ^ 53 * u.
Proof.
  intros Hx u. destruct (ilog2_spec Hx) as [H1 H2].
  assert (Hu : 0 < u) by apply pow2_pos.
  assert (E1 : 2 ^ ilog2 x == 2 ^ 52 * u).
  { unfold u. rewrite <- pow2_plus. replace (52 + (ilog2 x - 52))%Z with (ilog2 x) by lia.
    reflexivity. }
  assert (E2 : 2 ^ (ilog2 x + 1) == 2 ^ 53 * u).
  { unfold u. rewrite <- pow2_plus. replace (53 + (ilog2 x - 52))%Z with (ilog2 x + 1)%Z by lia.
    reflexivity. }
  rewrite <- E1, <- E2. auto.
Qed.

Lemma binary64_pos x :
  0 < x -> binary64 x = inject_Z (round_even (x / 2 ^ (ilog2 x - 52))) * 2 ^ (ilog2 x - 52).
Proof.
  intros Hx. unfold binary64.
  assert (E : (x ?= 0) = Gt) by (apply Qgt_alt; exact Hx).
  rewrite E. reflexivity.
Qed.

(** The double nearest to [x] is within half a unit of the last place. *)
Lemma binary64_error x :
  0 <= x ->
  x - x * (1 # 2 ^ 53) <= binary64 x /\ binary64 x <= x + x * (1 # 2 ^ 53).
Proof.
  intros Hx.
  destruct (Qeq_dec x 0) as [E0|N0].
  - unfold binary64. assert (E : (x ?= 0) = Eq) by (apply Qeq_alt; exact E0).
    rewrite E, E0. split; lra.
  - assert (Hpos : 0 < x) by (destruct (Qlt_le_dec 0 x); [assumption|exfalso; apply N0; lra]).
    rewrite (binary64_pos Hpos).
    destruct (significand_range Hpos) as (Hu & H1 & H2).
    set (u := 2 ^ (ilog2 x - 52)) in *.
    destruct (round_even_near (x / u)) as [R1 R2].
    set (m := inject_Z (round_even (x / u))) in *.
    assert (Ex : x == (x / u) * u) by (field; lra).
    change (2 ^ 52) with 4503599627370496 in H1.
    assert (Hb : u * (1 # 2) <= x * (1 # 2 ^ 53)).
    { change (1 # 2 ^ 53) with ((1 # 2) * (1 # 4503599627370496)). lra. }
    split.
    + assert ((x / u - (1 # 2)) * u <= m * u) by (apply Qmult_le_compat_r; lra).
      lra.
    + assert (m * u <= (x / u + (1 # 2)) * u) by (apply Qmult_le_compat_r; lra).
      lra.
Qed.

Lemma binary64_comp (x y : Q) : x == y -> binary64 x == binary64 y.
Proof.
  intros E. unfold binary64.
  assert (Cxy : (y ?= 0) = (x ?= 0)) by (apply Qcompare_comp; [symmetry; exact E|reflexivity]).
  rewrite Cxy.
  destruct (x ?= 0) eqn:C.
  - reflexivity.
  - apply Qlt_alt in C.
    assert (Hx : 0 < - x) by lra.
    destruct (ilog2_spec Hx) as [H1 H2].
    assert (El : ilog2 (- y) = ilog2 (- x)).
    { apply ilog2_unique; rewrite <- E; assumption. }
    rewrite El. cbv zeta.
    assert (Er : round_even (- x / 2 ^ (ilog2 (- x) - 52))
                 = round_even (- y / 2 ^ (ilog2 (- x) - 52))).
    { apply round_even_comp. unfold Qdiv.
      apply Qmult_comp; [apply Qopp_comp; exact E|reflexivity]. }
    rewrite Er. reflexivity.
  - apply Qgt_alt in C.
    destruct (ilog2_spec C) as [H1 H2].
    assert (El : ilog2 y = ilog2 x).
    { apply ilog2_unique; rewrite <- E; assumption. }
    rewrite El. cbv zeta.
    assert (Er : round_even (x / 2 ^ (ilog2 x - 52))
                 = round_even (y / 2 ^ (ilog2 x - 52))).
    { apply round_even_comp. unfold Qdiv.
      apply Qmult_comp; [exact E|reflexivity]. }
    rewrite Er. reflexivity.
Qed.

(** A number of at most 53 significant bits is a double. *)
Lemma binary64_exact (n z : Z) :
  (0 < n < 2 ^ 53)%Z ->
  binary64 (inject_Z n * 2 ^ z) == inject_Z n * 2 ^ z.
Proof.
  intros Hn.
  assert (Pz := pow2_pos z).
  assert (Hn0 : 0 < inject_Z n) by (change 0 with (inject_Z 0); rewrite <- Zlt_Qlt; lia).
  assert (Hx : 0 < inject_Z n * 2 ^ z) by nra.
  pose proof (Z.log2_spec n ltac:(lia)) as [L1 L2].
  pose proof (Z.log2_nonneg n) as L0.
  assert (L3 : (Z.log2 n < 53)%Z) by (apply Z.log2_lt_pow2; lia).
  set (k := Z.log2 n) in *.
  assert (Ek : 2 ^ k == inject_Z (2 ^ k)) by (symmetry; apply pow2_Z; lia).
  assert (Ek' : 2 ^ Z.succ k == inject_Z (2 ^ Z.succ k)) by (symmetry; apply pow2_Z; lia).
  assert (El : ilog2 (inject_Z n * 2 ^ z) = (k + z)%Z).
  { apply ilog2_unique.
    - rewrite pow2_plus, Ek.
      apply Qmult_le_compat_r; [rewrite <- Zle_Qle; exact L1|lra].
    - replace (k + z + 1)%Z with (Z.succ k + z)%Z by lia.
      rewrite pow2_plus, Ek'.
      apply Qmult_lt_compat_r; [exact Pz|rewrite <- Zlt_Qlt; exact L2]. }
  rewrite (binary64_pos Hx), El.
  assert (Pu := pow2_pos (k + z - 52)).
  assert (Eq1 : inject_Z n * 2 ^ z / 2 ^ (k + z - 52) == inject_Z (n * 2 ^ (52 - k))).
  { rewrite inject_Z_mult.
    assert (E52 : inject_Z (2 ^ (52 - k)) == 2 ^ (52 - k)) by (apply pow2_Z; lia).
    rewrite E52.
    assert (E : 2 ^ z == 2 ^ (52 - k) * 2 ^ (k + z - 52)).
    { rewrite <- pow2_plus. replace (52 - k + (k + z - 52))%Z with z by lia. reflexivity. }
    rewrite E at 1. field. lra. }
  rewrite (round_even_comp Eq1), round_even_Z, <- Eq1. field. lra.
Qed.

Lemma Qfloor_unique (z : Q) (n : Z) :
  inject_Z n <= z -> z < inject_Z n + 1 -> Qfloor z = n.
Proof.
  intros H1 H2.
  pose proof (Qfloor_le z) as F1. pose proof (Qlt_floor z) as F2.
  rewrite inject_Z_plus in F2. change (inject_Z 1) with 1 in F2.
  assert (A : inject_Z (Qfloor z) < inject_Z (n + 1)).
  { rewrite inject_Z_plus. change (inject_Z 1) with 1. lra. }
  assert (B : inject_Z n < inject_Z (Qfloor z + 1)).
  { rewrite inject_Z_plus. change (inject_Z 1) with 1. lra. }
  rewrite <- Zlt_Qlt in A, B. lia.
Qed.

(** The double [x] of [r] hundredths, [r] up to 102400, and the
    decimals that read back as it. *)
Section Hundredths.
Variable r : Z.
Hypothesis r_range : (0 < r <= 102400)%Z.

Variables w x : Q.
Hypothesis w_def : w == inject_Z r / 100.
Hypothesis x_def : x == binary64 w.

Lemma hundredths_range : 0 < w /\ w <= 1024.
Proof.
  assert (0 < inject_Z r) by (change 0 with (inject_Z 0); rewrite <- Zlt_Qlt; lia).
  assert (inject_Z r <= 102400) by (change 102400 with (inject_Z 102400); rewrite <- Zle_Qle; lia).
  rewrite w_def. split.
  - apply Qlt_shift_div_l; lra.
  - apply Qle_shift_div_r; lra.
Qed.

Lemma double_near :
  w - w * (1 # 2 ^ 53) <= x /\ x <= w + w * (1 # 2 ^ 53).
Proof. rewrite x_def. apply binary64_error. pose proof hundredths_range. lra. Qed.

(** A decimal that is not [w] does not read back as [x]. *)
Lemma other_decimal (d : nat) (c t : Z) :
  (10 ^ Z.of_nat d * t = 100)%Z ->
  (0 <= c)%Z ->
  (c * t <> r)%Z ->
  reads_back x d c = false.
Proof.
  intros Hd Hc Hne. unfold reads_back.
  destruct (Qeq_bool _ x) eqn:E; [|reflexivity]. exfalso.
  apply Qeq_bool_iff in E.
  set (s := (10 ^ Z.of_nat d)%Z) in *.
  assert (Hs : (0 < s)%Z) by (unfold s; apply Z.pow_pos_nonneg; lia).
  assert (Ht : (0 < t)%Z) by nia.
  set (v := inject_Z c / inject_Z s) in *.
  assert (Ps : 0 < inject_Z s) by (change 0 with (inject_Z 0); rewrite <- Zlt_Qlt; lia).
  assert (Ev : v == inject_Z (c * t) / 100).
  { unfold v. rewrite inject_Z_mult.
    assert (E100 : 100 == inject_Z s * inject_Z t).
    { rewrite <- inject_Z_mult, Hd. reflexivity. }
    rewrite E100. field. split; [|lra].
    intros H0. assert (0 < inject_Z t) by (change 0 with (inject_Z 0); rewrite <- Zlt_Qlt; lia).
    lra. }
  assert (Hv : 0 <= v).
  { rewrite Ev. apply Qle_shift_div_l; [lra|].
    rewrite Qmult_0_l. change 0 with (inject_Z 0). rewrite <- Zle_Qle. nia. }
  destruct (binary64_error Hv) as [B1 B2].
  destruct double_near as [X1 X2]. destruct hundredths_range as [W1 W2].
  change (1 # 2 ^ 53) with (1 # 9007199254740992) in *.
  assert (Ew : w == inject_Z r / 100) by exact w_def.
  assert (Hcases : inject_Z (c * t) <= inject_Z r - 1 \/ inject_Z r + 1 <= inject_Z (c * t)).
  { destruct (Z_lt_le_dec (c * t) r) as [L|L].
    - left. assert (Em : inject_Z (r - 1) == inject_Z r - 1)
        by (unfold Z.sub; rewrite inject_Z_plus; reflexivity).
      rewrite <- Em, <- Zle_Qle. lia.
    - right. change 1 with (inject_Z 1). rewrite <- inject_Z_plus, <- Zle_Qle. lia. }
  assert (Ev' : v * 100 == inject_Z (c * t)) by (rewrite Ev; field).
  assert (Ew' : w * 100 == inject_Z r) by (rewrite Ew; field).
  destruct Hcases; lra.
Qed.

(** The decimal [w] itself reads back, and it is the nearest. *)
Lemma own_decimal (d : nat) (c t : Z) :
  (10 ^ Z.of_nat d * t = 100)%Z ->
  (c * t = r)%Z ->
  decimals x d = Some (fixed d (Z.to_N c)).
Proof.
  intros Hd Hc. unfold decimals. cbv zeta.
  set (s := (10 ^ Z.of_nat d)%Z) in *.
  assert (Hs : (0 < s)%Z) by (unfold s; apply Z.pow_pos_nonneg; lia).
  assert (Ht : (0 < t)%Z) by nia.
  assert (Hs100 : (s <= 100)%Z) by nia.
  assert (Hcr : (0 < c <= r)%Z) by nia.
  assert (Ps : 0 < inject_Z s) by (change 0 with (inject_Z 0); rewrite <- Zlt_Qlt; lia).
  assert (Ps100 : inject_Z s <= 100) by (change 100 with (inject_Z 100); rewrite <- Zle_Qle; lia).
  assert (Ew : w * inject_Z s == inject_Z c).
  { rewrite w_def, <- Hc, inject_Z_mult.
    assert (E100 : 100 == inject_Z s * inject_Z t).
    { rewrite <- inject_Z_mult, Hd. reflexivity. }
    rewrite E100. field. split; [|lra].
    intros H0. assert (0 < inject_Z t) by (change 0 with (inject_Z 0); rewrite <- Zlt_Qlt; lia).
    lra. }
  destruct double_near as [X1 X2]. destruct hundredths_range as [W1 W2].
  change (1 # 2 ^ 53) with (1 # 9007199254740992) in *.
  assert (Y1 : (w - w * (1 # 9007199254740992)) * inject_Z s <= x * inject_Z s)
    by (apply Qmult_le_compat_r; lra).
  assert (Y2 : x * inject_Z s <= (w + w * (1 # 9007199254740992)) * inject_Z s)
    by (apply Qmult_le_compat_r; lra).
  assert (Hc1 : inject_Z c <= 102400).
  { change 102400 with (inject_Z 102400). rewrite <- Zle_Qle. lia. }
  assert (Hc0 : 0 < inject_Z c) by (change 0 with (inject_Z 0); rewrite <- Zlt_Qlt; lia).
  assert (En : Qfloor (x * inject_Z s + (1 # 2)) = c).
  { apply Qfloor_unique; lra. }
  rewrite En.
  assert (Er : reads_back x d c = true).
  { unfold reads_back. apply Qeq_bool_iff. fold s. rewrite x_def.
    apply binary64_comp. rewrite <- Ew. field. lra. }
  rewrite Er. reflexivity.
Qed.

Lemma no_decimal (d : nat) (t : Z) :
  (10 ^ Z.of_nat d * t = 100)%Z ->
  (forall c, c * t <> r)%Z ->
  decimals x d = None.
Proof.
  intros Hd Hne. unfold decimals. cbv zeta.
  remember (x * inject_Z (10 ^ Z.of_nat d)) as y eqn:Ey.
  assert (Hy : 0 <= y).
  { rewrite Ey. destruct double_near as [X1 _]. destruct hundredths_range as [W1 W2].
    change (1 # 2 ^ 53) with (1 # 9007199254740992) in *.
    apply Qmult_le_0_compat.
    - assert (w * (1 # 9007199254740992) <= w * 1) by (apply Qmult_le_l; [exact W1|discriminate]).
      lra.
    - change 0 with (inject_Z 0). rewrite <- Zle_Qle. apply Z.pow_nonneg. lia. }
  assert (F0 : (0 <= Qfloor y)%Z).
  { rewrite <- (Qfloor_Z 0). apply Qfloor_resp_le. exact Hy. }
  assert (F1 : (Qfloor y <= Qfloor (y + (1 # 2)) <= Qfloor y + 1)%Z).
  { split.
    - apply Qfloor_resp_le. lra.
    - pose proof (Qlt_floor y) as H. pose proof (Qfloor_le (y + (1 # 2))) as H'.
      rewrite inject_Z_plus in H. change (inject_Z 1) with 1 in H.
      assert (A : inject_Z (Qfloor (y + (1 # 2))) < inject_Z (Qfloor y + 2)).
      { rewrite inject_Z_plus. change (inject_Z 2) with 2. lra. }
      rewrite <- Zlt_Qlt in A. lia. }
  rewrite (@other_decimal d (Qfloor (y + (1 # 2))) t Hd ltac:(lia) (Hne _)).
  rewrite (@other_decimal d (2 * Qfloor y + 1 - Qfloor (y + (1 # 2)))%Z t Hd ltac:(lia) (Hne _)).
  reflexivity.
Qed.

End Hundredths.

End Doubles.

Lemma shortest_S fuel d x :
  shortest (S fuel) d x
  = match decimals x d with
    | Some s => s
    | None => shortest fuel (S d) x
    end.
Proof. reflexivity. Qed.

Lemma Number_ToString_hundredths (r : N) :
  (0 < r <= 102400)%N ->
  Number_ToString (binary64 (inject_Z (Z.of_N r) / 100)) = hundredths r.
Proof.
  intros Hr.
  assert (Hz : (0 < Z.of_N r <= 102400)%Z) by lia.
  set (x := binary64 (inject_Z (Z.of_N r) / 100)).
  assert (Hw : (inject_Z (Z.of_N r) / 100 == inject_Z (Z.of_N r) / 100)%Q) by reflexivity.
  assert (Hx : (x == binary64 (inject_Z (Z.of_N r) / 100))%Q) by reflexivity.
  pose proof (N.div_mod r 100 ltac:(discriminate)) as D100.
  pose proof (N.mod_upper_bound r 100 ltac:(discriminate)) as M100.
  pose proof (N.div_mod (r mod 100) 10 ltac:(discriminate)) as D10.
  pose proof (N.mod_upper_bound (r mod 100) 10 ltac:(discriminate)) as M10.
  set (a := (r / 100)%N) in *. set (n := (r mod 100)%N) in *.
  set (b := (n / 10)%N) in *. set (c0 := (n mod 10)%N) in *.
  unfold Number_ToString, hundredths. fold a n. fold b c0.
  change 23%nat with (S (S (S 20))).
  assert (Hb : (b < 10)%N) by (unfold b; apply N.Div0.div_lt_upper_bound; lia).
  clearbody a n b c0.
  destruct (N.eqb_spec n 0) as [En|En].
  - (* a whole number *)
    rewrite shortest_S.
    rewrite (@own_decimal (Z.of_N r) Hz _ x Hw Hx 0 (Z.of_N a) 100 eq_refl ltac:(lia)).
    rewrite N2Z.id. unfold fixed. cbn [N.of_nat N.pow]. rewrite N.div_1_r. reflexivity.
  - rewrite shortest_S.
    rewrite (@no_decimal (Z.of_N r) Hz _ x Hw Hx 0 100 eq_refl ltac:(lia)).
    rewrite shortest_S.
    destruct (N.eqb_spec c0 0) as [Ec|Ec].
    + (* one decimal *)
      rewrite (@own_decimal (Z.of_N r) Hz _ x Hw Hx 1 (Z.of_N (10 * a + b)) 10 eq_refl ltac:(lia)).
      rewrite N2Z.id. unfold fixed. change (10 ^ N.of_nat 1)%N with 10%N.
      replace ((10 * a + b) / 10)%N with a
        by (apply N.div_unique with (r := b); lia).
      replace ((10 * a + b) mod 10)%N with b
        by (apply N.mod_unique with (q := a); lia).
      cbn [pad]. rewrite (N.mod_small b 10 Hb), app_nil_r. reflexivity.
    + (* two decimals *)
      rewrite (@no_decimal (Z.of_N r) Hz _ x Hw Hx 1 10 eq_refl ltac:(lia)).
      rewrite shortest_S.
      rewrite (@own_decimal (Z.of_N r) Hz _ x Hw Hx 2 (Z.of_N r) 1 eq_refl ltac:(lia)).
      rewrite N2Z.id. unfold fixed. change (10 ^ N.of_nat 2)%N with 100%N.
      replace (r / 100)%N with a
        by (apply N.div_unique with (r := n); lia).
      replace (r mod 100)%N with n
        by (apply N.mod_unique with (q := a); lia).
      cbn [pad].
      replace (n / 10)%N with b
        by (apply N.div_unique with (r := c0); lia).
      replace (n mod 10)%N with c0
        by (apply N.mod_unique with (q := b); lia).
      rewrite (N.mod_small b 10 Hb). reflexivity.
Qed.

(** *** The size *)

Lemma Qfloor_quotient (n d : Z) :
  (0 < d)%Z -> Qfloor (inject_Z n / inject_Z d) = (n / d)%Z.
Proof.
  intros Hd. destruct d as [|p|p]; try lia.
  unfold Qdiv, Qinv, Qmult, inject_Z. cbn [Qnum Qden Qfloor].
  rewrite Z.mul_1_r, Pos.mul_1_l. reflexivity.
Qed.

(** [Math.round] of a quotient times 100, in whole numbers. *)
Lemma round_half_up (a k : Z) :
  (0 < k)%Z ->
  Math_round (inject_Z a / inject_Z k * 100)%Q = ((200 * a + k) / (2 * k))%Z.
Proof.
  intros Hk. unfold Math_round.
  assert (E : (inject_Z a / inject_Z k * 100 + (1 # 2)
               == inject_Z (200 * a + k) / inject_Z (2 * k))%Q).
  { rewrite inject_Z_plus, !inject_Z_mult.
    change (inject_Z 200) with 200%Q. change (inject_Z 2) with 2%Q.
    field. intros H0. change 0%Q with (inject_Z 0) in H0.
    apply (proj1 (inject_Z_injective k 0)) in H0. lia. }
  rewrite E. apply Qfloor_quotient. lia.
Qed.

(** [log1024] is the whole part of the logarithm. *)
Lemma log1024_spec (bytes : N) :
  (0 < bytes)%N ->
  (1024 ^ N.of_nat (log1024 bytes) <= bytes < 1024 ^ N.of_nat (S (log1024 bytes)))%N.
Proof.
  intros Hb. unfold log1024.
  rewrite Nat2N.inj_succ, N2Nat.id.
  pose proof (N.log2_spec bytes Hb) as [Hlo Hhi].
  set (L := N.log2 bytes) in *.
  assert (E : forall q, (1024 ^ q = 2 ^ (10 * q))%N).
  { intros q. rewrite N.pow_mul_r. reflexivity. }
  rewrite !E.
  pose proof (N.div_mod L 10 ltac:(discriminate)) as Hdm.
  pose proof (N.mod_upper_bound L 10 ltac:(discriminate)) as Hmod.
  split.
  - apply N.le_trans with (m := (2 ^ L)%N); [|exact Hlo].
    apply N.pow_le_mono_r; [discriminate|]. apply N.Div0.mul_div_le.
  - apply N.lt_le_trans with (m := (2 ^ N.succ L)%N); [exact Hhi|].
    apply N.pow_le_mono_r; [discriminate|]. apply N.le_succ_l.
    apply N.mul_succ_div_gt. discriminate.
Qed.

(** [Math.pow(1024, i)] is a power of two. *)
Lemma pow1024 (i : nat) :
  (inject_Z (Z.of_N (1024 ^ N.of_nat i)) == 2 ^ (10 * Z.of_nat i))%Q.
Proof.
  rewrite N2Z.inj_pow, nat_N_Z. change (Z.of_N 1024) with (2 ^ 10)%Z.
  rewrite <- Z.pow_mul_r by lia. apply pow2_Z. lia.
Qed.

(** Up to 2^53 hundredths, the quotient and the product are exact. *)
Lemma scaled_exact (b : Z) (i : nat) :
  (0 < b)%Z -> (100 * b < 2 ^ 53)%Z ->
  (binary64 (binary64 (inject_Z b / inject_Z (Z.of_N (1024 ^ N.of_nat i))) * 100)
   == inject_Z b / inject_Z (Z.of_N (1024 ^ N.of_nat i)) * 100)%Q.
Proof.
  intros Hb Hlt.
  assert (Pz := pow2_pos (10 * Z.of_nat i)).
  assert (E1 : (inject_Z b / inject_Z (Z.of_N (1024 ^ N.of_nat i))
                == inject_Z b * 2 ^ (- (10 * Z.of_nat i)))%Q).
  { rewrite pow1024, Qpower_opp. reflexivity. }
  assert (X1 : (binary64 (inject_Z b / inject_Z (Z.of_N (1024 ^ N.of_nat i)))
                == inject_Z b * 2 ^ (- (10 * Z.of_nat i)))%Q).
  { rewrite (binary64_comp E1). apply binary64_exact. lia. }
  assert (E2 : (binary64 (inject_Z b / inject_Z (Z.of_N (1024 ^ N.of_nat i))) * 100
                == inject_Z (100 * b) * 2 ^ (- (10 * Z.of_nat i)))%Q).
  { rewrite X1, inject_Z_mult. change (inject_Z 100) with 100%Q. ring. }
  rewrite (binary64_comp E2), binary64_exact by lia.
  rewrite E1, inject_Z_mult. change (inject_Z 100) with 100%Q. ring.
Qed.

(** From 1 up to 1024, the hundredths lie between 100 and 102400
    however the quotient and the product are rounded. *)
Lemma scaled_range (q : Q) :
  (1 <= q)%Q -> (q < 1024)%Q ->
  (100 <= Math_round (binary64 (binary64 q * 100)) <= 102400)%Z.
Proof.
  intros H1 H2.
  destruct (@binary64_error q ltac:(lra)) as [B1 B2].
  change (1 # 2 ^ 53)%Q with (1 # 9007199254740992)%Q in *.
  assert (B0 : (0 <= binary64 q * 100)%Q) by lra.
  destruct (binary64_error B0) as [P1 P2].
  change (1 # 2 ^ 53)%Q with (1 # 9007199254740992)%Q in *.
  unfold Math_round. split.
  - assert (A : (Qfloor (inject_Z 100)
                 <= Qfloor (binary64 (binary64 q * 100) + (1 # 2))%Q)%Z).
    { apply Qfloor_resp_le. change (inject_Z 100) with 100%Q. lra. }
    rewrite Qfloor_Z in A. exact A.
  - pose proof (Qfloor_le (binary64 (binary64 q * 100) + (1 # 2))%Q) as F.
    assert (A : (inject_Z (Qfloor (binary64 (binary64 q * 100) + (1 # 2))%Q)
                 < inject_Z 102401)%Q).
    { change (inject_Z 102401) with 102401%Q. lra. }
    rewrite <- Zlt_Qlt in A. lia.
Qed.

(** The quotient of a size by the power of 1024 below it. *)
Lemma quotient_range (bytes : N) :
  (0 < bytes)%N ->
  let q := (inject_Z (Z.of_N bytes)
            / inject_Z (Z.of_N (1024 ^ N.of_nat (log1024 bytes))))%Q in
  (1 <= q)%Q /\ (q < 1024)%Q.
Proof.
  intros Hb q. unfold q.
  pose proof (log1024_spec Hb) as [Hlo Hhi].
  rewrite Nat2N.inj_succ, N.pow_succ_r' in Hhi.
  set (K := (1024 ^ N.of_nat (log1024 bytes))%N) in *.
  assert (HK : (0 < K)%N).
  { unfold K. apply N.neq_0_lt_0. apply N.pow_nonzero. discriminate. }
  assert (PK : (0 < inject_Z (Z.of_N K))%Q).
  { change 0%Q with (inject_Z 0). rewrite <- Zlt_Qlt. lia. }
  split.
  - apply Qle_shift_div_l; [exact PK|]. rewrite Qmult_1_l, <- Zle_Qle. lia.
  - apply Qlt_shift_div_r; [exact PK|].
    change 1024%Q with (inject_Z 1024). rewrite <- inject_Z_mult, <- Zlt_Qlt. lia.
Qed.

Lemma formatFileSize_eval floor_log (bytes : N) :
  (0 < bytes)%N ->
  formatFileSize floor_log bytes
  = Number_ToString
      (binary64
         (inject_Z
            (Math_round
               (binary64
                  (binary64 (inject_Z (Z.of_N bytes)
                             / inject_Z (Z.of_N (1024 ^ N.of_nat (floor_log bytes 1024%N))))
                   * 100)))
          / 100))
    ++ lit " " ++ unit_name (floor_log bytes 1024%N).
Proof.
  intros Hb. unfold formatFileSize.
  destruct (N.eqb_spec bytes 0) as [E|_]; [lia|]. reflexivity.
Qed.

(** The text of a size, whatever the rounding: between 1 and 1024 in
    hundredths, and the unit. *)
Lemma formatFileSize_text (floor_log : N -> N -> nat) (bytes : N) :
  (0 < bytes)%N ->
  floor_log bytes 1024%N = log1024 bytes ->
  let r := Z.to_N
             (Math_round
                (binary64
                   (binary64 (inject_Z (Z.of_N bytes)
                              / inject_Z (Z.of_N (1024 ^ N.of_nat (log1024 bytes))))
                    * 100))) in
  formatFileSize floor_log bytes
  = hundredths r ++ lit " " ++ unit_name (log1024 bytes)
  /\ (100 <= r <= 102400)%N.
Proof.
  intros Hb Hlog r.
  destruct (quotient_range Hb) as [Q1 Q2].
  pose proof (scaled_range Q1 Q2) as HR.
  rewrite (formatFileSize_eval floor_log Hb), Hlog.
  fold (Z.of_N r) in *.
  assert (Er : Math_round
                 (binary64
                    (binary64 (inject_Z (Z.of_N bytes)
                               / inject_Z (Z.of_N (1024 ^ N.of_nat (log1024 bytes))))
                     * 100)) = Z.of_N r).
  { unfold r. rewrite Z2N.id; [reflexivity|lia]. }
  rewrite Er in *.
  split; [|lia].
  rewrite Number_ToString_hundredths by lia. reflexivity.
Qed.

Lemma formatFileSize_rounding (floor_log : N -> N -> nat) (bytes : N) :
  (0 < bytes)%N ->
  (100 * bytes < 2 ^ 53)%N ->
  floor_log bytes 1024%N = log1024 bytes ->
  exists r : N,
    formatFileSize floor_log bytes
    = hundredths r ++ lit " " ++ unit_name (log1024 bytes)
    /\ (100 <= r <= 102400)%N
    /\ (2 * r * 1024 ^ N.of_nat (log1024 bytes)
        <= 200 * bytes + 1024 ^ N.of_nat (log1024 bytes)
        < 2 * (r + 1) * 1024 ^ N.of_nat (log1024 bytes))%N.
Proof.
  intros Hb Hlt Hlog.
  destruct (@formatFileSize_text floor_log bytes Hb Hlog) as [E Hr].
  eexists. split; [exact E|]. split; [exact Hr|].
  assert (Hz : (100 * Z.of_N bytes < 2 ^ 53)%Z).
  { change (2 ^ 53)%Z with (Z.of_N (2 ^ 53)). lia. }
  unfold Math_round.
  rewrite (Qfloor_comp _ _
             (Qplus_comp _ _ (@scaled_exact (Z.of_N bytes) (log1024 bytes) ltac:(lia) Hz)
                         _ _ (Qeq_refl (1 # 2)))).
  fold (Math_round (inject_Z (Z.of_N bytes)
                    / inject_Z (Z.of_N (1024 ^ N.of_nat (log1024 bytes))) * 100)).
  set (K := (1024 ^ N.of_nat (log1024 bytes))%N) in *.
  assert (HK : (0 < K)%N).
  { unfold K. apply N.neq_0_lt_0. apply N.pow_nonzero. discriminate. }
  rewrite round_half_up by lia.
  replace ((200 * Z.of_N bytes + Z.of_N K) / (2 * Z.of_N K))%Z
    with (Z.of_N ((200 * bytes + K) / (2 * K)))
    by (rewrite N2Z.inj_div, N2Z.inj_add, !N2Z.inj_mul; reflexivity).
  rewrite N2Z.id.
  pose proof (N.div_mod (200 * bytes + K) (2 * K) ltac:(lia)) as Hdm.
  pose proof (N.mod_upper_bound (200 * bytes + K) (2 * K) ltac:(lia)) as Hmod.
  set (r := ((200 * bytes + K) / (2 * K))%N) in *.
  set (m := ((200 * bytes + K) mod (2 * K))%N) in *.
  split; nia.
Qed.

(** X17. [formatFileSize] of a size of one byte or more and below 2^53
    hundredths (about 90 terabytes), where the doubles of the
    computation are exact, on an engine whose logarithm is accurate at
    this size: the text is a number of hundredths [r], a space and the
    entry of [sizes] for the whole part [i] of the logarithm to base
    1024. The number is the size divided by [1024^i] and rounded to
    hundredths, a tie going up; it lies between 1 and 1024, both
    included. *)
Theorem formatFileSize_rounds (floor_log : N -> N -> nat) (bytes : N) :
  (0 < bytes)%N ->
  (100 * bytes < 2 ^ 53)%N ->
  floor_log bytes 1024%N = log1024 bytes ->
  exists r : N,
    formatFileSize floor_log bytes
    = hundredths r ++ lit " " ++ unit_name (log1024 bytes)
    /\ (100 <= r <= 102400)%N
    /\ (2 * r * 1024 ^ N.of_nat (log1024 bytes)
        <= 200 * bytes + 1024 ^ N.of_nat (log1024 bytes)
        < 2 * (r + 1) * 1024 ^ N.of_nat (log1024 bytes))%N.
Proof. apply formatFileSize_rounding. Qed.

(** X17 at one and a half kilobytes. *)
Lemma formatFileSize_rounds_witness :
  (0 < 1536)%N
  /\ (100 * 1536 < 2 ^ 53)%N
  /\ exact_floor_log 1536 1024 = log1024 1536
  /\ exists r : N,
       formatFileSize exact_floor_log 1536
       = hundredths r ++ lit " " ++ unit_name (log1024 1536)
       /\ (100 <= r <= 102400)%N
       /\ (2 * r * 1024 ^ N.of_nat (log1024 1536)
           <= 200 * 1536 + 1024 ^ N.of_nat (log1024 1536)
           < 2 * (r + 1) * 1024 ^ N.of_nat (log1024 1536))%N.
Proof.
  assert (H1 : (0 < 1536)%N) by reflexivity.
  assert (H2 : (100 * 1536 < 2 ^ 53)%N) by reflexivity.
  assert (H3 : exact_floor_log 1536 1024 = log1024 1536) by reflexivity.
  split; [exact H1|]. split; [exact H2|]. split; [exact H3|].
  exact (@formatFileSize_rounds exact_floor_log 1536 H1 H2 H3).
Defined.

(** One and a half kilobytes, one byte less than a megabyte, the
    largest size that is accepted, and one gigabyte. *)
Example formatFileSize_samples :
  formatFileSize exact_floor_log 1536 = lit "1.5 KB"
  /\ formatFileSize exact_floor_log 1048575 = lit "1024 KB"
  /\ formatFileSize exact_floor_log 10485760 = lit "10 MB"
  /\ formatFileSize exact_floor_log 1073741824 = lit "1 undefined".
Proof. repeat split; vm_compute; reflexivity. Qed.

(** Beyond 2^53 hundredths the product is rounded before [Math.round]
    sees it: 360546355422167 bytes are 327.914999... times [1024^4],
    the double of the product is 32791.5, and the text has 327.92. *)
Example formatFileSize_rounded_product :
  formatFileSize exact_floor_log 360546355422167 = lit "327.92 undefined"
  /\ (2 * 32791 * 1024 ^ 4 <= 200 * 360546355422167 + 1024 ^ 4 < 2 * 32792 * 1024 ^ 4)%N.
Proof. split; [vm_compute; reflexivity|]. split; vm_compute; [discriminate|reflexivity]. Qed.

Lemma hundredths_whole (n : N) : hundredths (100 * n) = of_N n.
Proof.
  unfold hundredths.
  replace (100 * n / 100)%N with n by (rewrite N.mul_comm, N.div_mul; [reflexivity|discriminate]).
  replace ((100 * n) mod 100)%N with 0%N
    by (rewrite N.mul_comm, N.Div0.mod_mul; reflexivity).
  cbn [N.eqb]. apply app_nil_r.
Qed.

(** X18. A size below 1024 is shown as its decimal digits followed by
    [ Bytes], without decimals; zero included. *)
Theorem formatFileSize_bytes (floor_log : N -> N -> nat) (bytes : N) :
  (bytes < 1024)%N ->
  floor_log bytes 1024%N = log1024 bytes ->
  formatFileSize floor_log bytes = of_N bytes ++ lit " Bytes".
Proof.
  intros Hb Hlog.
  destruct (N.eqb_spec bytes 0) as [->|Hn]; [reflexivity|].
  assert (Hpos : (0 < bytes)%N) by lia.
  assert (Hl : log1024 bytes = 0).
  { unfold log1024.
    assert (N.log2 bytes < 10)%N.
    { apply N.log2_lt_pow2; [exact Hpos|exact Hb]. }
    rewrite N.div_small by assumption. reflexivity. }
  assert (Hlt : (100 * bytes < 2 ^ 53)%N).
  { apply N.lt_trans with (m := (100 * 1024)%N); [lia|reflexivity]. }
  destruct (@formatFileSize_rounding floor_log bytes Hpos Hlt Hlog) as (r & E & _ & Hr).
  rewrite E, Hl in *. change (1024 ^ N.of_nat 0)%N with 1%N in Hr.
  replace r with (100 * bytes)%N by lia.
  rewrite hundredths_whole. reflexivity.
Qed.

(** X18 at 512 bytes. *)
Lemma formatFileSize_bytes_witness :
  (512 < 1024)%N
  /\ exact_floor_log 512 1024 = log1024 512
  /\ formatFileSize exact_floor_log 512 = lit "512 Bytes".
Proof.
  assert (H1 : (512 < 1024)%N) by reflexivity.
  assert (H2 : exact_floor_log 512 1024 = log1024 512) by reflexivity.
  split; [exact H1|]. split; [exact H2|].
  exact (@formatFileSize_bytes exact_floor_log 512 H1 H2).
Defined.

(** X19. From [1024^3] bytes on [formatFileSize] has no unit: [sizes[i]]
    is [undefined], and the text ends in [ undefined]. *)
Theorem formatFileSize_without_unit (floor_log : N -> N -> nat) (bytes : N) :
  (1024 ^ 3 <= bytes)%N ->
  floor_log bytes 1024%N = log1024 bytes ->
  exists r : N,
    formatFileSize floor_log bytes = hundredths r ++ lit " undefined"
    /\ (100 <= r <= 102400)%N.
Proof.
  intros Hb Hlog.
  assert (Hpos : (0 < bytes)%N).
  { apply N.lt_le_trans with (m := (1024 ^ 3)%N); [reflexivity|exact Hb]. }
  destruct (@formatFileSize_text floor_log bytes Hpos Hlog) as (E & Hr).
  eexists. split; [|exact Hr]. rewrite E.
  assert (Hl : 3 <= log1024 bytes).
  { destruct (Nat.le_gt_cases 3 (log1024 bytes)) as [H|H]; [exact H|]. exfalso.
    pose proof (log1024_spec Hpos) as [_ Hhi].
    assert (Hle : (1024 ^ N.of_nat (S (log1024 bytes)) <= 1024 ^ 3)%N).
    { apply N.pow_le_mono_r; [discriminate|lia]. }
    apply (N.lt_irrefl bytes).
    eapply N.lt_le_trans; [exact Hhi|]. eapply N.le_trans; [exact Hle|exact Hb]. }
  unfold unit_name.
  destruct (log1024 bytes) as [|[|[|n]]]; try lia.
  destruct n; reflexivity.
Qed.

(** X19 at one gigabyte. *)
Lemma formatFileSize_without_unit_witness :
  (1024 ^ 3 <= 1073741824)%N
  /\ exact_floor_log 1073741824 1024 = log1024 1073741824
  /\ exists r : N,
       formatFileSize exact_floor_log 1073741824 = hundredths r ++ lit " undefined"
       /\ (100 <= r <= 102400)%N.
Proof.
  assert (H1 : (1024 ^ 3 <= 1073741824)%N) by (vm_compute; discriminate).
  assert (H2 : exact_floor_log 1073741824 1024 = log1024 1073741824) by reflexivity.
  split; [exact H1|]. split; [exact H2|].
  exact (@formatFileSize_without_unit exact_floor_log 1073741824 H1 H2).
Defined.

End FileSize.

(** ** Event handlers *)

Module Handlers.
Import JS Dom App Page Vocabulary PageVocabulary Samples PageSamples.
Import FrontMatterFacts Pipeline Conversion FileSize.

Lemma on_app_appended floor_log (A : Type) (m : M A) p r s new :
  m (app_state p) = (r, s) ->
  screen s = screen (app_state p) ++ new ->
  on_app floor_log m p = (r, MkPage s (fold_left (paint floor_log) new (view p)) (timers p)).
Proof.
  intros E Hs. unfold on_app. rewrite E, Hs, skipn_length_app. reflexivity.
Qed.

Lemma on_app_silent floor_log (A : Type) (m : M A) p r s :
  m (app_state p) = (r, s) ->
  screen s = screen (app_state p) ->
  on_app floor_log m p = (r, MkPage s (view p) (timers p)).
Proof.
  intros E Hs. rewrite (@on_app_appended floor_log A m p r s [] E); [reflexivity|].
  rewrite app_nil_r. exact Hs.
Qed.





Example notes_md_displayed :
  exists p',
    handleFileSelect sample_platform exact_floor_log [notes_md] fresh_page = (Ok tt, p')
    /\ fileSize_textContent (view p') = lit "120 Bytes".
Proof. eexists. split; [vm_compute; reflexivity|]. reflexivity. Qed.

(** Neither generator writes to the screen. *)
Lemma generator_screen env format style st :
  screen (snd (generator env format style st)) = screen st.
Proof.
  unfold generator.
  destruct (jsstring_eqb format (lit "pdf")).
  - rewrite generatePDF_eval.
    destruct (container_of env st style) as [container|e0]; [|reflexivity].
    cbv zeta.
    assert (Hrm : forall c s, screen (removeChild c s) = screen s).
    { intros c s. unfold removeChild. destruct (rev (body s)); reflexivity. }
    destruct (html2canvas env _) as [canvas|e]; [|cbn [snd]; rewrite Hrm; reflexivity].
    destruct (paginate canvas); [|cbn [snd]; rewrite Hrm; reflexivity].
    destruct (pdf_filename env _); cbn [snd]; rewrite Hrm; reflexivity.
  - destruct (jsstring_eqb format (lit "docx")); [|reflexivity].
    rewrite generateDOCX_eval.
    destruct (document_of env st) as [doc|e0]; [|reflexivity].
    cbv zeta.
    destruct (Packer_toBlob env _); [|reflexivity].
    destruct (docx_filename env _); reflexivity.
Qed.

(** [convertAndDownload], step by step. *)
Lemma convertAndDownload_eval env floor_log p :
  convertAndDownload env floor_log p
  = match selectedFile (app_state p) with
    | None =>
        (Ok tt, MkPage (show (ShowError MSG_NO_FILE) (app_state p))
                  (showError MSG_NO_FILE (view p)) (timers p))
    | Some _ =>
        match format_checked (view p) with
        | None => (Throw (Error (lit "Cannot read properties of null")), p)
        | Some format =>
            let v1 := set_progressSection_display (lit "block")
                        (set_fileInfo_display (lit "none")
                           (set_previewSection_display (lit "none")
                              (set_optionsSection_display (lit "none") (view p)))) in
            let v2 := if jsstring_eqb format (lit "pdf")
                      then set_progressText_textContent MSG_GENERATING_PDF v1
                      else if jsstring_eqb format (lit "docx")
                           then set_progressText_textContent MSG_GENERATING_DOCX v1
                           else v1 in
            match generator env format (styleSelect_value (view p)) (app_state p) with
            | (Ok _, s) => (Ok tt, MkPage s v2 (timers p ++ [2000%N]))
            | (Throw e, s) =>
                (Ok tt,
                 MkPage (show (ShowError (MSG_CONVERSION_ERROR_PREFIX ++ message e))
                           (log e s))
                        (showError (MSG_CONVERSION_ERROR_PREFIX ++ message e) v2)
                        (timers p))
            end
        end
    end.
Proof.
  unfold convertAndDownload. cbv [bindP read_state].
  destruct (selectedFile (app_state p)) as [f|].
  - cbv [read_view]. destruct (format_checked (view p)) as [format|]; [|reflexivity].
    cbv zeta. cbv [bindP on_view try_catchP setTimeout_reset retP on_state].
    cbn [app_state view timers].
    pose proof (generator_screen env format (styleSelect_value (view p)) (app_state p)) as Hs.
    unfold generator in *.
    destruct (jsstring_eqb format (lit "pdf")).
    + unfold on_app at 1. cbn [app_state view timers].
      destruct (generatePDF env _ (app_state p)) as [[[]|e] s]; cbn [snd] in Hs.
      * rewrite Hs, skipn_all. reflexivity.
      * rewrite Hs, skipn_all. cbn [fold_left app_state view timers].
        unfold on_app, App.showError, modify. cbn [app_state view timers screen show log].
        rewrite skipn_length_app. reflexivity.
    + destruct (jsstring_eqb format (lit "docx")).
      * unfold on_app at 1. cbn [app_state view timers].
        destruct (generateDOCX env _ (app_state p)) as [[[]|e] s]; cbn [snd] in Hs.
        -- rewrite Hs, skipn_all. reflexivity.
        -- rewrite Hs, skipn_all. cbn [fold_left app_state view timers].
           unfold on_app, App.showError, modify. cbn [app_state view timers screen show log].
           rewrite skipn_length_app. reflexivity.
      * destruct p; reflexivity.
  - unfold on_app, App.showError, modify. cbn [screen show].
    rewrite skipn_length_app. reflexivity.
Qed.


(** X21. [convertAndDownload] with a file selected and a format checked
    never throws. It hides options, preview and file information and
    runs the generator of the format, none for a format other than
    [pdf] and [docx]. If the generator returns, the progress section
    stays displayed and a [reset] is scheduled after 2000 ms. If it
    throws, the exception is logged, no [reset] is scheduled, the
    progress section is hidden and the error section shows the
    conversion error with the exception's message. *)
Theorem conversion_outcome (env : Platform) (floor_log : N -> N -> nat) (p : page)
    (file : File) (format : jsstring) :
  selectedFile (app_state p) = Some file ->
  format_checked (view p) = Some format ->
  exists p',
    convertAndDownload env floor_log p = (Ok tt, p')
    /\ optionsSection_display (view p') = lit "none"
    /\ previewSection_display (view p') = lit "none"
    /\ fileInfo_display (view p') = lit "none"
    /\ match generator env format (styleSelect_value (view p)) (app_state p) with
       | (Ok _, s) =>
           app_state p' = s
           /\ timers p' = timers p ++ [2000%N]
           /\ progressSection_display (view p') = lit "block"
           /\ errorSection_display (view p') = errorSection_display (view p)
       | (Throw e, s) =>
           app_state p' = show (ShowError (MSG_CONVERSION_ERROR_PREFIX ++ message e)) (log e s)
           /\ timers p' = timers p
           /\ progressSection_display (view p') = lit "none"
           /\ errorSection_display (view p') = lit "block"
           /\ errorMessage_textContent (view p')
              = MSG_CONVERSION_ERROR_PREFIX ++ message e
       end.
Proof.
  intros Hf Hc. rewrite convertAndDownload_eval, Hf, Hc. cbv zeta.
  destruct (generator env format (styleSelect_value (view p)) (app_state p)) as [[[]|e] s].
  - eexists. split; [reflexivity|]. cbn [app_state view timers].
    destruct (jsstring_eqb format (lit "pdf")); [repeat split|].
    destruct (jsstring_eqb format (lit "docx")); repeat split.
  - eexists. split; [reflexivity|]. cbn [app_state view timers].
    destruct (jsstring_eqb format (lit "pdf")); [repeat split|].
    destruct (jsstring_eqb format (lit "docx")); repeat split.
Qed.

(** X21 at a page with [notes.md] selected and the PDF format checked. *)
Lemma conversion_outcome_witness :
  selectedFile (app_state loaded_page) = Some notes_md
  /\ format_checked (view loaded_page) = Some (lit "pdf")
  /\ exists p',
       convertAndDownload sample_platform exact_floor_log loaded_page = (Ok tt, p')
       /\ optionsSection_display (view p') = lit "none".
Proof.
  assert (H1 : selectedFile (app_state loaded_page) = Some notes_md) by reflexivity.
  assert (H2 : format_checked (view loaded_page) = Some (lit "pdf")) by reflexivity.
  split; [exact H1|]. split; [exact H2|].
  destruct (@conversion_outcome sample_platform exact_floor_log loaded_page notes_md _ H1 H2)
    as (p' & E & S1 & _).
  exists p'. split; [exact E|exact S1].
Defined.

Example report_is_saved :
  exists p',
    convertAndDownload sample_platform exact_floor_log loaded_page = (Ok tt, p')
    /\ map fst (saved (app_state p')) = [lit "report.pdf"]
    /\ timers p' = [2000%N]
    /\ body (app_state p') = [].
Proof. eexists. split; [vm_compute; reflexivity|]. repeat split. Qed.


Lemma paint_keeps_error floor_log v u :
  errorSection_display v = lit "block" ->
  errorSection_display (paint floor_log v u) = lit "block".
Proof. intros H. destruct u; cbn; auto. Qed.

Lemma fold_paint_keeps_error floor_log : forall l v,
  errorSection_display v = lit "block" ->
  errorSection_display (fold_left (paint floor_log) l v) = lit "block".
Proof.
  induction l as [|u l IH]; intros v H; [exact H|].
  cbn [fold_left]. apply IH. apply paint_keeps_error. exact H.
Qed.

Lemma on_app_keeps_error floor_log (A : Type) (m : M A) p :
  errorSection_display (view p) = lit "block" ->
  errorSection_display (view (snd (on_app floor_log m p))) = lit "block".
Proof.
  intros H. unfold on_app. destruct (m (app_state p)) as [r s]. cbn [snd view].
  apply fold_paint_keeps_error. exact H.
Qed.

(** X22. Once the error section is displayed, no event hides it but
    those whose handler is [reset]: it stays displayed through the
    selection and the drop of files, also of files that are accepted,
    through drags and through conversions. *)
Theorem error_stays_until_reset (env : Platform) (floor_log : N -> N -> nat)
    (e : event) (p : page) :
  errorSection_display (view p) = lit "block" ->
  resets e = false ->
  errorSection_display (view (snd (dispatch env floor_log e p))) = lit "block".
Proof.
  intros H He. destruct e; try discriminate; cbn [dispatch].
  - destruct files as [|file files]; [exact H|]. apply on_app_keeps_error. exact H.
  - exact H.
  - exact H.
  - exact H.
  - unfold handleDrop, bindP, on_view. cbn [app_state view timers].
    destruct files as [|file files]; [exact H|].
    apply on_app_keeps_error. exact H.
  - rewrite convertAndDownload_eval.
    destruct (selectedFile (app_state p)); [|reflexivity].
    destruct (format_checked (view p)) as [format|]; [|exact H]. cbv zeta.
    destruct (generator env format _ (app_state p)) as [[[]|x] s]; [|reflexivity].
    cbn [snd view].
    destruct (jsstring_eqb format (lit "pdf")); [exact H|].
    destruct (jsstring_eqb format (lit "docx")); exact H.
Qed.

(** X22 at the selection of [notes.md] on a page that shows an error. *)
Lemma error_stays_until_reset_witness :
  errorSection_display (view error_page) = lit "block"
  /\ resets (Change [notes_md]) = false
  /\ errorSection_display
       (view (snd (dispatch sample_platform exact_floor_log (Change [notes_md]) error_page)))
     = lit "block".
Proof.
  assert (H1 : errorSection_display (view error_page) = lit "block") by reflexivity.
  assert (H2 : resets (Change [notes_md]) = false) by reflexivity.
  split; [exact H1|]. split; [exact H2|].
  exact (@error_stays_until_reset sample_platform exact_floor_log _ error_page H1 H2).
Defined.

(** The preview of [notes.md] next to the error of before. *)
Example error_next_to_preview :
  let p := snd (dispatch sample_platform exact_floor_log (Change [notes_md]) error_page) in
  errorSection_display (view p) = lit "block"
  /\ errorMessage_textContent (view p) = lit "oops"
  /\ previewSection_display (view p) = lit "block".
Proof. vm_compute. repeat split. Qed.


Lemma reset_eval p :
  reset p
  = (Ok tt,
     MkPage (set_metadata empty_metadata
               (set_parsedHtml [] (set_markdownContent [] (set_selectedFile None (app_state p)))))
            (set_styleSelect_value (lit "default")
               (set_format_checked (Some (lit "pdf"))
                  (set_uploadArea_display (lit "block")
                     (set_errorSection_display (lit "none")
                        (set_progressSection_display (lit "none")
                           (set_optionsSection_display (lit "none")
                              (set_previewSection_display (lit "none")
                                 (set_fileInfo_display (lit "none")
                                    (set_fileInput_value [] (view p))))))))))
            (timers p)).
Proof. reflexivity. Qed.

(** A generator leaves [document.body] as it was and saves one file at
    most. *)
Lemma generator_frame env format style st :
  body (snd (generator env format style st)) = body st
  /\ exists more,
       saved (snd (generator env format style st)) = saved st ++ more
       /\ length more <= 1.
Proof.
  unfold generator.
  destruct (jsstring_eqb format (lit "pdf")).
  - split.
    + rewrite generatePDF_eval.
      destruct (container_of env st style) as [container|e0]; [|reflexivity].
      cbv zeta.
      destruct (html2canvas env _) as [canvas|e].
      * destruct (paginate canvas) as [pdf|].
        -- destruct (pdf_filename env (title (metadata st))); cbn [snd];
             apply removeChild_last; reflexivity.
        -- cbn [snd]. apply removeChild_last; reflexivity.
      * cbn [snd]. apply removeChild_last; reflexivity.
    + rewrite generatePDF_eval.
      destruct (container_of env st style) as [container|e0];
        [|exists []; split; [symmetry; apply app_nil_r|cbn; lia]].
      cbv zeta.
      assert (Hrm : forall c s, saved (removeChild c s) = saved s).
      { intros c s. unfold removeChild. destruct (rev (body s)); reflexivity. }
      destruct (html2canvas env _) as [canvas|e].
      * destruct (paginate canvas) as [pdf|].
        -- destruct (pdf_filename env (title (metadata st))) as [filename|e]; cbn [snd];
             rewrite Hrm.
           ++ eexists [_]. split; [reflexivity|cbn; lia].
           ++ exists []. split; [symmetry; apply app_nil_r|cbn; lia].
        -- cbn [snd]. rewrite Hrm. exists []. split; [symmetry; apply app_nil_r|cbn; lia].
      * cbn [snd]. rewrite Hrm. exists []. split; [symmetry; apply app_nil_r|cbn; lia].
  - destruct (jsstring_eqb format (lit "docx")).
    + rewrite generateDOCX_eval.
      destruct (document_of env st) as [doc|e0];
        [|split; [reflexivity|]; exists []; split; [symmetry; apply app_nil_r|cbn; lia]].
      cbv zeta.
      destruct (Packer_toBlob env _) as [blob|e].
      * destruct (docx_filename env (title (metadata st))) as [filename|e]; cbn [snd].
        -- split; [reflexivity|]. eexists [_]. split; [reflexivity|cbn; lia].
        -- split; [reflexivity|]. exists []. split; [symmetry; apply app_nil_r|cbn; lia].
      * split; [reflexivity|]. exists []. split; [symmetry; apply app_nil_r|cbn; lia].
    + split; [reflexivity|]. exists []. split; [symmetry; apply app_nil_r|cbn; lia].
Qed.

Lemma on_app_state floor_log (A : Type) (m : M A) p :
  app_state (snd (on_app floor_log m p)) = snd (m (app_state p)).
Proof. unfold on_app. destruct (m (app_state p)); reflexivity. Qed.

(** What one event does to [document.body] and to the saved files. *)
Lemma dispatch_frame env floor_log e p :
  body (app_state (snd (dispatch env floor_log e p))) = body (app_state p)
  /\ exists more,
       saved (app_state (snd (dispatch env floor_log e p))) = saved (app_state p) ++ more
       /\ length more <= if converts e then 1 else 0.
Proof.
  assert (Hnone : forall p' : page,
            body (app_state p') = body (app_state p) -> saved (app_state p') = saved (app_state p) ->
            body (app_state p') = body (app_state p)
            /\ exists more, saved (app_state p') = saved (app_state p) ++ more /\ length more <= 0).
  { intros p' Hb Hs. split; [exact Hb|]. exists []. rewrite app_nil_r. split; [exact Hs|].
    cbn. lia. }
  assert (Hfile : forall file (q : page),
            body (app_state q) = body (app_state p) -> saved (app_state q) = saved (app_state p) ->
            body (app_state (snd (on_app floor_log (processFile env file) q))) = body (app_state p)
            /\ saved (app_state (snd (on_app floor_log (processFile env file) q))) = saved (app_state p)).
  { intros file q Hb Hs. rewrite on_app_state.
    destruct (processFile_returns env file (app_state q)) as (st' & E & _ & S1 & S2).
    rewrite E. cbn [snd]. split; congruence. }
  destruct e; cbn [dispatch converts].
  - destruct files as [|file files]; [apply Hnone; reflexivity|].
    destruct (Hfile file p eq_refl eq_refl) as [Hb Hs]. apply Hnone; assumption.
  - apply Hnone; reflexivity.
  - apply Hnone; reflexivity.
  - apply Hnone; reflexivity.
  - unfold handleDrop, bindP, on_view. cbn [app_state view timers].
    destruct files as [|file files]; [apply Hnone; reflexivity|].
    match goal with
    | |- context [on_app floor_log (processFile env file) ?q] =>
        destruct (Hfile file q eq_refl eq_refl) as [Hb Hs]
    end.
    apply Hnone; assumption.
  - apply Hnone; reflexivity.
  - rewrite convertAndDownload_eval.
    destruct (selectedFile (app_state p)).
    + destruct (format_checked (view p)) as [format|].
      * cbv zeta.
        destruct (generator_frame env format (styleSelect_value (view p)) (app_state p))
          as (Hb & more & Hs & Hl).
        destruct (generator env format _ (app_state p)) as [[[]|x] s]; cbn [snd] in *.
        -- split; [exact Hb|]. exists more. split; [exact Hs|exact Hl].
        -- split; [exact Hb|]. exists more. split; [exact Hs|exact Hl].
      * split; [reflexivity|]. exists []. rewrite app_nil_r. split; [reflexivity|cbn; lia].
    + split; [reflexivity|]. exists []. rewrite app_nil_r. split; [reflexivity|cbn; lia].
  - apply Hnone; reflexivity.
  - destruct (timers p); apply Hnone; reflexivity.
Qed.

(** X23. Whatever the events, handled one after the other:
    [document.body] has the children it had before, no saved file is
    lost or changed, and at most one file is saved for every click on
    the convert button; no other event saves a file. *)
Theorem events_keep_body_and_files (env : Platform) (floor_log : N -> N -> nat)
    (events : list event) (p : page) :
  body (app_state (after env floor_log events p)) = body (app_state p)
  /\ exists more,
       saved (app_state (after env floor_log events p)) = saved (app_state p) ++ more
       /\ length more <= length (filter converts events).
Proof.
  revert p. induction events as [|e events IH]; intros p.
  - split; [reflexivity|]. exists []. rewrite app_nil_r. split; [reflexivity|cbn; lia].
  - change (after env floor_log (e :: events) p)
      with (after env floor_log events (snd (dispatch env floor_log e p))).
    destruct (dispatch_frame env floor_log e p) as (Hb & more1 & Hs & Hl).
    destruct (IH (snd (dispatch env floor_log e p))) as (Hb2 & more2 & Hs2 & Hl2).
    split; [congruence|].
    exists (more1 ++ more2). rewrite Hs2, Hs, <- app_assoc. split; [reflexivity|].
    rewrite length_app. cbn [filter]. destruct (converts e); cbn [length]; lia.
Qed.

(** X24. After a conversion that succeeds, the timer it sets resets the
    application: the document is forgotten ([selectedFile],
    [markdownContent], [parsedHtml] and [metadata] are cleared), the
    upload area is displayed again, and a further click on the convert
    button saves nothing more and shows that no file is selected. *)
Theorem converted_document_is_forgotten (env : Platform) (floor_log : N -> N -> nat)
    (p : page) (file : File) (format : jsstring) :
  selectedFile (app_state p) = Some file ->
  format_checked (view p) = Some format ->
  fst (generator env format (styleSelect_value (view p)) (app_state p)) = Ok tt ->
  let p3 := after env floor_log [ClickConvert; TimerFires; ClickConvert] p in
  selectedFile (app_state p3) = None
  /\ markdownContent (app_state p3) = []
  /\ parsedHtml (app_state p3) = []
  /\ metadata (app_state p3) = empty_metadata
  /\ saved (app_state p3) = saved (snd (generator env format (styleSelect_value (view p)) (app_state p)))
  /\ uploadArea_display (view p3) = lit "block"
  /\ errorSection_display (view p3) = lit "block"
  /\ errorMessage_textContent (view p3) = MSG_NO_FILE.
Proof.
  intros Hf Hc Hg p3. unfold p3, after. cbn [fold_left dispatch].
  rewrite (convertAndDownload_eval env floor_log p), Hf, Hc. cbv zeta.
  destruct (generator env format (styleSelect_value (view p)) (app_state p)) as [[[]|x] s];
    [|discriminate].
  cbn [snd timers].
  destruct (timers p ++ [2000%N]) as [|t waiting] eqn:Et;
    [destruct (timers p); discriminate|].
  rewrite reset_eval. cbn [snd].
  rewrite convertAndDownload_eval. cbn [app_state view timers selectedFile set_metadata
    set_parsedHtml set_markdownContent set_selectedFile snd].
  repeat split.
Qed.

(** X24 at a page with [notes.md] selected and the PDF format
    checked. *)
Lemma converted_document_is_forgotten_witness :
  selectedFile (app_state loaded_page) = Some notes_md
  /\ format_checked (view loaded_page) = Some (lit "pdf")
  /\ fst (generator sample_platform (lit "pdf") (styleSelect_value (view loaded_page))
            (app_state loaded_page)) = Ok tt
  /\ selectedFile
       (app_state (after sample_platform exact_floor_log [ClickConvert; TimerFires; ClickConvert]
               loaded_page)) = None.
Proof.
  assert (H1 : selectedFile (app_state loaded_page) = Some notes_md) by reflexivity.
  assert (H2 : format_checked (view loaded_page) = Some (lit "pdf")) by reflexivity.
  assert (H3 : fst (generator sample_platform (lit "pdf")
                      (styleSelect_value (view loaded_page)) (app_state loaded_page)) = Ok tt)
    by (vm_compute; reflexivity).
  split; [exact H1|]. split; [exact H2|]. split; [exact H3|].
  exact (proj1 (@converted_document_is_forgotten sample_platform exact_floor_log
                  loaded_page notes_md _ H1 H2 H3)).
Defined.

End Handlers.
